(** * CuDNNDepthwiseLayer: layout translation and scratch-pool management

    A shallow embedding of [src/caffe/layers/cudnn_depthwise_layer.cpp].

    - C++ [int] values are integers in [Z]; [/] and [%] are the truncating
      [Z.quot] and [Z.rem], and a zero divisor is undefined behaviour.
    - [size_t] values are integers in [Z] reduced modulo [2^64].
    - The raw [Dtype*] buffers of a blob are lists indexed from 0; an access
      outside the buffer is undefined behaviour.
    - A failing [CHECK_EQ] of this file, a failing [CUDA_CHECK]/[CUDNN_CHECK],
      a fatal failure inside the rest of Caffe and undefined behaviour are the
      ways a member function can fail to return.
    - The device runtime is a [World]: the resources the process holds and the
      requests made to [cudaMalloc].  What the runtime answers is a [Backend];
      what the rest of Caffe does is a [Framework]. *)

From Stdlib Require Import ZArith Lia String Sorted.
From stdpp Require Import base list list_numbers.

Local Open Scope Z_scope.

(** ** Outcomes of a member function *)

Inductive Failure : Type :=
| CheckFailed (msg : string)      (* glog CHECK_EQ(...) << msg : fatal *)
| BackendFailed (call : string)   (* CUDA_CHECK / CUDNN_CHECK : fatal *)
| FrameworkFailed                 (* a call into the rest of Caffe is fatal *)
| UndefinedBehavior.              (* out-of-bounds access, division by zero,
                                     delete[] of an array not held *)

Inductive Res (A : Type) : Type :=
| Ok (a : A)
| Fail (f : Failure).

Arguments Ok {A} a.
Arguments Fail {A} f.

#[global] Instance Res_ret : MRet Res := fun A a => Ok a.
#[global] Instance Res_bind : MBind Res := fun A B k c =>
  match c with
  | Ok a => k a
  | Fail f => Fail f
  end.

(** ** C++ arithmetic *)

(** [a / b] on [int].  ([INT_MIN / -1] is left out: the operands here are
    counts and indices.) *)
Definition int_div (a b : Z) : Res Z :=
  if decide (b = 0) then Fail UndefinedBehavior else Ok (Z.quot a b).

(** [a % b] on [int]. *)
Definition int_mod (a b : Z) : Res Z :=
  if decide (b = 0) then Fail UndefinedBehavior else Ok (Z.rem a b).

(** The largest [int]; [Blob::Reshape] keeps the count of a blob below it. *)
Definition INT_MAX : Z := 2 ^ 31 - 1.

Definition SIZE_T_MODULUS : Z := 2 ^ 64.

(** [a * b] on [size_t]. *)
Definition size_mul (a b : Z) : Z := (a * b) mod SIZE_T_MODULUS.

(** [reinterpret_cast<char*>(p) + n]: addresses are 64-bit. *)
Definition ptr_add (p n : Z) : Z := (p + n) mod SIZE_T_MODULUS.

Definition NULL : Z := 0.

(** ** Loops

    [for (int i = 0; i < n; ++i) body], threading the variables the body
    assigns. *)

Fixpoint for_from {St : Type} (i : Z) (count : nat)
    (body : Z -> St -> Res St) (s : St) : Res St :=
  match count with
  | O => Ok s
  | S c => s' ← body i s; for_from (i + 1) c body s'
  end.

Definition for_loop {St : Type} (n : Z) (body : Z -> St -> Res St) (s : St) : Res St :=
  for_from 0 (Z.to_nat n) body s.

(** ** Raw buffers *)

Section Buffers.
Context {A : Type}.

(** [p[idx]] as an rvalue. *)
Definition load (p : list A) (idx : Z) : Res A :=
  if decide (0 <= idx) then
    match p !! Z.to_nat idx with
    | Some v => Ok v
    | None => Fail UndefinedBehavior
    end
  else Fail UndefinedBehavior.

(** [p[idx] = v]. *)
Definition store (p : list A) (idx : Z) (v : A) : Res (list A) :=
  if decide (0 <= idx < Z.of_nat (length p)) then Ok (<[Z.to_nat idx := v]> p)
  else Fail UndefinedBehavior.

(** Modelled from the spec: [caffe_set(N, alpha, Y)] of
    caffe/util/math_functions.cpp, which is not under src/.  The spec has it
    as the memset before the pass: the first [N] entries of [Y] become
    [alpha], the others are not touched. *)
Definition caffe_set (N : Z) (alpha : A) (Y : list A) : Res (list A) :=
  if decide (0 <= N <= Z.of_nat (length Y)) then
    Ok (replicate (Z.to_nat N) alpha ++ drop (Z.to_nat N) Y)
  else Fail UndefinedBehavior.
End Buffers.

(** ** Data model *)

(** The scalar type the layer is instantiated at ([float] or [double]); the
    translators only copy scalars and write the constants [0.] and [1.]. *)
Class Scalar (Dtype : Type) := {
  scalar_0 : Dtype;
  scalar_1 : Dtype
}.

(** [Blob<Dtype>]: shape, data buffer, gradient buffer. *)
Record Blob (Dtype : Type) := {
  shape_ : list Z;
  data_ : list Dtype;
  diff_ : list Dtype
}.
Arguments shape_ {Dtype} _.
Arguments data_ {Dtype} _.
Arguments diff_ {Dtype} _.

(** [LayerParameter]: the group count of its convolution_param and the
    repeated [blobs] field; [BlobProto] is the serialised form of a blob. *)
Record LayerParameter (BlobProto : Type) := {
  convolution_param_group : Z;
  param_blobs : list BlobProto
}.
Arguments convolution_param_group {BlobProto} _.
Arguments param_blobs {BlobProto} _.

(** The members of [DepthwiseLayer<Dtype>] that this file reads or writes. *)
Record DepthwiseLayer (Dtype BlobProto : Type) := {
  layer_param_ : LayerParameter BlobProto;
  blobs_ : list (Blob Dtype);
  bias_term_ : bool;
  channels_ : Z;
  num_output_ : Z;
  multiplier_ : Z;
  kernel_dim_ : Z;
  num_spatial_axes_ : Z;
  channel_axis_ : Z;
  num_ : Z;
  bottom_dim_ : Z;
  top_dim_ : Z;
  out_spatial_dim_ : Z;
  kernel_shape_ : list Z;
  pad_ : list Z;
  stride_ : list Z
}.
Arguments layer_param_ {Dtype BlobProto} _.
Arguments blobs_ {Dtype BlobProto} _.
Arguments bias_term_ {Dtype BlobProto} _.
Arguments channels_ {Dtype BlobProto} _.
Arguments num_output_ {Dtype BlobProto} _.
Arguments multiplier_ {Dtype BlobProto} _.
Arguments kernel_dim_ {Dtype BlobProto} _.
Arguments num_spatial_axes_ {Dtype BlobProto} _.
Arguments channel_axis_ {Dtype BlobProto} _.
Arguments num_ {Dtype BlobProto} _.
Arguments bottom_dim_ {Dtype BlobProto} _.
Arguments top_dim_ {Dtype BlobProto} _.
Arguments out_spatial_dim_ {Dtype BlobProto} _.
Arguments kernel_shape_ {Dtype BlobProto} _.
Arguments pad_ {Dtype BlobProto} _.
Arguments stride_ {Dtype BlobProto} _.

Definition set_blobs_ {Dtype BlobProto} (b : DepthwiseLayer Dtype BlobProto)
    (bs : list (Blob Dtype)) : DepthwiseLayer Dtype BlobProto :=
  {| layer_param_ := layer_param_ b; blobs_ := bs; bias_term_ := bias_term_ b;
     channels_ := channels_ b; num_output_ := num_output_ b;
     multiplier_ := multiplier_ b; kernel_dim_ := kernel_dim_ b;
     num_spatial_axes_ := num_spatial_axes_ b; channel_axis_ := channel_axis_ b;
     num_ := num_ b; bottom_dim_ := bottom_dim_ b; top_dim_ := top_dim_ b;
     out_spatial_dim_ := out_spatial_dim_ b; kernel_shape_ := kernel_shape_ b;
     pad_ := pad_ b; stride_ := stride_ b |}.

(** cuDNN descriptors: the handle the backend gave out and the values last
    set on it. *)
Record cudnnTensorDescriptor_t := {
  tensor_id : nat;
  tensor_nchw : option (Z * Z * Z * Z);
  tensor_strides : option (Z * Z * Z * Z)
}.

Record cudnnFilterDescriptor_t := {
  filter_id : nat;
  filter_kchw : option (Z * Z * Z * Z)
}.

Record cudnnConvolutionDescriptor_t := {
  conv_id : nat;
  conv_pad_stride : option (Z * Z * Z * Z)
}.

(** [#define CUDNN_STREAMS_DEPTHWISE 3] *)
Definition CUDNN_STREAMS_DEPTHWISE : Z := 3.

(** The enumerators of cudnn.h that the file names. *)
Definition CUDNN_CONVOLUTION_FWD_ALGO_IMPLICIT_GEMM : Z := 0.
Definition CUDNN_CONVOLUTION_BWD_FILTER_ALGO_0 : Z := 0.
Definition CUDNN_CONVOLUTION_BWD_DATA_ALGO_0 : Z := 0.

(** The descriptor members. *)
Record Descriptors := {
  bottom_descs_ : list cudnnTensorDescriptor_t;
  top_descs_ : list cudnnTensorDescriptor_t;
  bias_desc_ : cudnnTensorDescriptor_t;
  filter_desc_ : cudnnFilterDescriptor_t;
  conv_descs_ : list cudnnConvolutionDescriptor_t
}.

(** The per-bottom algorithm and scratch-size arrays ([new T[bottom.size()]]). *)
Record AlgorithmPlan := {
  fwd_algo_ : list Z;
  bwd_filter_algo_ : list Z;
  bwd_data_algo_ : list Z;
  workspace_fwd_sizes_ : list Z;
  workspace_bwd_data_sizes_ : list Z;
  workspace_bwd_filter_sizes_ : list Z
}.

(** The scratch pool: its size, its device pointer and the per-stream
    aliases ([new void*[CUDNN_STREAMS_DEPTHWISE]]). *)
Record ScratchPool := {
  workspaceSizeInBytes : Z;
  workspaceData : Z;
  workspace : list Z
}.

(** [CuDNNDepthwiseLayer<Dtype>]. *)
Record CuDNNDepthwiseLayer (Dtype BlobProto : Type) := {
  base : DepthwiseLayer Dtype BlobProto;
  handles_setup_ : bool;
  handle_ : list nat;
  stream_ : list nat;
  plan : AlgorithmPlan;
  descs : Descriptors;
  group_ : Z;
  weight_offset_ : Z;
  bottom_offset_ : Z;
  top_offset_ : Z;
  pool : ScratchPool;
  caffe_weight_ : Blob Dtype;
  mask_ : Blob Dtype
}.
Arguments base {Dtype BlobProto} _.
Arguments handles_setup_ {Dtype BlobProto} _.
Arguments handle_ {Dtype BlobProto} _.
Arguments stream_ {Dtype BlobProto} _.
Arguments plan {Dtype BlobProto} _.
Arguments descs {Dtype BlobProto} _.
Arguments group_ {Dtype BlobProto} _.
Arguments weight_offset_ {Dtype BlobProto} _.
Arguments bottom_offset_ {Dtype BlobProto} _.
Arguments top_offset_ {Dtype BlobProto} _.
Arguments pool {Dtype BlobProto} _.
Arguments caffe_weight_ {Dtype BlobProto} _.
Arguments mask_ {Dtype BlobProto} _.

(** ** The layout translators *)

Section LayoutTranslator.
Context {Dtype BlobProto : Type} `{Scalar Dtype}.

Local Abbreviation Layer := (CuDNNDepthwiseLayer Dtype BlobProto).

(** [(i * channels_per_group + j) * kernel_dim_ + k] *)
Definition idx_cudnn (channels_per_group kernel_dim i j k : Z) : Z :=
  (i * channels_per_group + j) * kernel_dim + k.

(** [i * kernel_dim_ + k] *)
Definition idx_caffe (kernel_dim i k : Z) : Z := i * kernel_dim + k.

(** [i / multiplier_ % channels_per_group] *)
Definition channel_slot (multiplier channels_per_group i : Z) : Res Z :=
  q ← int_div i multiplier; int_mod q channels_per_group.

(** The buffers the loop of [CaffeToCuDNN] assigns. *)
Record BackendBuffers := {
  cudnn_data : list Dtype;
  cudnn_diff : list Dtype;
  mask_data : list Dtype
}.

(** Body of the inner loop of [CaffeToCuDNN] (lines 308-313). *)
Definition CaffeToCuDNN_body (multiplier channels_per_group kernel_dim : Z)
    (caffe_data caffe_diff : list Dtype) (i k : Z)
    (b : BackendBuffers) : Res BackendBuffers :=
  j ← channel_slot multiplier channels_per_group i;
  let idx_cudnn := idx_cudnn channels_per_group kernel_dim i j k in
  let idx_caffe := idx_caffe kernel_dim i k in
  v ← load caffe_data idx_caffe;
  cudnn_data' ← store (cudnn_data b) idx_cudnn v;
  g ← load caffe_diff idx_caffe;
  cudnn_diff' ← store (cudnn_diff b) idx_cudnn g;
  mask_data' ← store (mask_data b) idx_cudnn scalar_1;
  mret {| cudnn_data := cudnn_data'; cudnn_diff := cudnn_diff';
          mask_data := mask_data' |}.

(** The layer once the pointers [cudnn_data], [cudnn_diff] (into [blobs_[0]])
    and [mask_data] (into [mask_]) have been written through. *)
Definition write_back_backend (l : Layer) (blob0 : Blob Dtype)
    (others : list (Blob Dtype)) (b : BackendBuffers) : Layer :=
  {| base := set_blobs_ (base l)
       ({| shape_ := shape_ blob0; data_ := cudnn_data b;
           diff_ := cudnn_diff b |} :: others);
     handles_setup_ := handles_setup_ l; handle_ := handle_ l;
     stream_ := stream_ l; plan := plan l; descs := descs l;
     group_ := group_ l; weight_offset_ := weight_offset_ l;
     bottom_offset_ := bottom_offset_ l; top_offset_ := top_offset_ l;
     pool := pool l; caffe_weight_ := caffe_weight_ l;
     mask_ := {| shape_ := shape_ (mask_ l); data_ := mask_data b;
                 diff_ := diff_ (mask_ l) |} |}.

Definition CaffeToCuDNN (l : Layer) : Res Layer :=
  match blobs_ (base l) with
  | [] => Ok l
  | blob0 :: others =>
      let caffe_data := data_ (caffe_weight_ l) in
      let caffe_diff := diff_ (caffe_weight_ l) in
      channels_per_group ← int_div (channels_ (base l)) (group_ l);
      let N := num_output_ (base l) * channels_per_group * kernel_dim_ (base l) in
      cudnn_data0 ← caffe_set N scalar_0 (data_ blob0);
      cudnn_diff0 ← caffe_set N scalar_0 (diff_ blob0);
      mask_data0 ← caffe_set N scalar_0 (data_ (mask_ l));
      b ← for_loop (num_output_ (base l)) (fun i =>
             for_loop (kernel_dim_ (base l)) (fun k =>
               CaffeToCuDNN_body (multiplier_ (base l)) channels_per_group
                 (kernel_dim_ (base l)) caffe_data caffe_diff i k))
           {| cudnn_data := cudnn_data0; cudnn_diff := cudnn_diff0;
              mask_data := mask_data0 |};
      mret (write_back_backend l blob0 others b)
  end.

(** The buffers the loop of [CuDNNToCaffe] assigns. *)
Record CompactBuffers := {
  caffe_data : list Dtype;
  caffe_diff : list Dtype
}.

(** Body of the inner loop of [CuDNNToCaffe] (lines 329-333). *)
Definition CuDNNToCaffe_body (multiplier channels_per_group kernel_dim : Z)
    (cudnn_data cudnn_diff : list Dtype) (i k : Z)
    (c : CompactBuffers) : Res CompactBuffers :=
  j ← channel_slot multiplier channels_per_group i;
  let idx_cudnn := idx_cudnn channels_per_group kernel_dim i j k in
  let idx_caffe := idx_caffe kernel_dim i k in
  v ← load cudnn_data idx_cudnn;
  caffe_data' ← store (caffe_data c) idx_caffe v;
  g ← load cudnn_diff idx_cudnn;
  caffe_diff' ← store (caffe_diff c) idx_caffe g;
  mret {| caffe_data := caffe_data'; caffe_diff := caffe_diff' |}.

(** The layer once the pointers [caffe_data] and [caffe_diff] (into
    [caffe_weight_]) have been written through. *)
Definition write_back_compact (l : Layer) (c : CompactBuffers) : Layer :=
  {| base := base l;
     handles_setup_ := handles_setup_ l; handle_ := handle_ l;
     stream_ := stream_ l; plan := plan l; descs := descs l;
     group_ := group_ l; weight_offset_ := weight_offset_ l;
     bottom_offset_ := bottom_offset_ l; top_offset_ := top_offset_ l;
     pool := pool l;
     caffe_weight_ := {| shape_ := shape_ (caffe_weight_ l);
                         data_ := caffe_data c; diff_ := caffe_diff c |};
     mask_ := mask_ l |}.

Definition CuDNNToCaffe (l : Layer) : Res Layer :=
  match blobs_ (base l) with
  | [] => Ok l
  | blob0 :: _ =>
      let cudnn_data := data_ blob0 in
      let cudnn_diff := diff_ blob0 in
      channels_per_group ← int_div (channels_ (base l)) (group_ l);
      c ← for_loop (num_output_ (base l)) (fun i =>
             for_loop (kernel_dim_ (base l)) (fun k =>
               CuDNNToCaffe_body (multiplier_ (base l)) channels_per_group
                 (kernel_dim_ (base l)) cudnn_data cudnn_diff i k))
           {| caffe_data := data_ (caffe_weight_ l);
              caffe_diff := diff_ (caffe_weight_ l) |};
      mret (write_back_compact l c)
  end.
End LayoutTranslator.

Arguments BackendBuffers : clear implicits.
Arguments CompactBuffers : clear implicits.

(** ** The device runtime and the host heap *)

(** The members that point to an array made by [new T[n]] in [LayerSetUp].
    Each is assigned once, so the member names the allocation. *)
Inductive ArrayMember : Type :=
| arr_workspace
| arr_stream_
| arr_handle_
| arr_fwd_algo_
| arr_bwd_filter_algo_
| arr_bwd_data_algo_
| arr_workspace_fwd_sizes_
| arr_workspace_bwd_data_sizes_
| arr_workspace_bwd_filter_sizes_.

Inductive Resource : Type :=
| TensorDescriptor (id : nat)
| FilterDescriptor (id : nat)
| ConvolutionDescriptor (id : nat)
| CudaStream (id : nat)
| CudnnHandle (id : nat)
| DeviceMemory (p : Z)
| HostArray (a : ArrayMember).

#[global] Instance ArrayMember_eq_dec : EqDecision ArrayMember.
Proof. solve_decision. Defined.

#[global] Instance Resource_eq_dec : EqDecision Resource.
Proof. solve_decision. Defined.

Record World := {
  held : list Resource;        (* resources acquired and not yet released *)
  next_id : nat;               (* the next handle the runtime gives out *)
  malloc_requests : list Z     (* sizes asked of cudaMalloc, latest first *)
}.

(** A member function that talks to the runtime. *)
Definition M (A : Type) : Type := World -> Res (A * World).

#[global] Instance M_ret : MRet M := fun A a w => Ok (a, w).
#[global] Instance M_bind : MBind M := fun A B k c w =>
  match c w with
  | Ok (a, w') => k a w'
  | Fail f => Fail f
  end.

Definition lift {A} (r : Res A) : M A := fun w =>
  match r with
  | Ok a => Ok (a, w)
  | Fail f => Fail f
  end.

Fixpoint for_fromM {St : Type} (i : Z) (count : nat)
    (body : Z -> St -> M St) (s : St) : M St :=
  match count with
  | O => mret s
  | S c => s' ← body i s; for_fromM (i + 1) c body s'
  end.

Definition for_loopM {St : Type} (n : Z) (body : Z -> St -> M St) (s : St) : M St :=
  for_fromM 0 (Z.to_nat n) body s.

(** What the runtime answers: whether a call reports success, the algorithm
    and scratch-size queries, and [cudaMalloc] ([None]: not [cudaSuccess]). *)
Record Backend := {
  call_succeeds : string -> bool;
  cudnnGetConvolutionForwardAlgorithm :
    cudnnTensorDescriptor_t -> cudnnFilterDescriptor_t ->
    cudnnConvolutionDescriptor_t -> cudnnTensorDescriptor_t -> Z -> option Z;
  cudnnGetConvolutionForwardWorkspaceSize :
    cudnnTensorDescriptor_t -> cudnnFilterDescriptor_t ->
    cudnnConvolutionDescriptor_t -> cudnnTensorDescriptor_t -> Z -> option Z;
  cudnnGetConvolutionBackwardFilterAlgorithm :
    cudnnTensorDescriptor_t -> cudnnTensorDescriptor_t ->
    cudnnConvolutionDescriptor_t -> cudnnFilterDescriptor_t -> Z -> option Z;
  cudnnGetConvolutionBackwardFilterWorkspaceSize :
    cudnnTensorDescriptor_t -> cudnnTensorDescriptor_t ->
    cudnnConvolutionDescriptor_t -> cudnnFilterDescriptor_t -> Z -> option Z;
  cudnnGetConvolutionBackwardDataAlgorithm :
    cudnnFilterDescriptor_t -> cudnnTensorDescriptor_t ->
    cudnnConvolutionDescriptor_t -> cudnnTensorDescriptor_t -> Z -> option Z;
  cudnnGetConvolutionBackwardDataWorkspaceSize :
    cudnnFilterDescriptor_t -> cudnnTensorDescriptor_t ->
    cudnnConvolutionDescriptor_t -> cudnnTensorDescriptor_t -> Z -> option Z;
  cudaMalloc : Z -> option Z
}.

(** [CHECK_EQ(a, b) << msg] *)
Definition CHECK_EQ (a b : Z) (msg : string) : Res unit :=
  if decide (a = b) then Ok tt else Fail (CheckFailed msg).

(** [CUDA_CHECK(call)] and [CUDNN_CHECK(call)]: fatal unless the call reports
    success. *)
Definition BACKEND_CHECK (be : Backend) (call : string) : Res unit :=
  if call_succeeds be call then Ok tt else Fail (BackendFailed call).

(** A query whose status goes through [CUDNN_CHECK]. *)
Definition checked_query (call : string) (answer : option Z) : Res Z :=
  match answer with
  | Some v => Ok v
  | None => Fail (BackendFailed call)
  end.

(** The runtime creates an object and gives out its handle. *)
Definition acquire (mk : nat -> Resource) : M nat := fun w =>
  Ok (next_id w,
      {| held := mk (next_id w) :: held w; next_id := S (next_id w);
         malloc_requests := malloc_requests w |}).

(** [new T[n]]: the array is held; its [n] entries are assigned before they
    are read, the model starts them at [init]. *)
Definition new_array {A} (a : ArrayMember) (n : nat) (init : A) : M (list A) :=
  fun w =>
    Ok (replicate n init,
        {| held := HostArray a :: held w; next_id := next_id w;
           malloc_requests := malloc_requests w |}).

Definition drop_resource (r : Resource) (w : World) : World :=
  {| held := filter (fun x => x <> r) (held w); next_id := next_id w;
     malloc_requests := malloc_requests w |}.

(** A destroy or free call of the runtime.  The source discards its status:
    on a handle that is not held the call changes nothing. *)
Definition runtime_release (r : Resource) : M unit := fun w =>
  Ok (tt, drop_resource r w).

(** [delete [] a]; deleting an array that is not held is undefined. *)
Definition delete_array (a : ArrayMember) : M unit := fun w =>
  if decide (HostArray a ∈ held w) then Ok (tt, drop_resource (HostArray a) w)
  else Fail UndefinedBehavior.

(** [cudaFree(p)]; freeing the null pointer does nothing. *)
Definition cudaFree (p : Z) : M unit :=
  if decide (p = NULL) then mret tt else runtime_release (DeviceMemory p).

(** [cudaMalloc(&p, size)]: the request is made; on success the memory is
    held and [p] is the new pointer. *)
Definition cudaMalloc_call (be : Backend) (size : Z) : M (option Z) := fun w =>
  match cudaMalloc be size with
  | Some p =>
      Ok (Some p,
          {| held := DeviceMemory p :: held w; next_id := next_id w;
             malloc_requests := size :: malloc_requests w |})
  | None =>
      Ok (None,
          {| held := held w; next_id := next_id w;
             malloc_requests := size :: malloc_requests w |})
  end.

(** Modelled from the spec: the helpers of caffe/util/cudnn.hpp, which is not
    under src/.  The spec has them as the opaque descriptor capability of the
    backend: create a descriptor, set its values; every call is checked. *)
Definition createTensor4dDesc (be : Backend) : M cudnnTensorDescriptor_t :=
  lift (BACKEND_CHECK be "cudnnCreateTensorDescriptor");;
  id ← acquire TensorDescriptor;
  mret {| tensor_id := id; tensor_nchw := None; tensor_strides := None |}.

Definition setTensor4dDesc_strided (be : Backend) (d : cudnnTensorDescriptor_t)
    (n c h w stride_n stride_c stride_h stride_w : Z) : Res cudnnTensorDescriptor_t :=
  BACKEND_CHECK be "cudnnSetTensor4dDescriptorEx";;
  mret {| tensor_id := tensor_id d; tensor_nchw := Some (n, c, h, w);
          tensor_strides := Some (stride_n, stride_c, stride_h, stride_w) |}.

Definition setTensor4dDesc (be : Backend) (d : cudnnTensorDescriptor_t)
    (n c h w : Z) : Res cudnnTensorDescriptor_t :=
  let stride_w := 1 in
  let stride_h := w * stride_w in
  let stride_c := h * stride_h in
  let stride_n := c * stride_c in
  setTensor4dDesc_strided be d n c h w stride_n stride_c stride_h stride_w.

Definition createFilterDesc (be : Backend) (n c h w : Z) : M cudnnFilterDescriptor_t :=
  lift (BACKEND_CHECK be "cudnnCreateFilterDescriptor");;
  id ← acquire FilterDescriptor;
  lift (BACKEND_CHECK be "cudnnSetFilter4dDescriptor");;
  mret {| filter_id := id; filter_kchw := Some (n, c, h, w) |}.

Definition createConvolutionDesc (be : Backend) : M cudnnConvolutionDescriptor_t :=
  lift (BACKEND_CHECK be "cudnnCreateConvolutionDescriptor");;
  id ← acquire ConvolutionDescriptor;
  mret {| conv_id := id; conv_pad_stride := None |}.

Definition setConvolutionDesc (be : Backend) (conv : cudnnConvolutionDescriptor_t)
    (pad_h pad_w stride_h stride_w : Z) : Res cudnnConvolutionDescriptor_t :=
  BACKEND_CHECK be "cudnnSetConvolution2dDescriptor";;
  mret {| conv_id := conv_id conv;
          conv_pad_stride := Some (pad_h, pad_w, stride_h, stride_w) |}.

(** What the rest of Caffe does: the base class and [Blob], which are not
    under src/.  A bottom or top blob is its shape; [None] is a call that
    does not return (a fatal check inside the framework). *)
Record Framework (Dtype BlobProto : Type) := {
  DepthwiseLayer_LayerSetUp :
    DepthwiseLayer Dtype BlobProto -> list (list Z) -> list (list Z) ->
    option (DepthwiseLayer Dtype BlobProto);
  DepthwiseLayer_Reshape :
    DepthwiseLayer Dtype BlobProto -> list (list Z) -> list (list Z) ->
    option (DepthwiseLayer Dtype BlobProto * list (list Z));
  Blob_shape : list Z -> Z -> option Z;
  Blob_CopyFrom : Blob Dtype -> Blob Dtype -> bool -> bool -> option (Blob Dtype);
  Blob_Reshape : Blob Dtype -> list Z -> option (Blob Dtype);
  Blob_ToProto : Blob Dtype -> bool -> BlobProto
}.
Arguments DepthwiseLayer_LayerSetUp {Dtype BlobProto} _.
Arguments DepthwiseLayer_Reshape {Dtype BlobProto} _.
Arguments Blob_shape {Dtype BlobProto} _.
Arguments Blob_CopyFrom {Dtype BlobProto} _.
Arguments Blob_Reshape {Dtype BlobProto} _.
Arguments Blob_ToProto {Dtype BlobProto} _.

Definition framework {A} (r : option A) : Res A :=
  match r with
  | Some a => Ok a
  | None => Fail FrameworkFailed
  end.

(** ** Setup, reshape, teardown and serialisation *)

Section LayerFunctions.
Context {Dtype BlobProto : Type} `{Scalar Dtype}.
Variables (fw : Framework Dtype BlobProto) (be : Backend).

Local Abbreviation Layer := (CuDNNDepthwiseLayer Dtype BlobProto).

(** Lines 54-63 at index [i]: default algorithms, which need no workspace. *)
Definition LayerSetUp_defaults (i : Z) (p : AlgorithmPlan) : Res AlgorithmPlan :=
  fwd ← store (fwd_algo_ p) i 0;
  bwd_filter ← store (bwd_filter_algo_ p) i 0;
  bwd_data ← store (bwd_data_algo_ p) i 0;
  fwd_sizes ← store (workspace_fwd_sizes_ p) i 0;
  bwd_data_sizes ← store (workspace_bwd_data_sizes_ p) i 0;
  bwd_filter_sizes ← store (workspace_bwd_filter_sizes_ p) i 0;
  mret {| fwd_algo_ := fwd; bwd_filter_algo_ := bwd_filter;
          bwd_data_algo_ := bwd_data; workspace_fwd_sizes_ := fwd_sizes;
          workspace_bwd_data_sizes_ := bwd_data_sizes;
          workspace_bwd_filter_sizes_ := bwd_filter_sizes |}.

(** Lines 65-70 at index [g]; the state is [(stream_, handle_, workspace)]. *)
Definition LayerSetUp_stream (g : Z) (st : list nat * list nat * list Z) :
    M (list nat * list nat * list Z) :=
  let '(stream, handle, workspace) := st in
  lift (BACKEND_CHECK be "cudaStreamCreate");;
  s ← acquire CudaStream;
  stream' ← lift (store stream g s);
  lift (BACKEND_CHECK be "cudnnCreate");;
  h ← acquire CudnnHandle;
  handle' ← lift (store handle g h);
  lift (BACKEND_CHECK be "cudnnSetStream");;
  workspace' ← lift (store workspace g NULL);
  mret (stream', handle', workspace').

(** Lines 77-87, one bottom: the three vectors grow by [push_back]. *)
Definition LayerSetUp_descs (i : Z) (d : Descriptors) : M Descriptors :=
  bottom_desc ← createTensor4dDesc be;
  top_desc ← createTensor4dDesc be;
  conv_desc ← createConvolutionDesc be;
  mret {| bottom_descs_ := bottom_descs_ d ++ [bottom_desc];
          top_descs_ := top_descs_ d ++ [top_desc];
          bias_desc_ := bias_desc_ d; filter_desc_ := filter_desc_ d;
          conv_descs_ := conv_descs_ d ++ [conv_desc] |}.

Definition DIVISIBLE_MSG : string :=
  "CuDNNConvolution input channels must be divisible by groups.".

Definition LayerSetUp (l : Layer) (bottom top : list (list Z)) : M Layer :=
  b ← lift (framework (DepthwiseLayer_LayerSetUp fw (base l) bottom top));
  let group := convolution_param_group (layer_param_ b) in
  r ← lift (int_mod (channels_ b) group);
  lift (CHECK_EQ 0 r DIVISIBLE_MSG);;
  kernel_h ← lift (load (kernel_shape_ b) 0);
  kernel_w ← lift (load (kernel_shape_ b) 1);
  (* num_output_ / group_ and channels_ / group_, lines 32, 74 and 97 *)
  out_per_group ← lift (int_div (num_output_ b) group);
  in_per_group ← lift (int_div (channels_ b) group);
  let weight_offset := out_per_group * in_per_group * kernel_h * kernel_w in
  let streams := Z.to_nat CUDNN_STREAMS_DEPTHWISE in
  stream0 ← new_array arr_stream_ streams 0%nat;
  handle0 ← new_array arr_handle_ streams 0%nat;
  fwd0 ← new_array arr_fwd_algo_ (length bottom) 0;
  bwd_filter0 ← new_array arr_bwd_filter_algo_ (length bottom) 0;
  bwd_data0 ← new_array arr_bwd_data_algo_ (length bottom) 0;
  fwd_sizes0 ← new_array arr_workspace_fwd_sizes_ (length bottom) 0;
  bwd_filter_sizes0 ← new_array arr_workspace_bwd_filter_sizes_ (length bottom) 0;
  bwd_data_sizes0 ← new_array arr_workspace_bwd_data_sizes_ (length bottom) 0;
  workspace0 ← new_array arr_workspace streams NULL;
  p ← lift (for_loop (Z.of_nat (length bottom)) LayerSetUp_defaults
              {| fwd_algo_ := fwd0; bwd_filter_algo_ := bwd_filter0;
                 bwd_data_algo_ := bwd_data0; workspace_fwd_sizes_ := fwd_sizes0;
                 workspace_bwd_data_sizes_ := bwd_data_sizes0;
                 workspace_bwd_filter_sizes_ := bwd_filter_sizes0 |});
  '(stream, handle, workspace) ←
    for_loopM CUDNN_STREAMS_DEPTHWISE LayerSetUp_stream
      (stream0, handle0, workspace0);
  filter_desc ← createFilterDesc be out_per_group in_per_group kernel_h kernel_w;
  d ← for_loopM (Z.of_nat (length bottom)) LayerSetUp_descs
        {| bottom_descs_ := bottom_descs_ (descs l);
           top_descs_ := top_descs_ (descs l);
           bias_desc_ := bias_desc_ (descs l); filter_desc_ := filter_desc;
           conv_descs_ := conv_descs_ (descs l) |};
  bias_desc ← (if bias_term_ b then createTensor4dDesc be
               else mret (bias_desc_ d));
  let weight_shape := [num_output_ b; in_per_group; kernel_h; kernel_w] in
  blob0 ← lift (load (blobs_ b) 0);
  caffe_weight ← lift (framework (Blob_CopyFrom fw (caffe_weight_ l) blob0 false true));
  caffe_weight ← lift (framework (Blob_CopyFrom fw caffe_weight blob0 true false));
  blob0' ← lift (framework (Blob_Reshape fw blob0 weight_shape));
  mask ← lift (framework (Blob_Reshape fw (mask_ l) weight_shape));
  l' ← lift (CaffeToCuDNN
       {| base := set_blobs_ b (blob0' :: tail (blobs_ b));
          handles_setup_ := handles_setup_ l;
          handle_ := handle; stream_ := stream; plan := p;
          descs := {| bottom_descs_ := bottom_descs_ d;
                      top_descs_ := top_descs_ d; bias_desc_ := bias_desc;
                      filter_desc_ := filter_desc_ d;
                      conv_descs_ := conv_descs_ d |};
          group_ := group; weight_offset_ := weight_offset;
          bottom_offset_ := bottom_offset_ l; top_offset_ := top_offset_ l;
          pool := {| workspaceSizeInBytes := 0; workspaceData := NULL;
                     workspace := workspace |};
          caffe_weight_ := caffe_weight; mask_ := mask |});
  mret {| base := base l'; handles_setup_ := true;
          handle_ := handle_ l'; stream_ := stream_ l'; plan := plan l';
          descs := descs l'; group_ := group_ l';
          weight_offset_ := weight_offset_ l';
          bottom_offset_ := bottom_offset_ l'; top_offset_ := top_offset_ l';
          pool := pool l'; caffe_weight_ := caffe_weight_ l';
          mask_ := mask_ l' |}.

(** The values [Reshape] reads once before its loop over the bottoms. *)
Record ReshapeGeometry := {
  height : Z; width : Z; height_out : Z; width_out : Z;
  pad_h : Z; pad_w : Z; stride_h : Z; stride_w : Z
}.

(** [size_t workspace_limit_bytes = 8*1024*1024] *)
Definition workspace_limit_bytes : Z := 8 * 1024 * 1024.

(** Lines 136-179 at index [i]: descriptors of bottom [i], then its three
    algorithms and their scratch sizes. *)
Definition Reshape_bottom (b : DepthwiseLayer Dtype BlobProto) (group : Z)
    (handle : list nat) (g : ReshapeGeometry) (i : Z)
    (st : Descriptors * AlgorithmPlan) : Res (Descriptors * AlgorithmPlan) :=
  let '(d, p) := st in
  in_per_group ← int_div (channels_ b) group;
  out_per_group ← int_div (num_output_ b) group;
  bottom_desc ← load (bottom_descs_ d) i;
  bottom_desc ← setTensor4dDesc_strided be bottom_desc
    (num_ b) in_per_group (height g) (width g)
    (channels_ b * height g * width g) (height g * width g) (width g) 1;
  top_desc ← load (top_descs_ d) i;
  top_desc ← setTensor4dDesc_strided be top_desc
    (num_ b) out_per_group (height_out g) (width_out g)
    (num_output_ b * out_spatial_dim_ b) (out_spatial_dim_ b) (width_out g) 1;
  conv_desc ← load (conv_descs_ d) i;
  conv_desc ← setConvolutionDesc be conv_desc
    (pad_h g) (pad_w g) (stride_h g) (stride_w g);
  bottom_descs ← store (bottom_descs_ d) i bottom_desc;
  top_descs ← store (top_descs_ d) i top_desc;
  conv_descs ← store (conv_descs_ d) i conv_desc;
  let filter_desc := filter_desc_ d in
  (* every query goes through handle_[0] *)
  _ ← load handle 0;
  fwd ← checked_query "cudnnGetConvolutionForwardAlgorithm"
    (cudnnGetConvolutionForwardAlgorithm be bottom_desc filter_desc conv_desc
       top_desc workspace_limit_bytes);
  fwd_algo ← store (fwd_algo_ p) i fwd;
  fwd_size ← checked_query "cudnnGetConvolutionForwardWorkspaceSize"
    (cudnnGetConvolutionForwardWorkspaceSize be bottom_desc filter_desc
       conv_desc top_desc fwd);
  fwd_sizes ← store (workspace_fwd_sizes_ p) i fwd_size;
  bwd_filter ← checked_query "cudnnGetConvolutionBackwardFilterAlgorithm"
    (cudnnGetConvolutionBackwardFilterAlgorithm be bottom_desc top_desc
       conv_desc filter_desc workspace_limit_bytes);
  bwd_filter_algo ← store (bwd_filter_algo_ p) i bwd_filter;
  bwd_filter_size ← checked_query "cudnnGetConvolutionBackwardFilterWorkspaceSize"
    (cudnnGetConvolutionBackwardFilterWorkspaceSize be bottom_desc top_desc
       conv_desc filter_desc bwd_filter);
  bwd_filter_sizes ← store (workspace_bwd_filter_sizes_ p) i bwd_filter_size;
  bwd_data ← checked_query "cudnnGetConvolutionBackwardDataAlgorithm"
    (cudnnGetConvolutionBackwardDataAlgorithm be filter_desc top_desc
       conv_desc bottom_desc workspace_limit_bytes);
  bwd_data_algo ← store (bwd_data_algo_ p) i bwd_data;
  bwd_data_size ← checked_query "cudnnGetConvolutionBackwardDataWorkspaceSize"
    (cudnnGetConvolutionBackwardDataWorkspaceSize be filter_desc top_desc
       conv_desc bottom_desc bwd_data);
  bwd_data_sizes ← store (workspace_bwd_data_sizes_ p) i bwd_data_size;
  mret ({| bottom_descs_ := bottom_descs; top_descs_ := top_descs;
           bias_desc_ := bias_desc_ d; filter_desc_ := filter_desc_ d;
           conv_descs_ := conv_descs |},
        {| fwd_algo_ := fwd_algo; bwd_filter_algo_ := bwd_filter_algo;
           bwd_data_algo_ := bwd_data_algo; workspace_fwd_sizes_ := fwd_sizes;
           workspace_bwd_data_sizes_ := bwd_data_sizes;
           workspace_bwd_filter_sizes_ := bwd_filter_sizes |}).

(** Lines 182-193: the running maxima
    [(total_workspace_fwd, total_workspace_bwd_data, total_workspace_bwd_filter)]. *)
Definition Reshape_reduce (p : AlgorithmPlan) (i : Z) (t : Z * Z * Z) :
    Res (Z * Z * Z) :=
  let '(total_workspace_fwd, total_workspace_bwd_data,
        total_workspace_bwd_filter) := t in
  fwd ← load (workspace_fwd_sizes_ p) i;
  bwd_data ← load (workspace_bwd_data_sizes_ p) i;
  bwd_filter ← load (workspace_bwd_filter_sizes_ p) i;
  mret (Z.max total_workspace_fwd fwd,
        Z.max total_workspace_bwd_data bwd_data,
        Z.max total_workspace_bwd_filter bwd_filter).

(** Lines 182-197: [max_workspace]. *)
Definition Reshape_max_workspace (n : Z) (p : AlgorithmPlan) : Res Z :=
  '(total_workspace_fwd, total_workspace_bwd_data,
    total_workspace_bwd_filter) ← for_loop n (Reshape_reduce p) (0, 0, 0);
  let max_workspace := Z.max total_workspace_fwd total_workspace_bwd_data in
  mret (Z.max max_workspace total_workspace_bwd_filter).

(** Lines 212-219 at index [i]: force the zero memory path. *)
Definition Reshape_zero_path (i : Z) (p : AlgorithmPlan) : Res AlgorithmPlan :=
  fwd_sizes ← store (workspace_fwd_sizes_ p) i 0;
  bwd_filter_sizes ← store (workspace_bwd_filter_sizes_ p) i 0;
  bwd_data_sizes ← store (workspace_bwd_data_sizes_ p) i 0;
  fwd ← store (fwd_algo_ p) i CUDNN_CONVOLUTION_FWD_ALGO_IMPLICIT_GEMM;
  bwd_filter ← store (bwd_filter_algo_ p) i CUDNN_CONVOLUTION_BWD_FILTER_ALGO_0;
  bwd_data ← store (bwd_data_algo_ p) i CUDNN_CONVOLUTION_BWD_DATA_ALGO_0;
  mret {| fwd_algo_ := fwd; bwd_filter_algo_ := bwd_filter;
          bwd_data_algo_ := bwd_data; workspace_fwd_sizes_ := fwd_sizes;
          workspace_bwd_data_sizes_ := bwd_data_sizes;
          workspace_bwd_filter_sizes_ := bwd_filter_sizes |}.

(** Lines 222-224: [workspace[g] = NULL]. *)
Definition Reshape_null_workspaces (workspace : list Z) : Res (list Z) :=
  for_loop CUDNN_STREAMS_DEPTHWISE (fun g ws => store ws g NULL) workspace.

(** Lines 231-233:
    [workspace[g] = reinterpret_cast<char*>(workspaceData) + g * max_workspace]. *)
Definition Reshape_alias_workspaces (workspaceData max_workspace : Z)
    (workspace : list Z) : Res (list Z) :=
  for_loop CUDNN_STREAMS_DEPTHWISE
    (fun g ws => store ws g (ptr_add workspaceData (size_mul g max_workspace)))
    workspace.

(** Lines 181-234, for [n = bottom.size()]: size the scratch pool and, when
    it has to grow, reallocate it. *)
Definition Reshape_workspace (n : Z) (st : AlgorithmPlan * ScratchPool) :
    M (AlgorithmPlan * ScratchPool) :=
  let '(p, sp) := st in
  max_workspace ← lift (Reshape_max_workspace n p);
  let total_max_workspace := size_mul max_workspace CUDNN_STREAMS_DEPTHWISE in
  if decide (total_max_workspace > workspaceSizeInBytes sp) then
    cudaFree (workspaceData sp);;
    err ← cudaMalloc_call be total_max_workspace;
    '(p', sp') ←
      match err with
      | Some ptr =>
          mret (p, {| workspaceSizeInBytes := total_max_workspace;
                      workspaceData := ptr; workspace := workspace sp |})
      | None =>
          p' ← lift (for_loop n Reshape_zero_path p);
          workspace' ← lift (Reshape_null_workspaces (workspace sp));
          mret (p', {| workspaceSizeInBytes := 0; workspaceData := NULL;
                       workspace := workspace' |})
      end;
    workspace' ← lift (Reshape_alias_workspaces (workspaceData sp') max_workspace
                         (workspace sp'));
    mret (p', {| workspaceSizeInBytes := workspaceSizeInBytes sp';
                 workspaceData := workspaceData sp';
                 workspace := workspace' |})
  else mret (p, sp).

Definition SPATIAL_MSG : string :=
  "CuDNNConvolution input must have 2 spatial axes (e.g., height and width). Use 'engine: CAFFE' for general ND convolution.".

Definition Reshape (l : Layer) (bottom top : list (list Z)) : M Layer :=
  '(b, top) ← lift (framework (DepthwiseLayer_Reshape fw (base l) bottom top));
  lift (CHECK_EQ 2 (num_spatial_axes_ b) SPATIAL_MSG);;
  bottom_offset ← lift (int_div (bottom_dim_ b) (group_ l));
  top_offset ← lift (int_div (top_dim_ b) (group_ l));
  bottom0 ← lift (load bottom 0);
  top0 ← lift (load top 0);
  height ← lift (framework (Blob_shape fw bottom0 (channel_axis_ b + 1)));
  width ← lift (framework (Blob_shape fw bottom0 (channel_axis_ b + 2)));
  height_out ← lift (framework (Blob_shape fw top0 (channel_axis_ b + 1)));
  width_out ← lift (framework (Blob_shape fw top0 (channel_axis_ b + 2)));
  pad_h ← lift (load (pad_ b) 0);
  pad_w ← lift (load (pad_ b) 1);
  stride_h ← lift (load (stride_ b) 0);
  stride_w ← lift (load (stride_ b) 1);
  let g := {| height := height; width := width; height_out := height_out;
              width_out := width_out; pad_h := pad_h; pad_w := pad_w;
              stride_h := stride_h; stride_w := stride_w |} in
  let n := Z.of_nat (length bottom) in
  '(d, p) ← lift (for_loop n (Reshape_bottom b (group_ l) (handle_ l) g)
                      (descs l, plan l));
  '(p, sp) ← Reshape_workspace n (p, pool l);
  bias_desc ← (if bias_term_ b
               then lift (setTensor4dDesc be (bias_desc_ d) 1 (num_output_ b) 1 1)
               else mret (bias_desc_ d));
  mret {| base := b; handles_setup_ := handles_setup_ l;
          handle_ := handle_ l; stream_ := stream_ l; plan := p;
          descs := {| bottom_descs_ := bottom_descs_ d;
                      top_descs_ := top_descs_ d; bias_desc_ := bias_desc;
                      filter_desc_ := filter_desc_ d;
                      conv_descs_ := conv_descs_ d |};
          group_ := group_ l; weight_offset_ := weight_offset_ l;
          bottom_offset_ := bottom_offset; top_offset_ := top_offset;
          pool := sp; caffe_weight_ := caffe_weight_ l; mask_ := mask_ l |}.

(** Lines 247-251 at index [i]. *)
Definition destroy_descs (d : Descriptors) (i : Z) (_ : unit) : M unit :=
  bottom_desc ← lift (load (bottom_descs_ d) i);
  runtime_release (TensorDescriptor (tensor_id bottom_desc));;
  top_desc ← lift (load (top_descs_ d) i);
  runtime_release (TensorDescriptor (tensor_id top_desc));;
  conv_desc ← lift (load (conv_descs_ d) i);
  runtime_release (ConvolutionDescriptor (conv_id conv_desc)).

(** Lines 257-260 at index [g]. *)
Definition destroy_stream (l : Layer) (g : Z) (_ : unit) : M unit :=
  s ← lift (load (stream_ l) g);
  runtime_release (CudaStream s);;
  h ← lift (load (handle_ l) g);
  runtime_release (CudnnHandle h).

(** [~CuDNNDepthwiseLayer()].  No member is assigned. *)
Definition destructor (l : Layer) : M unit :=
  if negb (handles_setup_ l) then mret tt
  else
    for_loopM (Z.of_nat (length (bottom_descs_ (descs l))))
      (destroy_descs (descs l)) tt;;
    (if bias_term_ (base l)
     then runtime_release (TensorDescriptor (tensor_id (bias_desc_ (descs l))))
     else mret tt);;
    runtime_release (FilterDescriptor (filter_id (filter_desc_ (descs l))));;
    for_loopM CUDNN_STREAMS_DEPTHWISE (destroy_stream l) tt;;
    cudaFree (workspaceData (pool l));;
    delete_array arr_workspace;;
    delete_array arr_stream_;;
    delete_array arr_handle_;;
    delete_array arr_fwd_algo_;;
    delete_array arr_bwd_filter_algo_;;
    delete_array arr_bwd_data_algo_;;
    delete_array arr_workspace_fwd_sizes_;;
    delete_array arr_workspace_bwd_data_sizes_;;
    delete_array arr_workspace_bwd_filter_sizes_.

(** Lines 285-287 at index [i]. *)
Definition ToProto_blob (blobs : list (Blob Dtype)) (write_diff : bool) (i : Z)
    (param : LayerParameter BlobProto) : Res (LayerParameter BlobProto) :=
  blob ← load blobs i;
  mret {| convolution_param_group := convolution_param_group param;
          param_blobs := param_blobs param ++ [Blob_ToProto fw blob write_diff] |}.

(** [ToProto(param, write_diff)]: what [*param] is on return, and the layer. *)
Definition ToProto (l : Layer) (write_diff : bool) :
    Res (LayerParameter BlobProto * Layer) :=
  (* param->Clear(); param->CopyFrom(layer_param_); param->clear_blobs(); *)
  let param :=
    {| convolution_param_group :=
         convolution_param_group (layer_param_ (base l));
       param_blobs := [] |} in
  if decide (Z.of_nat (length (blobs_ (base l))) > 0) then
    l' ← CuDNNToCaffe l;
    let param :=
      {| convolution_param_group := convolution_param_group param;
         param_blobs := param_blobs param
                        ++ [Blob_ToProto fw (caffe_weight_ l') write_diff] |} in
    param ← for_from 1 (Z.to_nat (Z.of_nat (length (blobs_ (base l'))) - 1))
              (ToProto_blob (blobs_ (base l')) write_diff) param;
    mret (param, l')
  else mret (param, l).
End LayerFunctions.

(** ** Specification vocabulary for the translators *)

(** The backend index of compact entry [(i, k)]: [idx_cudnn] at the channel
    slot [j = i / multiplier_ % channels_per_group]. *)
Definition backend_index (multiplier channels_per_group kernel_dim i k : Z) : Z :=
  idx_cudnn channels_per_group kernel_dim i
    (Z.rem (Z.quot i multiplier) channels_per_group) k.

(** The pair [(i', k')] is visited by the nested loops before [(i, k)]. *)
Definition visited_before (i k i' k' : Z) : Prop :=
  i' < i \/ (i' = i /\ k' < k).

(** [dst] is [dst0] in which, for every pair visited before [(i, k)], the
    value [src i' k'] has been written at the pair's backend index. *)
Definition scattered {A : Type} (multiplier channels_per_group kernel_dim n : Z)
    (src : Z -> Z -> Res A) (dst0 dst : list A) (i k : Z) : Prop :=
  length dst = length dst0 /\
  (forall i' k', 0 <= i' < n -> 0 <= k' < kernel_dim -> visited_before i k i' k' ->
     load dst (backend_index multiplier channels_per_group kernel_dim i' k')
     = src i' k') /\
  (forall p,
     (forall i' k', 0 <= i' < n -> 0 <= k' < kernel_dim -> visited_before i k i' k' ->
        p <> backend_index multiplier channels_per_group kernel_dim i' k') ->
     load dst p = load dst0 p).

(** The state of [BackendBuffers] once the loops of [CaffeToCuDNN] have visited
    every pair before [(i, k)], starting from the buffers [b0]. *)
Definition CaffeToCuDNN_invariant {Dtype : Type} `{Scalar Dtype}
    (multiplier channels_per_group kernel_dim n : Z)
    (caffe_data caffe_diff : list Dtype) (b0 : BackendBuffers Dtype)
    (i k : Z) (b : BackendBuffers Dtype) : Prop :=
  scattered multiplier channels_per_group kernel_dim n
    (fun i' k' => load caffe_data (idx_caffe kernel_dim i' k'))
    (cudnn_data b0) (cudnn_data b) i k /\
  scattered multiplier channels_per_group kernel_dim n
    (fun i' k' => load caffe_diff (idx_caffe kernel_dim i' k'))
    (cudnn_diff b0) (cudnn_diff b) i k /\
  scattered multiplier channels_per_group kernel_dim n
    (fun _ _ => Ok scalar_1) (mask_data b0) (mask_data b) i k.

Section LayerPredicates.
Context {Dtype BlobProto : Type}.
Local Abbreviation Layer := (CuDNNDepthwiseLayer Dtype BlobProto).

(** [this->channels_ / group_] when [group_] is not zero. *)
Definition channels_per_group (l : Layer) : Z :=
  Z.quot (channels_ (base l)) (group_ l).

(** Number of entries of GroupedWeight and of the mask: [N] in [CaffeToCuDNN]. *)
Definition grouped_count (l : Layer) : Z :=
  num_output_ (base l) * channels_per_group l * kernel_dim_ (base l).

(** Number of entries of CompactWeight. *)
Definition compact_count (l : Layer) : Z :=
  num_output_ (base l) * kernel_dim_ (base l).

(** Positive multiplier, channels per group and kernel size; the number of
    output channels is a count. *)
Definition valid_configuration (l : Layer) : Prop :=
  0 < multiplier_ (base l) /\ 0 < channels_per_group l /\
  0 < kernel_dim_ (base l) /\ 0 <= num_output_ (base l).

(** The buffers behind the pointers the translators take are large enough for
    the shapes [LayerSetUp] gave the three blobs. *)
Definition buffers_fit (l : Layer) : Prop :=
  match blobs_ (base l) with
  | [] => True
  | blob0 :: _ =>
      grouped_count l <= Z.of_nat (length (data_ blob0)) /\
      grouped_count l <= Z.of_nat (length (diff_ blob0)) /\
      grouped_count l <= Z.of_nat (length (data_ (mask_ l))) /\
      compact_count l <= Z.of_nat (length (data_ (caffe_weight_ l))) /\
      compact_count l <= Z.of_nat (length (diff_ (caffe_weight_ l)))
  end.

(** The backend index of compact entry [(i, k)] in the layer [l]. *)
Definition backend_index_of (l : Layer) (i k : Z) : Z :=
  backend_index (multiplier_ (base l)) (channels_per_group l)
    (kernel_dim_ (base l)) i k.
End LayerPredicates.

(** ** Specification vocabulary for the scratch pool *)

(** The six per-bottom arrays have an entry for each of the [n] bottoms. *)
Definition plan_fits (n : nat) (p : AlgorithmPlan) : Prop :=
  (n <= length (fwd_algo_ p))%nat /\
  (n <= length (bwd_filter_algo_ p))%nat /\
  (n <= length (bwd_data_algo_ p))%nat /\
  (n <= length (workspace_fwd_sizes_ p))%nat /\
  (n <= length (workspace_bwd_data_sizes_ p))%nat /\
  (n <= length (workspace_bwd_filter_sizes_ p))%nat.

Definition size_at (sizes : list Z) (i : nat) : Z := default 0 (sizes !! i).

(** The maximum of the forward, backward-data and backward-filter scratch
    sizes of bound input [i]. *)
Definition input_scratch (p : AlgorithmPlan) (i : nat) : Z :=
  Z.max (Z.max (size_at (workspace_fwd_sizes_ p) i)
               (size_at (workspace_bwd_data_sizes_ p) i))
        (size_at (workspace_bwd_filter_sizes_ p) i).

(** The maximum of [f 0 .. f (n - 1)]; sizes are unsigned, so it is 0 over no
    input. *)
Fixpoint max_over_inputs (f : nat -> Z) (n : nat) : Z :=
  match n with
  | O => 0
  | S k => Z.max (max_over_inputs f k) (f k)
  end.

(** The spec's [perStreamMax]: the maximum over all bound inputs of the
    maximum of that input's three scratch sizes. *)
Definition perStreamMax (n : nat) (p : AlgorithmPlan) : Z :=
  max_over_inputs (input_scratch p) n.

(** The zero memory path: each of the [n] bound inputs has its three scratch
    sizes at 0 and its three algorithms at the zero-workspace defaults. *)
Definition zero_memory_path (n : nat) (p : AlgorithmPlan) : Prop :=
  forall i, (i < n)%nat ->
    workspace_fwd_sizes_ p !! i = Some 0 /\
    workspace_bwd_filter_sizes_ p !! i = Some 0 /\
    workspace_bwd_data_sizes_ p !! i = Some 0 /\
    fwd_algo_ p !! i = Some CUDNN_CONVOLUTION_FWD_ALGO_IMPLICIT_GEMM /\
    bwd_filter_algo_ p !! i = Some CUDNN_CONVOLUTION_BWD_FILTER_ALGO_0 /\
    bwd_data_algo_ p !! i = Some CUDNN_CONVOLUTION_BWD_DATA_ALGO_0.

(** The world after [cudaFree(old)] and then [cudaMalloc] of [size] bytes,
    which answered [err]. *)
Definition reallocated (old size : Z) (err : option Z) (w : World) : World :=
  let freed :=
    if decide (old = NULL) then held w
    else filter (fun x => x <> DeviceMemory old) (held w) in
  {| held := match err with
             | Some ptr => DeviceMemory ptr :: freed
             | None => freed
             end;
     next_id := next_id w;
     malloc_requests := size :: malloc_requests w |}.

(** The pool sliced into [CUDNN_STREAMS_DEPTHWISE] regions of [region] bytes
    from [base]: the region pointer of each stream. *)
Definition sliced (base region : Z) : list Z :=
  [ptr_add base (0 * region); ptr_add base (1 * region); ptr_add base (2 * region)].

(** One [Reshape] as seen from the pool: no request and the pool is as it
    was; or one request, for strictly more than the pool holds, after which
    the pool has the requested size; or one such request that fails, after
    which the size is reset to 0. *)
Definition pool_step (be : Backend) (sp sp' : ScratchPool) (w w' : World) : Prop :=
  (malloc_requests w' = malloc_requests w /\ sp' = sp) \/
  (exists req,
     malloc_requests w' = req :: malloc_requests w /\
     workspaceSizeInBytes sp < req /\
     ((exists ptr, cudaMalloc be req = Some ptr /\
                   workspaceSizeInBytes sp' = req /\ workspaceData sp' = ptr) \/
      (cudaMalloc be req = None /\
       workspaceSizeInBytes sp' = 0 /\ workspaceData sp' = NULL))).

(** A call of [Reshape]: what the runtime answers during it, and the blobs. *)
Record ReshapeCall := {
  call_backend : Backend;
  call_bottom : list (list Z);
  call_top : list (list Z)
}.

Section Runs.
Context {Dtype BlobProto : Type} `{Scalar Dtype}.
Variable fw : Framework Dtype BlobProto.
Local Abbreviation Layer := (CuDNNDepthwiseLayer Dtype BlobProto).

(** Successive calls of [Reshape]; the layer and the world after each. *)
Fixpoint Reshape_run (calls : list ReshapeCall) (l : Layer) (w : World) :
    Res (list (Layer * World)) :=
  match calls with
  | [] => Ok []
  | c :: calls' =>
      '(l', w') ← Reshape fw (call_backend c) l (call_bottom c) (call_top c) w;
      rest ← Reshape_run calls' l' w';
      mret ((l', w') :: rest)
  end.

(** Every call of the run is a [pool_step]. *)
Fixpoint grow_only (calls : list ReshapeCall) (l : Layer) (w : World)
    (states : list (Layer * World)) : Prop :=
  match calls, states with
  | [], [] => True
  | c :: calls', (l', w') :: states' =>
      pool_step (call_backend c) (pool l) (pool l') w w' /\
      grow_only calls' l' w' states'
  | _, _ => False
  end.

(** The pool sizes along a run. *)
Definition pool_sizes (l : Layer) (states : list (Layer * World)) : list Z :=
  workspaceSizeInBytes (pool l)
  :: map (fun s => workspaceSizeInBytes (pool (fst s))) states.
End Runs.

(** ** Specification vocabulary for serialisation and teardown *)

(** The layer with another mask. *)
Definition set_mask_ {Dtype BlobProto : Type}
    (l : CuDNNDepthwiseLayer Dtype BlobProto) (m : Blob Dtype) :
    CuDNNDepthwiseLayer Dtype BlobProto :=
  {| base := base l; handles_setup_ := handles_setup_ l; handle_ := handle_ l;
     stream_ := stream_ l; plan := plan l; descs := descs l; group_ := group_ l;
     weight_offset_ := weight_offset_ l; bottom_offset_ := bottom_offset_ l;
     top_offset_ := top_offset_ l; pool := pool l;
     caffe_weight_ := caffe_weight_ l; mask_ := m |}.

(** A run of [c] that starts without [r] ends without [r]. *)
Definition keeps_released {A} (r : Resource) (c : M A) : Prop :=
  forall w a w', c w = Ok (a, w') -> r ∉ held w -> r ∉ held w'.

(** A run of [c] that returns ends without [r]. *)
Definition releases {A} (r : Resource) (c : M A) : Prop :=
  forall w a w', c w = Ok (a, w') -> r ∉ held w'.

(** A run of [c] that starts without [r] does not return. *)
Definition needs {A} (r : Resource) (c : M A) : Prop :=
  forall w a w', r ∉ held w -> c w <> Ok (a, w').

(** A run of [c] fails by undefined behaviour only. *)
Definition only_undefined {A} (c : M A) : Prop :=
  forall w f, c w = Fail f -> f = UndefinedBehavior.

(** ** Specification vocabulary for the configuration checks *)

(** The computation does not end in a failed [CHECK_EQ] of this file. *)
Definition no_check {A} (r : Res A) : Prop :=
  forall msg, r <> Fail (CheckFailed msg).

Definition no_checkM {A} (c : M A) : Prop :=
  forall w, no_check (c w).

(** ** A concrete layer

    The scalars are IEEE-754 single-precision bit patterns.  The layer has 4
    input channels in one group, multiplier 2, 8 output channels and a kernel
    of 2 entries, so 4 channels per group; its compact weight has 16 entries
    and its grouped weight 64. *)

#[global] Instance float_bits : Scalar Z :=
  {| scalar_0 := 0x00000000; scalar_1 := 0x3f800000 |}.

Definition example_base_with (group num_spatial_axes : Z)
    (blob0 : Blob Z) : DepthwiseLayer Z (list Z) :=
  {| layer_param_ := {| convolution_param_group := group; param_blobs := [] |};
     blobs_ := [ blob0;
                 {| shape_ := [8]; data_ := seqZ 300 8; diff_ := seqZ 400 8 |} ];
     bias_term_ := true;
     channels_ := 4; num_output_ := 8; multiplier_ := 2; kernel_dim_ := 2;
     num_spatial_axes_ := num_spatial_axes; channel_axis_ := 1; num_ := 1;
     bottom_dim_ := 64; top_dim_ := 128; out_spatial_dim_ := 16;
     kernel_shape_ := [1; 2]; pad_ := [0; 0]; stride_ := [1; 1] |}.

Definition example_base : DepthwiseLayer Z (list Z) :=
  example_base_with 1 2
    {| shape_ := [8; 4; 1; 2]; data_ := replicate 64 7; diff_ := replicate 64 9 |}.

Definition example_layer : CuDNNDepthwiseLayer Z (list Z) :=
  {| base := example_base;
     handles_setup_ := true;
     handle_ := [1; 3; 5]%nat; stream_ := [0; 2; 4]%nat;
     plan := {| fwd_algo_ := [0]; bwd_filter_algo_ := [0]; bwd_data_algo_ := [0];
                workspace_fwd_sizes_ := [0]; workspace_bwd_data_sizes_ := [0];
                workspace_bwd_filter_sizes_ := [0] |};
     descs := {| bottom_descs_ := [ {| tensor_id := 7%nat; tensor_nchw := None;
                                       tensor_strides := None |} ];
                 top_descs_ := [ {| tensor_id := 8%nat; tensor_nchw := None;
                                    tensor_strides := None |} ];
                 bias_desc_ := {| tensor_id := 10%nat; tensor_nchw := None;
                                  tensor_strides := None |};
                 filter_desc_ := {| filter_id := 6%nat;
                                    filter_kchw := Some (8, 4, 1, 2) |};
                 conv_descs_ := [ {| conv_id := 9%nat; conv_pad_stride := None |} ] |};
     group_ := 1; weight_offset_ := 64; bottom_offset_ := 0; top_offset_ := 0;
     pool := {| workspaceSizeInBytes := 0; workspaceData := NULL;
                workspace := [NULL; NULL; NULL] |};
     caffe_weight_ := {| shape_ := [8; 1; 1; 2]; data_ := seqZ 100 16;
                         diff_ := seqZ 200 16 |};
     mask_ := {| shape_ := [8; 4; 1; 2]; data_ := replicate 64 5;
                 diff_ := replicate 64 0 |} |}.

(** A framework for the concrete layer: the base class has nothing left to
    do, a blob is copied and reshaped whole, and its serialised form is its
    data followed, on request, by its gradient. *)
Definition example_framework : Framework Z (list Z) :=
  {| DepthwiseLayer_LayerSetUp := fun b _ _ => Some b;
     DepthwiseLayer_Reshape := fun b _ top => Some (b, top);
     Blob_shape := fun shape index =>
       if decide (0 <= index) then shape !! Z.to_nat index else None;
     Blob_CopyFrom := fun dst src copy_diff _ =>
       Some (if copy_diff
             then {| shape_ := shape_ src; data_ := data_ dst; diff_ := diff_ src |}
             else {| shape_ := shape_ src; data_ := data_ src;
                     diff_ := resize (length (data_ src)) 0 (diff_ dst) |});
     Blob_Reshape := fun b shape =>
       let count := Z.to_nat (foldr Z.mul 1 shape) in
       Some {| shape_ := shape; data_ := resize count 0 (data_ b);
               diff_ := resize count 0 (diff_ b) |};
     Blob_ToProto := fun b write_diff =>
       data_ b ++ (if write_diff then diff_ b else []) |}.

(** A runtime in which every call succeeds, every query picks algorithm 1 and
    reports the scratch sizes [fwd], [bwd_filter], [bwd_data], and
    [cudaMalloc] answers [malloc]. *)
Definition example_backend (fwd bwd_filter bwd_data : Z)
    (malloc : Z -> option Z) : Backend :=
  {| call_succeeds := fun _ => true;
     cudnnGetConvolutionForwardAlgorithm := fun _ _ _ _ _ => Some 1;
     cudnnGetConvolutionForwardWorkspaceSize := fun _ _ _ _ _ => Some fwd;
     cudnnGetConvolutionBackwardFilterAlgorithm := fun _ _ _ _ _ => Some 1;
     cudnnGetConvolutionBackwardFilterWorkspaceSize :=
       fun _ _ _ _ _ => Some bwd_filter;
     cudnnGetConvolutionBackwardDataAlgorithm := fun _ _ _ _ _ => Some 1;
     cudnnGetConvolutionBackwardDataWorkspaceSize :=
       fun _ _ _ _ _ => Some bwd_data;
     cudaMalloc := malloc |}.

(** The device is out of memory. *)
Definition backend_no_memory : Backend :=
  example_backend 16 8 4 (fun _ => None).

(** The device has memory at address 4096. *)
Definition backend_with_memory (fwd : Z) : Backend :=
  example_backend fwd 8 4 (fun _ => Some 4096).

(** What the process holds once [LayerSetUp] has made the concrete layer. *)
Definition example_world : World :=
  {| held := [ TensorDescriptor 10; ConvolutionDescriptor 9; TensorDescriptor 8;
               TensorDescriptor 7; FilterDescriptor 6;
               CudnnHandle 5; CudaStream 4; CudnnHandle 3; CudaStream 2;
               CudnnHandle 1; CudaStream 0;
               HostArray arr_workspace;
               HostArray arr_workspace_bwd_data_sizes_;
               HostArray arr_workspace_bwd_filter_sizes_;
               HostArray arr_workspace_fwd_sizes_;
               HostArray arr_bwd_data_algo_; HostArray arr_bwd_filter_algo_;
               HostArray arr_fwd_algo_; HostArray arr_handle_;
               HostArray arr_stream_ ];
     next_id := 11;
     malloc_requests := [] |}.

(** The bottom and top blobs of the concrete layer. *)
Definition example_bottom : list (list Z) := [[1; 4; 4; 4]].
Definition example_top : list (list Z) := [[1; 8; 4; 4]].

(** The layer before [LayerSetUp], for a group count and a number of spatial
    axes: the compact weight is in [blobs_[0]]; nothing is held. *)
Definition fresh_layer_with (group num_spatial_axes : Z) :
    CuDNNDepthwiseLayer Z (list Z) :=
  {| base := example_base_with group num_spatial_axes
       {| shape_ := [8; 1; 1; 2]; data_ := seqZ 100 16; diff_ := seqZ 200 16 |};
     handles_setup_ := false;
     handle_ := []; stream_ := [];
     plan := {| fwd_algo_ := []; bwd_filter_algo_ := []; bwd_data_algo_ := [];
                workspace_fwd_sizes_ := []; workspace_bwd_data_sizes_ := [];
                workspace_bwd_filter_sizes_ := [] |};
     descs := {| bottom_descs_ := []; top_descs_ := [];
                 bias_desc_ := {| tensor_id := 0%nat; tensor_nchw := None;
                                  tensor_strides := None |};
                 filter_desc_ := {| filter_id := 0%nat; filter_kchw := None |};
                 conv_descs_ := [] |};
     group_ := 0; weight_offset_ := 0; bottom_offset_ := 0; top_offset_ := 0;
     pool := {| workspaceSizeInBytes := 0; workspaceData := NULL;
                workspace := [] |};
     caffe_weight_ := {| shape_ := []; data_ := []; diff_ := [] |};
     mask_ := {| shape_ := []; data_ := []; diff_ := [] |} |}.

Definition fresh_layer : CuDNNDepthwiseLayer Z (list Z) := fresh_layer_with 1 2.

Definition fresh_world : World :=
  {| held := []; next_id := 0; malloc_requests := [] |}.

(** The device has no memory for a plan that needs 32 bytes per stream. *)
Definition backend_no_memory_32 : Backend :=
  example_backend 32 8 4 (fun _ => None).

(** Three calls of [Reshape]: the pool grows to 48 bytes; a plan that needs
    less leaves it alone; a plan that needs more finds no memory. *)
Definition example_calls : list ReshapeCall :=
  [ {| call_backend := backend_with_memory 16; call_bottom := example_bottom;
       call_top := example_top |};
    {| call_backend := backend_with_memory 2; call_bottom := example_bottom;
       call_top := example_top |};
    {| call_backend := backend_no_memory_32; call_bottom := example_bottom;
       call_top := example_top |} ].

(** ** Specification vocabulary for the further properties *)

(** [dst] is [dst0] in which, for every pair visited before [(i, k)], the
    value [src i' k'] has been written at the pair's compact index. *)
Definition gathered {A : Type} (kernel_dim n : Z)
    (src : Z -> Z -> Res A) (dst0 dst : list A) (i k : Z) : Prop :=
  length dst = length dst0 /\
  (forall i' k', 0 <= i' < n -> 0 <= k' < kernel_dim -> visited_before i k i' k' ->
     load dst (idx_caffe kernel_dim i' k') = src i' k') /\
  (forall p,
     (forall i' k', 0 <= i' < n -> 0 <= k' < kernel_dim -> visited_before i k i' k' ->
        p <> idx_caffe kernel_dim i' k') ->
     load dst p = load dst0 p).

(** The layer with another grouped weight in [blobs_[0]]. *)
Definition set_grouped_ {Dtype BlobProto : Type}
    (l : CuDNNDepthwiseLayer Dtype BlobProto) (grouped : Blob Dtype) :
    CuDNNDepthwiseLayer Dtype BlobProto :=
  {| base := set_blobs_ (base l) (grouped :: tail (blobs_ (base l)));
     handles_setup_ := handles_setup_ l; handle_ := handle_ l;
     stream_ := stream_ l; plan := plan l; descs := descs l; group_ := group_ l;
     weight_offset_ := weight_offset_ l; bottom_offset_ := bottom_offset_ l;
     top_offset_ := top_offset_ l; pool := pool l;
     caffe_weight_ := caffe_weight_ l; mask_ := mask_ l |}.

(** [idx] is the backend index of a compact entry of the layer. *)
Definition is_backend_index {Dtype BlobProto : Type}
    (l : CuDNNDepthwiseLayer Dtype BlobProto) (idx : Z) : Prop :=
  exists i k,
    0 <= i < num_output_ (base l) /\ 0 <= k < kernel_dim_ (base l) /\
    idx = backend_index_of l i k.

(** The backend indices of the layer, in the order the loops form them. *)
Definition backend_indices {Dtype BlobProto : Type}
    (l : CuDNNDepthwiseLayer Dtype BlobProto) : list Z :=
  i ← seqZ 0 (num_output_ (base l));
  k ← seqZ 0 (kernel_dim_ (base l));
  [backend_index_of l i k].

(** The positions below [N] that are the backend index of no compact entry. *)
Definition off_index_positions {Dtype BlobProto : Type}
    (l : CuDNNDepthwiseLayer Dtype BlobProto) : list Z :=
  filter (fun idx => idx ∉ backend_indices l) (seqZ 0 (grouped_count l)).

(** The grouped weight is zero wherever no compact entry lands. *)
Definition zero_off_index {Dtype BlobProto : Type} `{Scalar Dtype}
    (l : CuDNNDepthwiseLayer Dtype BlobProto) (grouped : Blob Dtype) : Prop :=
  Forall (fun idx => load (data_ grouped) idx = Ok scalar_0 /\
                     load (diff_ grouped) idx = Ok scalar_0)
         (off_index_positions l).

(** The concrete layer once [CaffeToCuDNN] has run on it. *)
Definition example_grouped_layer : CuDNNDepthwiseLayer Z (list Z) :=
  Eval vm_compute in
    match CaffeToCuDNN example_layer with
    | Ok l => l
    | Fail _ => example_layer
    end.

(** A pure depthwise layer: 4 input channels in 4 groups, so one channel per
    group; 8 output channels and kernels of 2 entries, so compact and grouped
    weight have 16 entries each. *)
Definition example_depthwise_layer : CuDNNDepthwiseLayer Z (list Z) :=
  {| base := example_base_with 4 2
       {| shape_ := [8; 1; 1; 2]; data_ := replicate 16 7;
          diff_ := replicate 16 9 |};
     handles_setup_ := true;
     handle_ := handle_ example_layer; stream_ := stream_ example_layer;
     plan := plan example_layer; descs := descs example_layer;
     group_ := 4; weight_offset_ := 4; bottom_offset_ := 0; top_offset_ := 0;
     pool := pool example_layer;
     caffe_weight_ := caffe_weight_ example_layer;
     mask_ := {| shape_ := [8; 1; 1; 2]; data_ := replicate 16 5;
                 diff_ := replicate 16 0 |} |}.

(** A grouped weight that differs from the one of the concrete layer at
    position 2, which is the backend index of no compact entry. *)
Definition example_other_grouped : Blob Z :=
  {| shape_ := [8; 4; 1; 2]; data_ := <[2%nat := 99]> (replicate 64 7);
     diff_ := <[2%nat := 98]> (replicate 64 9) |}.

(** ** Specification vocabulary for setup and reshape *)

(** The runtime handles behind the descriptor members. *)
Definition descriptor_ids (d : Descriptors) :
    list nat * list nat * nat * nat * list nat :=
  (map tensor_id (bottom_descs_ d), map tensor_id (top_descs_ d),
   tensor_id (bias_desc_ d), filter_id (filter_desc_ d),
   map conv_id (conv_descs_ d)).

(** The sizes of the six per-bottom arrays. *)
Definition plan_lengths (p : AlgorithmPlan) : list nat :=
  [length (fwd_algo_ p); length (bwd_filter_algo_ p); length (bwd_data_algo_ p);
   length (workspace_fwd_sizes_ p); length (workspace_bwd_data_sizes_ p);
   length (workspace_bwd_filter_sizes_ p)].

(** The descriptors of bound input [i] as lines 137-146 set them. *)
Definition bottom_desc_set {Dtype BlobProto : Type}
    (b : DepthwiseLayer Dtype BlobProto) (group : Z) (g : ReshapeGeometry)
    (t : cudnnTensorDescriptor_t) : cudnnTensorDescriptor_t :=
  {| tensor_id := tensor_id t;
     tensor_nchw := Some (num_ b, Z.quot (channels_ b) group, height g, width g);
     tensor_strides := Some (channels_ b * height g * width g,
                             height g * width g, width g, 1) |}.

Definition top_desc_set {Dtype BlobProto : Type}
    (b : DepthwiseLayer Dtype BlobProto) (group : Z) (g : ReshapeGeometry)
    (t : cudnnTensorDescriptor_t) : cudnnTensorDescriptor_t :=
  {| tensor_id := tensor_id t;
     tensor_nchw := Some (num_ b, Z.quot (num_output_ b) group,
                          height_out g, width_out g);
     tensor_strides := Some (num_output_ b * out_spatial_dim_ b,
                             out_spatial_dim_ b, width_out g, 1) |}.

Definition conv_desc_set (g : ReshapeGeometry)
    (c : cudnnConvolutionDescriptor_t) : cudnnConvolutionDescriptor_t :=
  {| conv_id := conv_id c;
     conv_pad_stride := Some (pad_h g, pad_w g, stride_h g, stride_w g) |}.

(** Bound input [i] has the descriptors the runtime gave out for it in [d0],
    with the per-group geometry set on them. *)
Definition described {Dtype BlobProto : Type}
    (b : DepthwiseLayer Dtype BlobProto) (group : Z) (g : ReshapeGeometry)
    (d0 d : Descriptors) (i : nat) : Prop :=
  bottom_descs_ d !! i = bottom_desc_set b group g <$> bottom_descs_ d0 !! i /\
  top_descs_ d !! i = top_desc_set b group g <$> top_descs_ d0 !! i /\
  conv_descs_ d !! i = conv_desc_set g <$> conv_descs_ d0 !! i /\
  is_Some (bottom_descs_ d !! i) /\ is_Some (top_descs_ d !! i) /\
  is_Some (conv_descs_ d !! i).

(** The plan entry of bound input [i] is what the backend answers for the
    descriptors of that input: each algorithm is the backend's choice under
    the workspace limit, each scratch size is the one the backend reports for
    the algorithm chosen. *)
Definition planned (be : Backend) (d : Descriptors) (p : AlgorithmPlan)
    (i : nat) : Prop :=
  exists bottom_desc top_desc conv_desc fwd fwd_size bwd_filter bwd_filter_size
         bwd_data bwd_data_size,
    bottom_descs_ d !! i = Some bottom_desc /\
    top_descs_ d !! i = Some top_desc /\
    conv_descs_ d !! i = Some conv_desc /\
    fwd_algo_ p !! i = Some fwd /\
    bwd_filter_algo_ p !! i = Some bwd_filter /\
    bwd_data_algo_ p !! i = Some bwd_data /\
    workspace_fwd_sizes_ p !! i = Some fwd_size /\
    workspace_bwd_filter_sizes_ p !! i = Some bwd_filter_size /\
    workspace_bwd_data_sizes_ p !! i = Some bwd_data_size /\
    cudnnGetConvolutionForwardAlgorithm be bottom_desc (filter_desc_ d)
      conv_desc top_desc workspace_limit_bytes = Some fwd /\
    cudnnGetConvolutionForwardWorkspaceSize be bottom_desc (filter_desc_ d)
      conv_desc top_desc fwd = Some fwd_size /\
    cudnnGetConvolutionBackwardFilterAlgorithm be bottom_desc top_desc
      conv_desc (filter_desc_ d) workspace_limit_bytes = Some bwd_filter /\
    cudnnGetConvolutionBackwardFilterWorkspaceSize be bottom_desc top_desc
      conv_desc (filter_desc_ d) bwd_filter = Some bwd_filter_size /\
    cudnnGetConvolutionBackwardDataAlgorithm be (filter_desc_ d) top_desc
      conv_desc bottom_desc workspace_limit_bytes = Some bwd_data /\
    cudnnGetConvolutionBackwardDataWorkspaceSize be (filter_desc_ d) top_desc
      conv_desc bottom_desc bwd_data = Some bwd_data_size.

(** The invariant of the loop of lines 136-179, started on [d0] and [p0]:
    the first [i] inputs are described and planned, the others are as they
    were; the handles behind the descriptors and the sizes of all arrays are
    those the loop found. *)
Definition Reshape_bottoms_invariant {Dtype BlobProto : Type} (be : Backend)
    (b : DepthwiseLayer Dtype BlobProto) (group : Z) (g : ReshapeGeometry)
    (d0 : Descriptors) (p0 : AlgorithmPlan)
    (i : Z) (st : Descriptors * AlgorithmPlan) : Prop :=
  descriptor_ids (fst st) = descriptor_ids d0 /\
  bias_desc_ (fst st) = bias_desc_ d0 /\
  filter_desc_ (fst st) = filter_desc_ d0 /\
  plan_lengths (snd st) = plan_lengths p0 /\
  (forall j, (Z.to_nat i <= j)%nat ->
     bottom_descs_ (fst st) !! j = bottom_descs_ d0 !! j /\
     top_descs_ (fst st) !! j = top_descs_ d0 !! j /\
     conv_descs_ (fst st) !! j = conv_descs_ d0 !! j) /\
  (forall j, (j < Z.to_nat i)%nat ->
     described b group g d0 (fst st) j /\ planned be (fst st) (snd st) j).

(** ** Specification vocabulary for the resources of a layer *)

(** The runtime objects behind the descriptors of bound input [i]. *)
Definition input_resources (d : Descriptors) (i : nat) : list Resource :=
  match bottom_descs_ d !! i, top_descs_ d !! i, conv_descs_ d !! i with
  | Some bottom_desc, Some top_desc, Some conv_desc =>
      [TensorDescriptor (tensor_id bottom_desc);
       TensorDescriptor (tensor_id top_desc);
       ConvolutionDescriptor (conv_id conv_desc)]
  | _, _, _ => []
  end.

(** The stream and the handle at index [g]. *)
Definition stream_resources {Dtype BlobProto : Type}
    (l : CuDNNDepthwiseLayer Dtype BlobProto) (g : nat) : list Resource :=
  match stream_ l !! g, handle_ l !! g with
  | Some s, Some h => [CudaStream s; CudnnHandle h]
  | _, _ => []
  end.

(** The nine arrays of [LayerSetUp], in the order the destructor deletes
    them. *)
Definition host_arrays : list Resource :=
  [HostArray arr_workspace; HostArray arr_stream_; HostArray arr_handle_;
   HostArray arr_fwd_algo_; HostArray arr_bwd_filter_algo_;
   HostArray arr_bwd_data_algo_; HostArray arr_workspace_fwd_sizes_;
   HostArray arr_workspace_bwd_data_sizes_;
   HostArray arr_workspace_bwd_filter_sizes_].

(** What the layer owns in the runtime: the descriptors of every bound
    input, the bias descriptor when there is a bias term, the filter
    descriptor, the streams and handles, the pool when it is not null. *)
Definition runtime_owned {Dtype BlobProto : Type}
    (l : CuDNNDepthwiseLayer Dtype BlobProto) : list Resource :=
  (i ← seq 0 (length (bottom_descs_ (descs l))); input_resources (descs l) i)
  ++ (if bias_term_ (base l)
      then [TensorDescriptor (tensor_id (bias_desc_ (descs l)))] else [])
  ++ [FilterDescriptor (filter_id (filter_desc_ (descs l)))]
  ++ (g ← seq 0 (Z.to_nat CUDNN_STREAMS_DEPTHWISE); stream_resources l g)
  ++ (if decide (workspaceData (pool l) = NULL) then []
      else [DeviceMemory (workspaceData (pool l))]).

(** What the layer owns: the runtime objects and the nine arrays. *)
Definition owned {Dtype BlobProto : Type}
    (l : CuDNNDepthwiseLayer Dtype BlobProto) : list Resource :=
  runtime_owned l ++ host_arrays.

(** The world once every resource of [rs] has been released. *)
Definition release_all (rs : list Resource) (w : World) : World :=
  {| held := filter (fun r => r ∉ rs) (held w); next_id := next_id w;
     malloc_requests := malloc_requests w |}.

(** The three descriptor vectors have an entry per bound input. *)
Definition descriptors_aligned (d : Descriptors) : Prop :=
  length (top_descs_ d) = length (bottom_descs_ d) /\
  length (conv_descs_ d) = length (bottom_descs_ d).

(** ** Specification vocabulary for setup *)

(** The plan of [n] bound inputs with every algorithm at the default and
    every scratch size at 0 (lines 54-63). *)
Definition zero_plan (n : nat) : AlgorithmPlan :=
  {| fwd_algo_ := replicate n 0; bwd_filter_algo_ := replicate n 0;
     bwd_data_algo_ := replicate n 0; workspace_fwd_sizes_ := replicate n 0;
     workspace_bwd_data_sizes_ := replicate n 0;
     workspace_bwd_filter_sizes_ := replicate n 0 |}.

(** The pool as lines 50-52 and 69 leave it. *)
Definition empty_pool : ScratchPool :=
  {| workspaceSizeInBytes := 0; workspaceData := NULL;
     workspace := [NULL; NULL; NULL] |}.

(** A tensor descriptor on which nothing has been set. *)
Definition fresh_tensor (id : nat) : cudnnTensorDescriptor_t :=
  {| tensor_id := id; tensor_nchw := None; tensor_strides := None |}.

(** The runtime objects behind three descriptor vectors. *)
Definition descriptor_resources (bottoms tops : list cudnnTensorDescriptor_t)
    (convs : list cudnnConvolutionDescriptor_t) : list Resource :=
  map (fun x => TensorDescriptor (tensor_id x)) bottoms
  ++ map (fun x => TensorDescriptor (tensor_id x)) tops
  ++ map (fun x => ConvolutionDescriptor (conv_id x)) convs.

(** What [LayerSetUp] acquires before its loop over the bottoms, in a world
    whose next handle is [k]: the nine arrays, three streams and handles,
    and the filter descriptor; latest first. *)
Definition setup_resources (k : nat) : list Resource :=
  [FilterDescriptor (6 + k); CudnnHandle (5 + k); CudaStream (4 + k);
   CudnnHandle (3 + k); CudaStream (2 + k); CudnnHandle (1 + k); CudaStream k;
   HostArray arr_workspace; HostArray arr_workspace_bwd_data_sizes_;
   HostArray arr_workspace_bwd_filter_sizes_; HostArray arr_workspace_fwd_sizes_;
   HostArray arr_bwd_data_algo_; HostArray arr_bwd_filter_algo_;
   HostArray arr_fwd_algo_; HostArray arr_handle_; HostArray arr_stream_].

(** The layer with the setup flag raised (line 108). *)
Definition set_handles_setup_ {Dtype BlobProto : Type}
    (l : CuDNNDepthwiseLayer Dtype BlobProto) :
    CuDNNDepthwiseLayer Dtype BlobProto :=
  {| base := base l; handles_setup_ := true;
     handle_ := handle_ l; stream_ := stream_ l; plan := plan l;
     descs := descs l; group_ := group_ l;
     weight_offset_ := weight_offset_ l;
     bottom_offset_ := bottom_offset_ l; top_offset_ := top_offset_ l;
     pool := pool l; caffe_weight_ := caffe_weight_ l;
     mask_ := mask_ l |}.

(** A computation without the runtime fails by undefined behaviour only. *)
Definition undefined_only {A} (r : Res A) : Prop :=
  forall f, r = Fail f -> f = UndefinedBehavior.

(** ** Specification vocabulary for the life of a layer *)

(** The destructor can run: the layer is set up, its descriptor vectors are
    aligned, it has three streams and handles, and the nine arrays are
    held. *)
Definition teardown_ready {Dtype BlobProto : Type}
    (l : CuDNNDepthwiseLayer Dtype BlobProto) (w : World) : Prop :=
  handles_setup_ l = true /\ descriptors_aligned (descs l) /\
  length (stream_ l) = 3%nat /\ length (handle_ l) = 3%nat /\
  forall r, r ∈ host_arrays -> r ∈ held w.

(** Whatever is held was held in [w0] or is owned by the layer. *)
Definition nothing_leaked {Dtype BlobProto : Type} (w0 : World)
    (l : CuDNNDepthwiseLayer Dtype BlobProto) (w : World) : Prop :=
  forall r, r ∈ held w -> r ∈ held w0 \/ r ∈ owned l.

(** The base class keeps the bias term across [Reshape]. *)
Definition keeps_bias_term {Dtype BlobProto : Type}
    (fw : Framework Dtype BlobProto) : Prop :=
  forall b bottom top b' top',
    DepthwiseLayer_Reshape fw b bottom top = Some (b', top') ->
    bias_term_ b' = bias_term_ b.

(** A successful [cudaMalloc] never answers the null pointer. *)
Definition malloc_not_null (be : Backend) : Prop :=
  forall size, cudaMalloc be size <> Some NULL.

(** The state a run of [Reshape] calls ends in. *)
Definition final_state {Dtype BlobProto : Type}
    (l : CuDNNDepthwiseLayer Dtype BlobProto) (w : World)
    (states : list (CuDNNDepthwiseLayer Dtype BlobProto * World)) :
    CuDNNDepthwiseLayer Dtype BlobProto * World :=
  default (l, w) (last states).

(* ===================================================================== *)
(** * Properties *)
(* ===================================================================== *)

(** ** The outcome monad *)

Lemma bind_Ok {A B} (a : A) (k : A -> Res B) : (Ok a ≫= k) = k a.
Proof. reflexivity. Qed.

Lemma bind_Ok_inv {A B} (c : Res A) (k : A -> Res B) (b : B) :
  c ≫= k = Ok b -> exists a, c = Ok a /\ k a = Ok b.
Proof. destruct c as [a|f]; [eauto | discriminate]. Qed.

Ltac ok_step :=
  match goal with
  | H : _ ≫= _ = Ok _ |- _ =>
      let a := fresh "a" in
      let Ha := fresh "Ha" in
      apply bind_Ok_inv in H; destruct H as (a & Ha & H)
  | H : mret _ = Ok _ |- _ => injection H as H
  | H : Ok _ = Ok _ |- _ => injection H as H
  end.

(** ** Loops: an invariant that every iteration re-establishes holds at exit,
    and the loop returns. *)

Lemma for_from_invariant {St} (I : Z -> St -> Prop) (body : Z -> St -> Res St)
    (count : nat) (i : Z) (s : St) :
  I i s ->
  (forall j t, i <= j < i + Z.of_nat count -> I j t ->
     exists t', body j t = Ok t' /\ I (j + 1) t') ->
  exists s', for_from i count body s = Ok s' /\ I (i + Z.of_nat count) s'.
Proof.
  revert i s. induction count as [|c IH]; intros i s Hi Hstep.
  - exists s. split; [reflexivity|]. now replace (i + Z.of_nat 0) with i by lia.
  - destruct (Hstep i s) as (t & Ht & HI); [lia | assumption |].
    destruct (IH (i + 1) t HI) as (s' & Hs' & HI').
    + intros j u Hj. apply Hstep. lia.
    + exists s'. split.
      * cbn [for_from]. rewrite Ht. exact Hs'.
      * now replace (i + Z.of_nat (S c)) with (i + 1 + Z.of_nat c) by lia.
Qed.

Lemma for_loop_invariant {St} (I : Z -> St -> Prop) (body : Z -> St -> Res St)
    (n : Z) (s : St) :
  0 <= n ->
  I 0 s ->
  (forall j t, 0 <= j < n -> I j t -> exists t', body j t = Ok t' /\ I (j + 1) t') ->
  exists s', for_loop n body s = Ok s' /\ I n s'.
Proof.
  intros Hn H0 Hstep.
  destruct (for_from_invariant I body (Z.to_nat n) 0 s H0) as (s' & Hs & HI).
  - intros j t Hj. apply Hstep. lia.
  - exists s'. split; [exact Hs|]. now replace n with (0 + Z.of_nat (Z.to_nat n)) by lia.
Qed.

(** ** Raw buffers *)

Section BufferFacts.
Context {A : Type}.
Implicit Types (p : list A) (v : A).

Lemma store_Ok p idx v :
  0 <= idx < Z.of_nat (length p) -> store p idx v = Ok (<[Z.to_nat idx := v]> p).
Proof. intros Hi. unfold store. now rewrite decide_True. Qed.

Lemma store_inv p p' idx v :
  store p idx v = Ok p' ->
  0 <= idx < Z.of_nat (length p) /\ p' = <[Z.to_nat idx := v]> p.
Proof. unfold store. case_decide; [|discriminate]. intros [= <-]. auto. Qed.

Lemma store_length p p' idx v : store p idx v = Ok p' -> length p' = length p.
Proof. intros (_ & ->)%store_inv. apply length_insert. Qed.

Lemma load_Ok_iff p idx v :
  load p idx = Ok v <-> 0 <= idx /\ p !! Z.to_nat idx = Some v.
Proof.
  unfold load. case_decide.
  - destruct (p !! Z.to_nat idx) eqn:E; split; intros; try discriminate.
    + split; [lia | congruence].
    + destruct H0 as [_ H0]. congruence.
    + destruct H0 as [_ H0]. discriminate.
  - split; [discriminate | lia].
Qed.

Lemma load_in_range p idx :
  0 <= idx < Z.of_nat (length p) -> exists v, load p idx = Ok v.
Proof.
  intros Hi. destruct (lookup_lt_is_Some_2 p (Z.to_nat idx)) as [v Hv]; [lia|].
  exists v. apply load_Ok_iff. split; [lia | exact Hv].
Qed.

Lemma load_store_eq p p' idx v : store p idx v = Ok p' -> load p' idx = Ok v.
Proof.
  intros (Hi & ->)%store_inv. apply load_Ok_iff. split; [lia|].
  apply list_lookup_insert_eq. lia.
Qed.

Lemma load_store_ne p p' idx idx' v :
  store p idx v = Ok p' -> idx' <> idx -> load p' idx' = load p idx'.
Proof.
  intros (Hi & ->)%store_inv Hne. unfold load. case_decide; [|reflexivity].
  rewrite list_lookup_insert_ne; [reflexivity | lia].
Qed.

Lemma store_same p idx v : load p idx = Ok v -> store p idx v = Ok p.
Proof.
  intros (Hi & Hv)%load_Ok_iff.
  rewrite store_Ok.
  - f_equal. now apply list_insert_id.
  - apply lookup_lt_Some in Hv. lia.
Qed.

Lemma caffe_set_inv N alpha p p' :
  caffe_set N alpha p = Ok p' ->
  0 <= N <= Z.of_nat (length p) /\
  p' = replicate (Z.to_nat N) alpha ++ drop (Z.to_nat N) p.
Proof. unfold caffe_set. case_decide; [|discriminate]. intros [= <-]. auto. Qed.

Lemma caffe_set_Ok N alpha p :
  0 <= N <= Z.of_nat (length p) -> exists p', caffe_set N alpha p = Ok p'.
Proof. intros HN. unfold caffe_set. rewrite decide_True by assumption. eauto. Qed.

Lemma caffe_set_length N alpha p p' :
  caffe_set N alpha p = Ok p' -> length p' = length p.
Proof.
  intros (HN & ->)%caffe_set_inv.
  rewrite length_app, length_replicate, length_drop. lia.
Qed.

Lemma caffe_set_load N alpha p p' idx :
  caffe_set N alpha p = Ok p' -> 0 <= idx < N -> load p' idx = Ok alpha.
Proof.
  intros (HN & ->)%caffe_set_inv Hi. apply load_Ok_iff. split; [lia|].
  rewrite lookup_app_l by (rewrite length_replicate; lia).
  apply lookup_replicate_2. lia.
Qed.
End BufferFacts.

(** ** Index arithmetic of the translators *)

Lemma channel_slot_Ok multiplier channels_per_group i :
  multiplier <> 0 -> channels_per_group <> 0 ->
  channel_slot multiplier channels_per_group i
  = Ok (Z.rem (Z.quot i multiplier) channels_per_group).
Proof.
  intros Hm Hc. unfold channel_slot, int_div, int_mod.
  rewrite decide_False by assumption. rewrite bind_Ok.
  now rewrite decide_False by assumption.
Qed.

Lemma channel_slot_range multiplier channels_per_group i :
  0 < multiplier -> 0 < channels_per_group -> 0 <= i ->
  0 <= Z.rem (Z.quot i multiplier) channels_per_group < channels_per_group.
Proof.
  intros Hm Hc Hi. apply Z.rem_bound_pos; [|assumption].
  apply Z.quot_pos; lia.
Qed.

Lemma idx_cudnn_range cpg kd n i j k :
  0 <= i < n -> 0 <= j < cpg -> 0 <= k < kd ->
  0 <= idx_cudnn cpg kd i j k < n * cpg * kd.
Proof.
  intros Hi Hj Hk. unfold idx_cudnn.
  assert (0 <= i * cpg + j) by nia.
  assert (i * cpg + j + 1 <= n * cpg) by nia.
  split; [nia|].
  apply Z.lt_le_trans with ((i * cpg + j + 1) * kd); [nia|].
  apply Z.mul_le_mono_nonneg_r; lia.
Qed.

Lemma idx_caffe_range kd n i k :
  0 <= i < n -> 0 <= k < kd -> 0 <= idx_caffe kd i k < n * kd.
Proof. intros Hi Hk. unfold idx_caffe. nia. Qed.

Lemma idx_cudnn_inj cpg kd i j k i' j' k' :
  0 <= j < cpg -> 0 <= j' < cpg -> 0 <= k < kd -> 0 <= k' < kd ->
  idx_cudnn cpg kd i j k = idx_cudnn cpg kd i' j' k' ->
  i = i' /\ j = j' /\ k = k'.
Proof.
  intros Hj Hj' Hk Hk'. unfold idx_cudnn. intros E.
  assert (Hrow : i * cpg + j = i' * cpg + j').
  { destruct (Z.lt_trichotomy (i * cpg + j) (i' * cpg + j')) as [L|[L|L]];
      [exfalso; nia | exact L | exfalso; nia]. }
  assert (Hi : i = i').
  { destruct (Z.lt_trichotomy i i') as [L|[L|L]];
      [exfalso; nia | exact L | exfalso; nia]. }
  subst i'. repeat split; nia.
Qed.

Lemma backend_index_range multiplier cpg kd n i k :
  0 < multiplier -> 0 < cpg -> 0 <= i < n -> 0 <= k < kd ->
  0 <= backend_index multiplier cpg kd i k < n * cpg * kd.
Proof.
  intros Hm Hc Hi Hk. unfold backend_index.
  apply idx_cudnn_range; try assumption.
  apply channel_slot_range; lia.
Qed.

Lemma backend_index_inj multiplier cpg kd n i k i' k' :
  0 < multiplier -> 0 < cpg ->
  0 <= i < n -> 0 <= k < kd -> 0 <= i' < n -> 0 <= k' < kd ->
  backend_index multiplier cpg kd i k = backend_index multiplier cpg kd i' k' ->
  i = i' /\ k = k'.
Proof.
  intros Hm Hc Hi Hk Hi' Hk' E. unfold backend_index in E.
  apply idx_cudnn_inj in E; try assumption.
  - tauto.
  - apply channel_slot_range; lia.
  - apply channel_slot_range; lia.
Qed.

(** C10. For [channels_per_group >= 1], [multiplier >= 1] and
    [kernel_dim >= 1], the map from a compact entry [(i, k)], with
    [0 <= i < num_output] and [0 <= k < kernel_dim], to its backend index
    [(i * channels_per_group + i / multiplier % channels_per_group)
     * kernel_dim + k] is injective: two compact entries never share a slot of
    the grouped layout. *)
Theorem backend_index_injective multiplier cpg kd n i k i' k' :
  1 <= cpg -> 1 <= multiplier -> 1 <= kd ->
  0 <= i < n -> 0 <= k < kd -> 0 <= i' < n -> 0 <= k' < kd ->
  backend_index multiplier cpg kd i k = backend_index multiplier cpg kd i' k' ->
  i = i' /\ k = k'.
Proof.
  intros Hc Hm Hkd. apply backend_index_inj; lia.
Qed.

Lemma backend_index_injective_witness :
  backend_index 2 4 9 5 3 = backend_index 2 4 9 5 3 /\ (5 = 5 /\ 3 = 3).
Proof.
  split; [reflexivity|].
  apply (backend_index_injective 2 4 9 8 5 3 5 3); first [lia | reflexivity].
Defined.

(** No [int] of the translators overflows: when the count of the grouped
    blob fits in an [int], so does every intermediate value of the index
    computations, which is why they are modelled in [Z] without wrap-around. *)
Lemma translator_ints_in_range multiplier cpg kd n i k :
  0 < multiplier -> 0 < cpg -> 0 <= i < n -> 0 <= k < kd ->
  n * cpg * kd <= INT_MAX ->
  let j := Z.rem (Z.quot i multiplier) cpg in
  0 <= Z.quot i multiplier <= INT_MAX /\
  0 <= j <= INT_MAX /\
  0 <= i * cpg <= INT_MAX /\
  0 <= i * cpg + j <= INT_MAX /\
  0 <= (i * cpg + j) * kd <= INT_MAX /\
  0 <= idx_cudnn cpg kd i j k <= INT_MAX /\
  0 <= i * kd <= INT_MAX /\
  0 <= idx_caffe kd i k <= INT_MAX.
Proof.
  intros Hm Hc Hi Hk Hmax j.
  pose proof (channel_slot_range multiplier cpg i Hm Hc (proj1 Hi)) as Hj.
  fold j in Hj.
  pose proof (idx_cudnn_range cpg kd n i j k Hi Hj Hk) as Hidx.
  pose proof (idx_caffe_range kd n i k Hi Hk) as Hcaf.
  assert (Hq : 0 <= Z.quot i multiplier <= i).
  { split; [apply Z.quot_pos; lia|].
    destruct (Z.eq_dec multiplier 1) as [->|Hne]; [rewrite Z.quot_1_r; lia|].
    destruct (Z.eq_dec i 0) as [->|Hi0]; [rewrite Z.quot_0_l by lia; lia|].
    apply Z.lt_le_incl, Z.quot_lt; lia. }
  assert (Hn : n <= n * cpg * kd) by nia.
  assert (Hnk : n * kd <= n * cpg * kd) by nia.
  unfold idx_cudnn, idx_caffe in *.
  repeat split; nia.
Qed.

(** The scenarios of the specification: with multiplier 1 and one channel
    per group the slot is 0 and the two layouts coincide; with multiplier 2
    and 4 channels per group, output channel 5 reads slot 2. *)
Lemma pure_depthwise_slot i multiplier :
  multiplier <> 0 -> channel_slot multiplier 1 i = Ok 0.
Proof.
  intros Hm. rewrite channel_slot_Ok by lia. now rewrite Z.rem_1_r.
Qed.

Example pure_depthwise_index :
  backend_index 1 1 9 2 0 = 18 /\ idx_caffe 9 2 0 = 18.
Proof. split; reflexivity. Qed.

Example multiplier_two_index (kernel_dim : Z) :
  channel_slot 2 4 5 = Ok 2 /\
  backend_index 2 4 kernel_dim 5 0 = (5 * 4 + 2) * kernel_dim /\
  idx_caffe kernel_dim 5 0 = 5 * kernel_dim.
Proof.
  split; [reflexivity|]. unfold backend_index, idx_cudnn, idx_caffe.
  change (Z.rem (Z.quot 5 2) 4) with 2. split; lia.
Qed.

(** ** Scattering one buffer into the grouped layout *)

Section Scatter.
Context {A : Type}.
Variables (multiplier cpg kd n : Z).
Hypothesis (Hm : 0 < multiplier) (Hc : 0 < cpg).
Variables (src : Z -> Z -> Res A) (dst0 : list A).

Local Abbreviation bidx := (backend_index multiplier cpg kd).
Local Abbreviation scat := (scattered multiplier cpg kd n src dst0).

Lemma scattered_init : scat dst0 0 0.
Proof.
  split; [reflexivity|]. split.
  - intros i' k' Hi' Hk' [L|[-> L]]; lia.
  - reflexivity.
Qed.

Lemma scattered_store_Ok dst i k v :
  scat dst i k -> n * cpg * kd <= Z.of_nat (length dst0) ->
  0 <= i < n -> 0 <= k < kd ->
  exists dst', store dst (bidx i k) v = Ok dst'.
Proof.
  intros (Hlen & _) Hfit Hi Hk.
  pose proof (backend_index_range multiplier cpg kd n i k Hm Hc Hi Hk).
  eexists. apply store_Ok. lia.
Qed.

Lemma scattered_store dst dst' i k v :
  scat dst i k -> 0 <= i < n -> 0 <= k < kd ->
  src i k = Ok v -> store dst (bidx i k) v = Ok dst' ->
  scat dst' i (k + 1).
Proof.
  intros (Hlen & Hdone & Hrest) Hi Hk Hv Hst. split; [|split].
  - rewrite (store_length _ _ _ _ Hst). exact Hlen.
  - intros i' k' Hi' Hk' Hbefore.
    destruct (decide (i' = i /\ k' = k)) as [[-> ->]|Hne].
    + rewrite Hv. eapply load_store_eq, Hst.
    + rewrite (load_store_ne _ _ _ _ _ Hst).
      * apply Hdone; try assumption. unfold visited_before in *. lia.
      * intros E. apply backend_index_inj with (n := n) in E; lia.
  - intros p Hp. rewrite (load_store_ne _ _ _ _ _ Hst).
    + apply Hrest. intros i' k' Hi' Hk' Hbefore. apply Hp; try assumption.
      unfold visited_before in *. lia.
    + apply Hp; try assumption. unfold visited_before. lia.
Qed.

Lemma scattered_next_row dst i : scat dst i kd -> scat dst (i + 1) 0.
Proof.
  intros (Hlen & Hdone & Hrest). split; [exact Hlen|]. split.
  - intros i' k' Hi' Hk' Hbefore. apply Hdone; try assumption.
    unfold visited_before in *. lia.
  - intros p Hp. apply Hrest. intros i' k' Hi' Hk' Hbefore.
    apply Hp; try assumption. unfold visited_before in *. lia.
Qed.

Lemma scattered_final_visited dst i k :
  scat dst n 0 -> 0 <= i < n -> 0 <= k < kd -> load dst (bidx i k) = src i k.
Proof.
  intros (_ & Hdone & _) Hi Hk. apply Hdone; try assumption.
  unfold visited_before. lia.
Qed.

Lemma scattered_final_rest dst p :
  scat dst n 0 ->
  (forall i k, 0 <= i < n -> 0 <= k < kd -> p <> bidx i k) ->
  load dst p = load dst0 p.
Proof. intros (_ & _ & Hrest) Hp. apply Hrest. intros; now apply Hp. Qed.
End Scatter.

(** ** The loops of [CaffeToCuDNN] *)

Section CaffeToCuDNNLoops.
Context {Dtype : Type} `{Scalar Dtype}.
Variables (multiplier cpg kd n : Z).
Hypothesis (Hm : 0 < multiplier) (Hc : 0 < cpg) (Hkd : 0 < kd) (Hn : 0 <= n).
Variables (caffe_data caffe_diff : list Dtype) (b0 : BackendBuffers Dtype).
Hypothesis Hcaffe_data : n * kd <= Z.of_nat (length caffe_data).
Hypothesis Hcaffe_diff : n * kd <= Z.of_nat (length caffe_diff).
Hypothesis Hcudnn_data : n * cpg * kd <= Z.of_nat (length (cudnn_data b0)).
Hypothesis Hcudnn_diff : n * cpg * kd <= Z.of_nat (length (cudnn_diff b0)).
Hypothesis Hmask_data : n * cpg * kd <= Z.of_nat (length (mask_data b0)).

Local Abbreviation Inv :=
  (CaffeToCuDNN_invariant multiplier cpg kd n caffe_data caffe_diff b0).
Local Abbreviation body :=
  (CaffeToCuDNN_body multiplier cpg kd caffe_data caffe_diff).

Lemma CaffeToCuDNN_body_step i k b :
  0 <= i < n -> 0 <= k < kd -> Inv i k b ->
  exists b', body i k b = Ok b' /\ Inv i (k + 1) b'.
Proof.
  intros Hi Hk (Hd & Hg & Hmk).
  pose proof (idx_caffe_range kd n i k Hi Hk) as Hcr.
  destruct (load_in_range caffe_data (idx_caffe kd i k)) as [v Hv]; [lia|].
  destruct (load_in_range caffe_diff (idx_caffe kd i k)) as [g Hgv]; [lia|].
  destruct (scattered_store_Ok _ _ _ _ Hm Hc _ _ _ i k v Hd) as [d' Hd'];
    try assumption.
  destruct (scattered_store_Ok _ _ _ _ Hm Hc _ _ _ i k g Hg) as [g' Hg'];
    try assumption.
  destruct (scattered_store_Ok _ _ _ _ Hm Hc _ _ _ i k scalar_1 Hmk) as [m' Hm'];
    try assumption.
  exists {| cudnn_data := d'; cudnn_diff := g'; mask_data := m' |}. split.
  - unfold CaffeToCuDNN_body. rewrite channel_slot_Ok by lia. rewrite bind_Ok.
    fold (backend_index multiplier cpg kd i k).
    rewrite Hv, bind_Ok, Hd', bind_Ok, Hgv, bind_Ok, Hg', bind_Ok, Hm', bind_Ok.
    reflexivity.
  - split; [|split]; cbn [cudnn_data cudnn_diff mask_data];
      eapply scattered_store; eauto.
Qed.

Lemma CaffeToCuDNN_next_row i b : Inv i kd b -> Inv (i + 1) 0 b.
Proof.
  intros (Hd & Hg & Hmk). split; [|split]; now apply scattered_next_row.
Qed.

Lemma CaffeToCuDNN_loops :
  exists b,
    for_loop n (fun i => for_loop kd (fun k => body i k)) b0 = Ok b /\
    Inv n 0 b.
Proof.
  apply (for_loop_invariant (fun i b => Inv i 0 b)); [exact Hn | |].
  - split; [|split]; apply scattered_init.
  - intros i b Hi HI.
    destruct (for_loop_invariant (fun k b => Inv i k b) (fun k => body i k) kd b)
      as (b' & Hb' & HI'); [lia | exact HI | |].
    + intros k t Hk Ht. now apply CaffeToCuDNN_body_step.
    + exists b'. split; [exact Hb' | now apply CaffeToCuDNN_next_row].
Qed.
End CaffeToCuDNNLoops.

(** ** [CaffeToCuDNN] on a layer *)

Section CaffeToCuDNNFacts.
Context {Dtype BlobProto : Type} `{Scalar Dtype}.
Local Abbreviation Layer := (CuDNNDepthwiseLayer Dtype BlobProto).
Implicit Types (l : Layer) (others : list (Blob Dtype)).

Lemma valid_configuration_group l : valid_configuration l -> group_ l <> 0.
Proof.
  intros (_ & Hc & _) E. unfold channels_per_group in Hc.
  rewrite Z.quot_0_r_ext in Hc by exact E. lia.
Qed.

Lemma int_div_channels l :
  valid_configuration l ->
  int_div (channels_ (base l)) (group_ l) = Ok (channels_per_group l).
Proof.
  intros Hv. unfold int_div.
  now rewrite decide_False by now apply valid_configuration_group.
Qed.

Lemma grouped_count_nonneg l : valid_configuration l -> 0 <= grouped_count l.
Proof. intros (_ & Hc & Hk & Hn). unfold grouped_count. nia. Qed.

(** [CaffeToCuDNN] returns; its result is the layer with the three backend
    buffers zero-filled up to [N] and then scattered into. *)
Lemma CaffeToCuDNN_Ok l (blob0 : Blob Dtype) others :
  blobs_ (base l) = blob0 :: others ->
  valid_configuration l -> buffers_fit l ->
  exists b0 b,
    caffe_set (grouped_count l) scalar_0 (data_ blob0) = Ok (cudnn_data b0) /\
    caffe_set (grouped_count l) scalar_0 (diff_ blob0) = Ok (cudnn_diff b0) /\
    caffe_set (grouped_count l) scalar_0 (data_ (mask_ l)) = Ok (mask_data b0) /\
    CaffeToCuDNN l = Ok (write_back_backend l blob0 others b) /\
    CaffeToCuDNN_invariant (multiplier_ (base l)) (channels_per_group l)
      (kernel_dim_ (base l)) (num_output_ (base l))
      (data_ (caffe_weight_ l)) (diff_ (caffe_weight_ l)) b0
      (num_output_ (base l)) 0 b.
Proof.
  intros Hb Hv Hfit. unfold buffers_fit in Hfit. rewrite Hb in Hfit.
  destruct Hfit as (Fd & Fg & Fm & Cd & Cg).
  pose proof (grouped_count_nonneg l Hv) as HN.
  destruct (caffe_set_Ok (grouped_count l) scalar_0 (data_ blob0)) as [d0 Hd0];
    [lia|].
  destruct (caffe_set_Ok (grouped_count l) scalar_0 (diff_ blob0)) as [g0 Hg0];
    [lia|].
  destruct (caffe_set_Ok (grouped_count l) scalar_0 (data_ (mask_ l))) as [m0 Hm0];
    [lia|].
  set (b0 := {| cudnn_data := d0; cudnn_diff := g0; mask_data := m0 |}).
  destruct Hv as (Hm & Hc & Hk & Hn).
  destruct (CaffeToCuDNN_loops (multiplier_ (base l)) (channels_per_group l)
              (kernel_dim_ (base l)) (num_output_ (base l)) Hm Hc Hk Hn
              (data_ (caffe_weight_ l)) (diff_ (caffe_weight_ l)) b0)
    as (b & Hloop & Hinv).
  - exact Cd.
  - exact Cg.
  - cbn [b0 cudnn_data]. rewrite (caffe_set_length _ _ _ _ Hd0). exact Fd.
  - cbn [b0 cudnn_diff]. rewrite (caffe_set_length _ _ _ _ Hg0). exact Fg.
  - cbn [b0 mask_data]. rewrite (caffe_set_length _ _ _ _ Hm0). exact Fm.
  - exists b0, b.
    split; [exact Hd0|]. split; [exact Hg0|]. split; [exact Hm0|].
    split; [|exact Hinv].
    unfold CaffeToCuDNN. rewrite Hb.
    rewrite int_div_channels by (repeat split; assumption). rewrite bind_Ok.
    fold (grouped_count l). rewrite Hd0, bind_Ok, Hg0, bind_Ok, Hm0, bind_Ok.
    fold b0. rewrite Hloop. reflexivity.
Qed.
End CaffeToCuDNNFacts.

(** ** The loops of [CuDNNToCaffe] *)

Section CuDNNToCaffeLoops.
Context {Dtype : Type}.
Variables (multiplier cpg kd n : Z).
Hypothesis (Hm : 0 < multiplier) (Hc : 0 < cpg) (Hkd : 0 < kd) (Hn : 0 <= n).
Variables (cudnn_data cudnn_diff : list Dtype) (c0 : CompactBuffers Dtype).
Hypothesis Hcudnn_data : n * cpg * kd <= Z.of_nat (length cudnn_data).
Hypothesis Hcudnn_diff : n * cpg * kd <= Z.of_nat (length cudnn_diff).
Hypothesis Hcaffe_data : n * kd <= Z.of_nat (length (caffe_data c0)).
Hypothesis Hcaffe_diff : n * kd <= Z.of_nat (length (caffe_diff c0)).

Local Abbreviation body :=
  (CuDNNToCaffe_body multiplier cpg kd cudnn_data cudnn_diff).

(** The loops return: every index they form is inside its buffer. *)
Lemma CuDNNToCaffe_loops_Ok :
  exists c,
    for_loop n (fun i => for_loop kd (fun k => body i k)) c0 = Ok c /\
    length (caffe_data c) = length (caffe_data c0) /\
    length (caffe_diff c) = length (caffe_diff c0).
Proof.
  pose (I := fun (_ : Z) (c : CompactBuffers Dtype) =>
               length (caffe_data c) = length (caffe_data c0) /\
               length (caffe_diff c) = length (caffe_diff c0)).
  destruct (for_loop_invariant I (fun i => for_loop kd (fun k => body i k)) n c0)
    as (c & Hc' & HIc); [exact Hn | now split | | now exists c].
  intros i c Hi HI.
  apply (for_loop_invariant (fun _ t => I (i + 1) t)); [lia | exact HI |].
  intros k t Hk (Ld & Lg).
  pose proof (idx_caffe_range kd n i k Hi Hk) as Hcr.
  pose proof (backend_index_range multiplier cpg kd n i k Hm Hc Hi Hk) as Hbr.
  destruct (load_in_range cudnn_data (backend_index multiplier cpg kd i k))
    as [v Hv]; [lia|].
  destruct (load_in_range cudnn_diff (backend_index multiplier cpg kd i k))
    as [g Hg]; [lia|].
  eexists. split.
  - unfold CuDNNToCaffe_body. rewrite channel_slot_Ok by lia. rewrite bind_Ok.
    fold (backend_index multiplier cpg kd i k).
    rewrite Hv, bind_Ok, store_Ok, bind_Ok by lia.
    rewrite Hg, bind_Ok, store_Ok, bind_Ok by lia.
    reflexivity.
  - split; cbn [caffe_data caffe_diff]; rewrite length_insert; assumption.
Qed.

(** When the grouped buffers already hold, at every backend index, the value
    the compact buffers hold at the matching compact index, the loops leave
    the compact buffers as they are. *)
Lemma CuDNNToCaffe_loops_fixpoint :
  (forall i k, 0 <= i < n -> 0 <= k < kd ->
     load cudnn_data (backend_index multiplier cpg kd i k)
     = load (caffe_data c0) (idx_caffe kd i k)) ->
  (forall i k, 0 <= i < n -> 0 <= k < kd ->
     load cudnn_diff (backend_index multiplier cpg kd i k)
     = load (caffe_diff c0) (idx_caffe kd i k)) ->
  for_loop n (fun i => for_loop kd (fun k => body i k)) c0 = Ok c0.
Proof.
  intros Hd Hg.
  pose (I := fun (_ : Z) (c : CompactBuffers Dtype) => c = c0).
  destruct (for_loop_invariant I (fun i => for_loop kd (fun k => body i k)) n c0)
    as (c & Hc' & ->); [exact Hn | reflexivity | | exact Hc'].
  intros i c Hi ->.
  apply (for_loop_invariant (fun _ t => I (i + 1) t)); [lia | reflexivity |].
  intros k t Hk ->. exists c0. split; [|reflexivity].
  pose proof (idx_caffe_range kd n i k Hi Hk) as Hcr.
  destruct (load_in_range (caffe_data c0) (idx_caffe kd i k)) as [v Hv]; [lia|].
  destruct (load_in_range (caffe_diff c0) (idx_caffe kd i k)) as [g Hgv]; [lia|].
  unfold CuDNNToCaffe_body. rewrite channel_slot_Ok by lia. rewrite bind_Ok.
  fold (backend_index multiplier cpg kd i k).
  rewrite (Hd i k Hi Hk), Hv, bind_Ok, (store_same _ _ _ Hv), bind_Ok.
  rewrite (Hg i k Hi Hk), Hgv, bind_Ok, (store_same _ _ _ Hgv), bind_Ok.
  now destruct c0.
Qed.
End CuDNNToCaffeLoops.

Example example_layer_valid : valid_configuration example_layer.
Proof. repeat split; vm_compute; first [reflexivity | discriminate]. Qed.

Example example_layer_fits : buffers_fit example_layer.
Proof. repeat split; vm_compute; first [reflexivity | discriminate]. Qed.


(** ** [CuDNNToCaffe] on a layer, and the properties of the translators *)

Section TranslatorProperties.
Context {Dtype BlobProto : Type} `{Scalar Dtype}.
Local Abbreviation Layer := (CuDNNDepthwiseLayer Dtype BlobProto).
Implicit Types (l : Layer) (others : list (Blob Dtype)).

Lemma load_zero_filled N (p p' : list Dtype) idx :
  caffe_set N scalar_0 p = Ok p' -> 0 <= idx < N -> load p' idx = Ok scalar_0.
Proof. apply caffe_set_load. Qed.

(** C2. With bound parameters, after [CaffeToCuDNN]: the mask is 1.0 at the
    backend index [(i * channels_per_group + j) * kernel_dim + k],
    [j = i / multiplier % channels_per_group], of every output channel [i] and
    kernel position [k]; among the channel slots [c] of output channel [i]
    exactly the slot [c = j] carries the mask (the mask is 0 at the others);
    and every entry of the grouped data, of the grouped gradient and of the
    mask that is not at a backend index is exactly 0.  The entries are those
    below [N = num_output * channels_per_group * kernel_dim], the count of
    the grouped blob. *)
Theorem CaffeToCuDNN_mask_and_zero_fill l (blob0 : Blob Dtype) others :
  blobs_ (base l) = blob0 :: others ->
  valid_configuration l -> buffers_fit l ->
  exists l1 (grouped : Blob Dtype),
    CaffeToCuDNN l = Ok l1 /\
    blobs_ (base l1) = grouped :: others /\
    (forall i k,
       0 <= i < num_output_ (base l) -> 0 <= k < kernel_dim_ (base l) ->
       load (data_ (mask_ l1)) (backend_index_of l i k) = Ok scalar_1) /\
    (forall i c k,
       0 <= i < num_output_ (base l) -> 0 <= c < channels_per_group l ->
       0 <= k < kernel_dim_ (base l) ->
       load (data_ (mask_ l1))
            (idx_cudnn (channels_per_group l) (kernel_dim_ (base l)) i c k)
       = Ok (if decide (c = Z.rem (Z.quot i (multiplier_ (base l)))
                                  (channels_per_group l))
             then scalar_1 else scalar_0)) /\
    (forall p,
       0 <= p < grouped_count l ->
       (forall i k,
          0 <= i < num_output_ (base l) -> 0 <= k < kernel_dim_ (base l) ->
          p <> backend_index_of l i k) ->
       load (data_ grouped) p = Ok scalar_0 /\
       load (diff_ grouped) p = Ok scalar_0 /\
       load (data_ (mask_ l1)) p = Ok scalar_0).
Proof.
  intros Hb Hv Hfit.
  destruct (CaffeToCuDNN_Ok l blob0 others Hb Hv Hfit)
    as (b0 & b & Hd0 & Hg0 & Hm0 & Hrun & Hd & Hg & Hmk).
  destruct Hv as (Hm & Hc & Hk & Hn).
  assert (Hrest : forall p,
             0 <= p < grouped_count l ->
             (forall i k,
                0 <= i < num_output_ (base l) -> 0 <= k < kernel_dim_ (base l) ->
                p <> backend_index_of l i k) ->
             load (cudnn_data b) p = Ok scalar_0 /\
             load (cudnn_diff b) p = Ok scalar_0 /\
             load (mask_data b) p = Ok scalar_0).
  { intros p Hp Hfree. split; [|split].
    - rewrite (scattered_final_rest _ _ _ _ _ _ _ p Hd Hfree).
      eapply load_zero_filled; eauto.
    - rewrite (scattered_final_rest _ _ _ _ _ _ _ p Hg Hfree).
      eapply load_zero_filled; eauto.
    - rewrite (scattered_final_rest _ _ _ _ _ _ _ p Hmk Hfree).
      eapply load_zero_filled; eauto. }
  eexists _, _. split; [exact Hrun|]. split; [reflexivity|].
  cbn [write_back_backend mask_ data_ diff_]. split; [|split].
  - intros i k Hi Hki.
    apply (scattered_final_visited _ _ _ _ _ _ _ i k Hmk Hi Hki).
  - intros i c k Hi Hci Hki. case_decide as Hslot.
    + subst c. apply (scattered_final_visited _ _ _ _ _ _ _ i k Hmk Hi Hki).
    + apply Hrest.
      * apply idx_cudnn_range; assumption.
      * intros i' k' Hi' Hk' E. unfold backend_index_of, backend_index in E.
        apply idx_cudnn_inj in E; try assumption.
        -- destruct E as (-> & -> & _). now apply Hslot.
        -- apply channel_slot_range; lia.
  - exact Hrest.
Qed.

Lemma CuDNNToCaffe_inv l l' :
  CuDNNToCaffe l = Ok l' ->
  l' = l \/ exists c, l' = write_back_compact l c.
Proof.
  unfold CuDNNToCaffe. destruct (blobs_ (base l)) as [|blob0 others].
  - intros [= <-]. now left.
  - intros Hrun. repeat ok_step. right. eexists. symmetry. exact Hrun.
Qed.

Lemma CuDNNToCaffe_Ok l (blob0 : Blob Dtype) others :
  blobs_ (base l) = blob0 :: others ->
  valid_configuration l -> buffers_fit l ->
  exists c,
    CuDNNToCaffe l = Ok (write_back_compact l c) /\
    length (caffe_data c) = length (data_ (caffe_weight_ l)) /\
    length (caffe_diff c) = length (diff_ (caffe_weight_ l)).
Proof.
  intros Hb Hv Hfit. unfold CuDNNToCaffe, buffers_fit in *. rewrite Hb in *.
  destruct Hfit as (Fd & Fg & _ & Cd & Cg).
  rewrite int_div_channels by assumption. rewrite bind_Ok.
  destruct Hv as (Hm & Hc & Hk & Hn).
  destruct (CuDNNToCaffe_loops_Ok (multiplier_ (base l)) (channels_per_group l)
              (kernel_dim_ (base l)) (num_output_ (base l)) Hm Hc Hk Hn
              (data_ blob0) (diff_ blob0)
              {| caffe_data := data_ (caffe_weight_ l);
                 caffe_diff := diff_ (caffe_weight_ l) |})
    as (c & Hloop & Ld & Lg); try assumption.
  exists c. rewrite Hloop. repeat split; assumption.
Qed.

(** C8. For a state with bound parameters, [CuDNNToCaffe] returns and writes
    only the data and gradient buffers of the compact weight: the parameter
    blobs (so the grouped data and gradient), the mask and every other member
    are as before, and so are the shape of the compact weight and the sizes
    of its two buffers. *)
Theorem CuDNNToCaffe_frame l (blob0 : Blob Dtype) others :
  blobs_ (base l) = blob0 :: others ->
  valid_configuration l -> buffers_fit l ->
  exists l',
    CuDNNToCaffe l = Ok l' /\
    blobs_ (base l') = blob0 :: others /\
    mask_ l' = mask_ l /\
    base l' = base l /\
    shape_ (caffe_weight_ l') = shape_ (caffe_weight_ l) /\
    length (data_ (caffe_weight_ l')) = length (data_ (caffe_weight_ l)) /\
    length (diff_ (caffe_weight_ l')) = length (diff_ (caffe_weight_ l)) /\
    (handles_setup_ l', handle_ l', stream_ l', plan l', descs l')
    = (handles_setup_ l, handle_ l, stream_ l, plan l, descs l) /\
    (group_ l', weight_offset_ l', bottom_offset_ l', top_offset_ l', pool l')
    = (group_ l, weight_offset_ l, bottom_offset_ l, top_offset_ l, pool l).
Proof.
  intros Hb Hv Hfit.
  destruct (CuDNNToCaffe_Ok l blob0 others Hb Hv Hfit) as (c & Hrun & Ld & Lg).
  exists (write_back_compact l c). split; [exact Hrun|].
  cbn [write_back_compact base mask_ caffe_weight_ shape_ data_ diff_
       handles_setup_ handle_ stream_ plan descs group_ weight_offset_
       bottom_offset_ top_offset_ pool].
  repeat split; assumption.
Qed.

End TranslatorProperties.

Lemma CaffeToCuDNN_mask_and_zero_fill_witness :
  exists l1,
    CaffeToCuDNN example_layer = Ok l1 /\
    load (data_ (mask_ l1)) (backend_index_of example_layer 5 1) = Ok scalar_1.
Proof.
  destruct (CaffeToCuDNN_mask_and_zero_fill example_layer _ _ eq_refl)
    as (l1 & grouped & Hrun & _ & Hmask & _).
  - repeat split; vm_compute; first [reflexivity | discriminate].
  - repeat split; vm_compute; first [reflexivity | discriminate].
  - exists l1. split; [exact Hrun|]. apply Hmask; vm_compute; split; congruence.
Defined.

Lemma CuDNNToCaffe_frame_witness :
  exists l', CuDNNToCaffe example_layer = Ok l' /\ mask_ l' = mask_ example_layer.
Proof.
  destruct (CuDNNToCaffe_frame example_layer _ _ eq_refl)
    as (l' & Hrun & _ & Hmask & _).
  - repeat split; vm_compute; first [reflexivity | discriminate].
  - repeat split; vm_compute; first [reflexivity | discriminate].
  - exists l'. split; [exact Hrun | exact Hmask].
Defined.

(** ** The runtime monad *)

Lemma M_bind_Ok {A B} (c : M A) (k : A -> M B) (w w1 : World) (a : A) :
  c w = Ok (a, w1) -> (c ≫= k) w = k a w1.
Proof. intros Hc. unfold mbind, M_bind. now rewrite Hc. Qed.

Lemma M_bind_inv {A B} (c : M A) (k : A -> M B) (w w' : World) (b : B) :
  (c ≫= k) w = Ok (b, w') ->
  exists a w1, c w = Ok (a, w1) /\ k a w1 = Ok (b, w').
Proof.
  unfold mbind, M_bind. destruct (c w) as [[a w1]|f]; [eauto | discriminate].
Qed.

Lemma lift_Ok {A} (r : Res A) (a : A) (w : World) :
  r = Ok a -> lift r w = Ok (a, w).
Proof. now intros ->. Qed.

Lemma lift_inv {A} (r : Res A) (a : A) (w w' : World) :
  lift r w = Ok (a, w') -> r = Ok a /\ w' = w.
Proof. unfold lift. destruct r; [intros [= -> ->]; auto | discriminate]. Qed.

Lemma M_ret_inv {A} (a b : A) (w w' : World) :
  (mret a : M A) w = Ok (b, w') -> b = a /\ w' = w.
Proof. intros [= -> ->]. auto. Qed.

(** Invert one step of a run that returned. *)
Ltac m_step H :=
  let a := fresh "a" in
  let w1 := fresh "w" in
  let Ha := fresh "Ha" in
  apply M_bind_inv in H; destruct H as (a & w1 & Ha & H).

(** Invert one step that does not touch the world. *)
Ltac m_next H :=
  let a := fresh "a" in
  let w1 := fresh "w" in
  let Ha := fresh "Ha" in
  apply M_bind_inv in H; destruct H as (a & w1 & Ha & H);
  apply lift_inv in Ha; destruct Ha as (Ha & ->).

Ltac m_lift H :=
  let E := fresh "E" in
  apply lift_inv in H; destruct H as (H & E); subst.

(** ** The scratch pool: the size [Reshape] computes *)

Lemma load_size_at (sizes : list Z) (i : nat) :
  (i < length sizes)%nat -> load sizes (Z.of_nat i) = Ok (size_at sizes i).
Proof.
  intros Hi. destruct (lookup_lt_is_Some_2 sizes i Hi) as [v Hv].
  unfold size_at. rewrite Hv. apply load_Ok_iff. split; [lia|].
  now rewrite Nat2Z.id.
Qed.

Lemma load_size_at_Z (sizes : list Z) (i : Z) :
  0 <= i < Z.of_nat (length sizes) ->
  load sizes i = Ok (size_at sizes (Z.to_nat i)).
Proof.
  intros Hi. rewrite <- (Z2Nat.id i) at 1 by lia. apply load_size_at. lia.
Qed.

Lemma max_over_inputs_nonneg f n : 0 <= max_over_inputs f n.
Proof. induction n; cbn [max_over_inputs]; lia. Qed.

Lemma max_over_inputs_three f1 f2 f3 n :
  Z.max (Z.max (max_over_inputs f1 n) (max_over_inputs f2 n))
        (max_over_inputs f3 n)
  = max_over_inputs (fun i => Z.max (Z.max (f1 i) (f2 i)) (f3 i)) n.
Proof. induction n as [|n IH]; cbn [max_over_inputs]; lia. Qed.

Lemma max_over_inputs_bound f n bound :
  0 <= bound -> (forall i, (i < n)%nat -> f i <= bound) ->
  max_over_inputs f n <= bound.
Proof.
  intros Hb. induction n as [|n IH]; cbn [max_over_inputs]; intros Hf; [lia|].
  apply Z.max_lub; [apply IH; intros; apply Hf; lia | apply Hf; lia].
Qed.

Lemma Reshape_reduce_loop (n : nat) (p : AlgorithmPlan) :
  plan_fits n p ->
  for_loop (Z.of_nat n) (Reshape_reduce p) (0, 0, 0)
  = Ok (max_over_inputs (size_at (workspace_fwd_sizes_ p)) n,
        max_over_inputs (size_at (workspace_bwd_data_sizes_ p)) n,
        max_over_inputs (size_at (workspace_bwd_filter_sizes_ p)) n).
Proof.
  intros (_ & _ & _ & Hf & Hd & Hg).
  pose (I := fun (i : Z) (t : Z * Z * Z) =>
    t = (max_over_inputs (size_at (workspace_fwd_sizes_ p)) (Z.to_nat i),
         max_over_inputs (size_at (workspace_bwd_data_sizes_ p)) (Z.to_nat i),
         max_over_inputs (size_at (workspace_bwd_filter_sizes_ p)) (Z.to_nat i))).
  destruct (for_loop_invariant I (Reshape_reduce p) (Z.of_nat n) (0, 0, 0))
    as (t & Ht & HI); [lia | reflexivity | |].
  - intros i t Hi ->. eexists. split.
    + unfold Reshape_reduce. cbn beta iota.
      rewrite !load_size_at_Z by lia. rewrite !bind_Ok. reflexivity.
    + unfold I. replace (Z.to_nat (i + 1)) with (S (Z.to_nat i)) by lia.
      reflexivity.
  - rewrite Ht. unfold I in HI. now rewrite Nat2Z.id in HI; subst t.
Qed.

Lemma Reshape_max_workspace_spec (n : nat) (p : AlgorithmPlan) :
  plan_fits n p -> Reshape_max_workspace (Z.of_nat n) p = Ok (perStreamMax n p).
Proof.
  intros Hfit. unfold Reshape_max_workspace.
  rewrite (Reshape_reduce_loop n p Hfit), bind_Ok. cbn beta iota.
  unfold perStreamMax, input_scratch. now rewrite max_over_inputs_three.
Qed.

Lemma perStreamMax_nonneg n p : 0 <= perStreamMax n p.
Proof. apply max_over_inputs_nonneg. Qed.

Lemma SIZE_T_MODULUS_pos : 0 < SIZE_T_MODULUS.
Proof. reflexivity. Qed.

Lemma size_mul_small a b :
  0 <= a * b < SIZE_T_MODULUS -> size_mul a b = a * b.
Proof. intros Hab. unfold size_mul. now apply Z.mod_small. Qed.

Lemma alias_is_sliced (data m : Z) :
  0 <= m -> m * 3 < SIZE_T_MODULUS ->
  [ptr_add data (size_mul 0 m); ptr_add data (size_mul 1 m);
   ptr_add data (size_mul 2 m)] = sliced data m.
Proof.
  intros H0 H3. unfold sliced. rewrite !size_mul_small by lia. reflexivity.
Qed.

(** Scratch sizes under the workspace ceiling of [Reshape] cannot make the
    [size_t] product wrap. *)
Lemma under_ceiling_no_wrap (n : nat) (p : AlgorithmPlan) :
  (forall i, (i < n)%nat -> input_scratch p i <= workspace_limit_bytes) ->
  perStreamMax n p * 3 < SIZE_T_MODULUS.
Proof.
  intros Hceil.
  assert (Hmax : perStreamMax n p <= workspace_limit_bytes).
  { apply max_over_inputs_bound; [unfold workspace_limit_bytes; lia | exact Hceil]. }
  apply Z.le_lt_trans with (workspace_limit_bytes * 3); [lia | reflexivity].
Qed.

Lemma three_elements {A} (l : list A) :
  length l = 3%nat -> exists a b c, l = [a; b; c].
Proof.
  destruct l as [|a [|b [|c [|d l]]]]; try discriminate. intros _. eauto.
Qed.

(** ** The scratch pool: reallocation *)

Lemma Reshape_zero_path_loop (n : nat) (p : AlgorithmPlan) :
  plan_fits n p ->
  exists p',
    for_loop (Z.of_nat n) Reshape_zero_path p = Ok p' /\
    zero_memory_path n p' /\ plan_fits n p'.
Proof.
  intros Hfit.
  pose (I := fun (i : Z) (q : AlgorithmPlan) =>
              plan_fits n q /\ zero_memory_path (Z.to_nat i) q).
  destruct (for_loop_invariant I Reshape_zero_path (Z.of_nat n) p)
    as (p' & Hp' & Hfit' & Hzero); [lia | | |].
  - split; [exact Hfit|]. intros i Hi. lia.
  - intros i q Hi ((F1 & F2 & F3 & F4 & F5 & F6) & Hz).
    eexists. split.
    + unfold Reshape_zero_path.
      rewrite !store_Ok, !bind_Ok by lia. reflexivity.
    + split.
      * unfold plan_fits. cbn. rewrite !length_insert. tauto.
      * intros j Hj. cbn.
        destruct (decide (j = Z.to_nat i)) as [->|Hne].
        -- rewrite !list_lookup_insert_eq by lia. tauto.
        -- rewrite !list_lookup_insert_ne by lia. apply Hz. lia.
  - exists p'. rewrite Nat2Z.id in Hzero. auto.
Qed.

Section Reallocation.
Variable be : Backend.

Lemma realloc_bind {B} (old size : Z) (k : option Z -> M B) (w : World) :
  (cudaFree old ≫= fun _ => cudaMalloc_call be size ≫= k) w
  = k (cudaMalloc be size) (reallocated old size (cudaMalloc be size) w).
Proof.
  unfold cudaFree, cudaMalloc_call, reallocated, mbind, M_bind, runtime_release,
    drop_resource, mret, M_ret.
  case_decide; cbn; destruct (cudaMalloc be size); reflexivity.
Qed.

(** The pool is large enough: nothing is requested, nothing changes. *)
Lemma Reshape_workspace_keep (n : nat) p sp w :
  plan_fits n p ->
  size_mul (perStreamMax n p) CUDNN_STREAMS_DEPTHWISE <= workspaceSizeInBytes sp ->
  Reshape_workspace be (Z.of_nat n) (p, sp) w = Ok ((p, sp), w).
Proof.
  intros Hfit Hle. unfold Reshape_workspace.
  rewrite (M_bind_Ok _ _ w w (perStreamMax n p))
    by (apply lift_Ok, Reshape_max_workspace_spec, Hfit).
  now rewrite decide_False by lia.
Qed.

(** The pool has to grow and the device has memory. *)
Lemma Reshape_workspace_grow (n : nat) p sp w ptr :
  plan_fits n p -> length (workspace sp) = 3%nat ->
  workspaceSizeInBytes sp < size_mul (perStreamMax n p) CUDNN_STREAMS_DEPTHWISE ->
  cudaMalloc be (size_mul (perStreamMax n p) CUDNN_STREAMS_DEPTHWISE) = Some ptr ->
  Reshape_workspace be (Z.of_nat n) (p, sp) w
  = Ok ((p, {| workspaceSizeInBytes :=
                 size_mul (perStreamMax n p) CUDNN_STREAMS_DEPTHWISE;
               workspaceData := ptr;
               workspace := [ptr_add ptr (size_mul 0 (perStreamMax n p));
                             ptr_add ptr (size_mul 1 (perStreamMax n p));
                             ptr_add ptr (size_mul 2 (perStreamMax n p))] |}),
        reallocated (workspaceData sp)
          (size_mul (perStreamMax n p) CUDNN_STREAMS_DEPTHWISE) (Some ptr) w).
Proof.
  intros Hfit (a & b & c & Hws)%three_elements Hlt Hmalloc.
  unfold Reshape_workspace.
  rewrite (M_bind_Ok _ _ w w (perStreamMax n p))
    by (apply lift_Ok, Reshape_max_workspace_spec, Hfit).
  rewrite decide_True by lia.
  rewrite realloc_bind, Hmalloc.
  cbn [workspace workspaceData workspaceSizeInBytes]. rewrite Hws. reflexivity.
Qed.

(** The pool has to grow and the device has no memory: the zero memory path
    is forced and the size is reset, and then the regions are aliased from
    the null pointer all the same. *)
Lemma Reshape_workspace_no_memory (n : nat) p sp w :
  plan_fits n p -> length (workspace sp) = 3%nat ->
  workspaceSizeInBytes sp < size_mul (perStreamMax n p) CUDNN_STREAMS_DEPTHWISE ->
  cudaMalloc be (size_mul (perStreamMax n p) CUDNN_STREAMS_DEPTHWISE) = None ->
  exists p',
    Reshape_workspace be (Z.of_nat n) (p, sp) w
    = Ok ((p', {| workspaceSizeInBytes := 0;
                  workspaceData := NULL;
                  workspace := [ptr_add NULL (size_mul 0 (perStreamMax n p));
                                ptr_add NULL (size_mul 1 (perStreamMax n p));
                                ptr_add NULL (size_mul 2 (perStreamMax n p))] |}),
          reallocated (workspaceData sp)
            (size_mul (perStreamMax n p) CUDNN_STREAMS_DEPTHWISE) None w) /\
    zero_memory_path n p' /\ plan_fits n p'.
Proof.
  intros Hfit (a & b & c & Hws)%three_elements Hlt Hmalloc.
  destruct (Reshape_zero_path_loop n p Hfit) as (p' & Hloop & Hzero & Hfit').
  exists p'. split; [|auto].
  unfold Reshape_workspace.
  rewrite (M_bind_Ok _ _ w w (perStreamMax n p))
    by (apply lift_Ok, Reshape_max_workspace_spec, Hfit).
  rewrite decide_True by lia.
  rewrite realloc_bind, Hmalloc, Hloop, Hws. reflexivity.
Qed.
End Reallocation.

(** C4. The pool size [Reshape] requires is [perStreamMax * 3], where
    [perStreamMax] is the maximum over the bound inputs of the maximum of the
    input's forward, backward-data and backward-filter scratch sizes: that is
    the size it compares with the current one and, when larger, asks of
    [cudaMalloc]; when the allocation succeeds the pool has that size and is
    sliced into 3 regions, the region of stream [g] at offset
    [g * perStreamMax]. *)
Theorem Reshape_workspace_required_size
    (be : Backend) (n : nat) (p : AlgorithmPlan) (sp : ScratchPool) (w : World) :
  plan_fits n p -> length (workspace sp) = 3%nat ->
  perStreamMax n p * 3 < SIZE_T_MODULUS ->
  Reshape_max_workspace (Z.of_nat n) p = Ok (perStreamMax n p) /\
  (perStreamMax n p * 3 <= workspaceSizeInBytes sp ->
     Reshape_workspace be (Z.of_nat n) (p, sp) w = Ok ((p, sp), w)) /\
  (workspaceSizeInBytes sp < perStreamMax n p * 3 ->
     exists st w',
       Reshape_workspace be (Z.of_nat n) (p, sp) w = Ok (st, w') /\
       malloc_requests w' = perStreamMax n p * 3 :: malloc_requests w) /\
  (forall ptr,
     workspaceSizeInBytes sp < perStreamMax n p * 3 ->
     cudaMalloc be (perStreamMax n p * 3) = Some ptr ->
     exists w',
       Reshape_workspace be (Z.of_nat n) (p, sp) w
       = Ok ((p, {| workspaceSizeInBytes := perStreamMax n p * 3;
                    workspaceData := ptr;
                    workspace := sliced ptr (perStreamMax n p) |}), w')).
Proof.
  intros Hfit Hws Hsmall.
  pose proof (perStreamMax_nonneg n p) as Hpos.
  assert (Htotal : size_mul (perStreamMax n p) CUDNN_STREAMS_DEPTHWISE
                   = perStreamMax n p * 3).
  { apply size_mul_small. unfold CUDNN_STREAMS_DEPTHWISE. lia. }
  split; [now apply Reshape_max_workspace_spec|]. split; [|split].
  - intros Hle. apply Reshape_workspace_keep; [exact Hfit | lia].
  - intros Hlt. destruct (cudaMalloc be (perStreamMax n p * 3)) as [ptr|] eqn:E.
    + eexists _, _. split.
      * apply Reshape_workspace_grow with (ptr := ptr); try assumption; [lia|].
        now rewrite Htotal.
      * cbn. now rewrite Htotal.
    + destruct (Reshape_workspace_no_memory be n p sp w) as (p' & Hrun & _);
        try assumption; [lia | now rewrite Htotal |].
      eexists _, _. split; [exact Hrun|]. cbn. now rewrite Htotal.
  - intros ptr Hlt Hmalloc. eexists.
    rewrite (Reshape_workspace_grow be n p sp w ptr); try assumption.
    + rewrite alias_is_sliced by lia. rewrite Htotal. reflexivity.
    + lia.
    + now rewrite Htotal.
Qed.

Lemma Reshape_workspace_required_size_witness :
  exists w',
    Reshape_workspace (backend_with_memory 16) 1
      ({| fwd_algo_ := [1]; bwd_filter_algo_ := [1]; bwd_data_algo_ := [1];
          workspace_fwd_sizes_ := [16]; workspace_bwd_data_sizes_ := [4];
          workspace_bwd_filter_sizes_ := [8] |}, pool example_layer)
      example_world
    = Ok (({| fwd_algo_ := [1]; bwd_filter_algo_ := [1]; bwd_data_algo_ := [1];
              workspace_fwd_sizes_ := [16]; workspace_bwd_data_sizes_ := [4];
              workspace_bwd_filter_sizes_ := [8] |},
           {| workspaceSizeInBytes := 48; workspaceData := 4096;
              workspace := [4096; 4112; 4128] |}), w').
Proof.
  destruct (Reshape_workspace_required_size (backend_with_memory 16) 1
              {| fwd_algo_ := [1]; bwd_filter_algo_ := [1]; bwd_data_algo_ := [1];
                 workspace_fwd_sizes_ := [16]; workspace_bwd_data_sizes_ := [4];
                 workspace_bwd_filter_sizes_ := [8] |}
              (pool example_layer) example_world)
    as (_ & _ & _ & Hgrow).
  - repeat split; cbn; lia.
  - reflexivity.
  - reflexivity.
  - destruct (Hgrow 4096) as (w' & Hrun); [reflexivity | reflexivity |].
    exists w'. exact Hrun.
Defined.

(** ** The scratch pool when the allocation fails *)

(** Whenever [Reshape] takes the failure path, the region pointer of stream 1
    it leaves behind is not null. *)
Lemma no_memory_region_not_null (current m : Z) :
  0 <= current -> current < size_mul m CUDNN_STREAMS_DEPTHWISE ->
  0 <= m < SIZE_T_MODULUS ->
  ptr_add NULL (size_mul 1 m) <> NULL.
Proof.
  intros Hc Hlt Hm. pose proof SIZE_T_MODULUS_pos as Hpos.
  unfold ptr_add, size_mul, NULL in *.
  rewrite Z.mul_1_l, Z.add_0_l, Z.mod_mod by lia.
  rewrite Z.mod_small by lia. intros ->.
  rewrite Z.mul_0_l, Z.mod_0_l in Hlt by lia. lia.
Qed.

(** C3 at a failing input: one bound input whose forward algorithm needs 16
    bytes, an empty pool, and a device without memory.  [Reshape] returns,
    the scratch sizes are 0, the algorithms are the zero-workspace defaults,
    the pool size is 0 and its pointer is null; the region pointers of
    streams 1 and 2 are 16 and 32, not null. *)
Theorem Reshape_allocation_failure_regions :
  exists l' w',
    Reshape example_framework backend_no_memory example_layer
      example_bottom example_top example_world = Ok (l', w') /\
    plan l' = {| fwd_algo_ := [CUDNN_CONVOLUTION_FWD_ALGO_IMPLICIT_GEMM];
                 bwd_filter_algo_ := [CUDNN_CONVOLUTION_BWD_FILTER_ALGO_0];
                 bwd_data_algo_ := [CUDNN_CONVOLUTION_BWD_DATA_ALGO_0];
                 workspace_fwd_sizes_ := [0];
                 workspace_bwd_data_sizes_ := [0];
                 workspace_bwd_filter_sizes_ := [0] |} /\
    malloc_requests w' = [48] /\
    workspaceSizeInBytes (pool l') = 0 /\
    workspaceData (pool l') = NULL /\
    workspace (pool l') = [NULL; 16; 32].
Proof. eexists _, _. split; [vm_compute; reflexivity|]. repeat split. Qed.

(** ** The scratch pool across calls of [Reshape] *)

Lemma Reshape_workspace_pool_step be n p sp w p' sp' w' :
  Reshape_workspace be n (p, sp) w = Ok ((p', sp'), w') ->
  pool_step be sp sp' w w'.
Proof.
  unfold Reshape_workspace. intros Hrun.
  m_step Hrun. m_lift Ha. case_decide as Hgrow.
  - rewrite realloc_bind in Hrun.
    set (total := size_mul a CUDNN_STREAMS_DEPTHWISE) in *.
    right. exists total.
    destruct (cudaMalloc be total) as [ptr|] eqn:Hmalloc.
    + m_step Hrun. apply M_ret_inv in Ha0 as (-> & ->).
      m_step Hrun. m_lift Ha0. apply M_ret_inv in Hrun as ([= -> ->] & ->).
      split; [reflexivity|]. split; [lia|]. left. exists ptr. auto.
    + m_step Hrun. m_step Ha0. m_lift Ha1. m_step Ha0. m_lift Ha2.
      apply M_ret_inv in Ha0 as (-> & ->).
      m_step Hrun. m_lift Ha0. apply M_ret_inv in Hrun as ([= -> ->] & ->).
      split; [reflexivity|]. split; [lia|]. right. auto.
  - apply M_ret_inv in Hrun as ([= -> ->] & ->). left. auto.
Qed.

Section ReshapeRuns.
Context {Dtype BlobProto : Type} `{Scalar Dtype}.
Variable fw : Framework Dtype BlobProto.
Local Abbreviation Layer := (CuDNNDepthwiseLayer Dtype BlobProto).

(** What [Reshape] leaves in the plan and in the pool is what lines 181-234
    make of the plan the queries produced and of the pool it found. *)
Lemma Reshape_inv be (l l' : Layer) bottom top w w' :
  Reshape fw be l bottom top w = Ok (l', w') ->
  exists b top' g d p1,
    DepthwiseLayer_Reshape fw (base l) bottom top = Some (b, top') /\
    num_spatial_axes_ b = 2 /\
    for_loop (Z.of_nat (length bottom))
      (Reshape_bottom be b (group_ l) (handle_ l) g) (descs l, plan l)
    = Ok (d, p1) /\
    Reshape_workspace be (Z.of_nat (length bottom)) (p1, pool l) w
    = Ok ((plan l', pool l'), w') /\
    base l' = b.
Proof.
  unfold Reshape. intros Hrun.
  m_next Hrun. destruct a as [b top'].
  do 14 m_next Hrun.
  destruct a12 as [d p1].
  m_step Hrun. destruct a12 as [p2 sp2].
  m_step Hrun.
  assert (Hw : w1 = w0).
  { destruct (bias_term_ b).
    - now apply lift_inv in Ha15 as (_ & ->).
    - now apply M_ret_inv in Ha15 as (_ & ->). }
  subst w1. apply M_ret_inv in Hrun as (-> & ->).
  eexists b, top', _, d, p1. cbn [plan pool base].
  split; [|split; [|split; [exact Ha13|split; [exact Ha14|reflexivity]]]].
  - destruct (DepthwiseLayer_Reshape fw (base l) bottom top); [|discriminate].
    now injection Ha as ->.
  - unfold CHECK_EQ in Ha0. case_decide; [congruence | discriminate].
Qed.

Lemma Reshape_pool_step be (l l' : Layer) bottom top w w' :
  Reshape fw be l bottom top w = Ok (l', w') ->
  pool_step be (pool l) (pool l') w w'.
Proof.
  intros (b & top' & g & d & p1 & _ & _ & _ & Hws & _)%Reshape_inv.
  eapply Reshape_workspace_pool_step, Hws.
Qed.

Lemma Reshape_run_grow_only calls (l : Layer) w states :
  Reshape_run fw calls l w = Ok states -> grow_only calls l w states.
Proof.
  revert l w states. induction calls as [|c calls IH]; intros l w states Hrun.
  - injection Hrun as <-. exact I.
  - cbn [Reshape_run] in Hrun.
    apply bind_Ok_inv in Hrun as ([l1 w1] & Hcall & Hrun).
    apply bind_Ok_inv in Hrun as (rest & Hrest & Hrun).
    injection Hrun as <-. cbn [grow_only]. split.
    + eapply Reshape_pool_step, Hcall.
    + apply IH, Hrest.
Qed.

Lemma pool_step_size be sp sp' w w' :
  pool_step be sp sp' w w' ->
  workspaceSizeInBytes sp <= workspaceSizeInBytes sp' \/
  (workspaceSizeInBytes sp' = 0 /\
   exists req, cudaMalloc be req = None /\ workspaceSizeInBytes sp < req).
Proof.
  intros [(_ & ->)|(req & _ & Hlt & [(ptr & _ & -> & _)|(Hnone & -> & _)])].
  - left. lia.
  - left. lia.
  - right. eauto.
Qed.
End ReshapeRuns.

Lemma grow_only_sorted {Dtype BlobProto : Type}
    calls (l : CuDNNDepthwiseLayer Dtype BlobProto) w states :
  grow_only calls l w states ->
  Forall (fun c => forall size, cudaMalloc (call_backend c) size <> None) calls ->
  Sorted Z.le (pool_sizes l states).
Proof.
  revert l w states. induction calls as [|c calls IH]; intros l w states.
  - destruct states; [|contradiction]. intros _ _. repeat constructor.
  - destruct states as [|[l1 w1] states]; [contradiction|].
    cbn [grow_only]. intros (Hstep & Hrest) Hmem.
    apply Forall_cons in Hmem as (Hc & Hmem).
    specialize (IH l1 w1 states Hrest Hmem).
    unfold pool_sizes in *. cbn [map fst]. constructor; [exact IH|].
    constructor. apply pool_step_size in Hstep as [Hle|(_ & req & Hnone & _)].
    + exact Hle.
    + now apply Hc in Hnone.
Qed.

(** C5. Across successive calls of [Reshape], each call either makes no
    request to [cudaMalloc] and leaves the pool as it was (also when the new
    plan needs less than the pool holds), or makes one request, for strictly
    more than the pool holds, and then the pool has the requested size, unless
    that allocation fails and the size is reset to 0.  So the pool size never
    decreases except by that reset: while allocations succeed the sizes along
    the run are non-decreasing. *)
Theorem scratch_pool_grow_only {Dtype BlobProto : Type} `{Scalar Dtype}
    (fw : Framework Dtype BlobProto) (calls : list ReshapeCall)
    (l : CuDNNDepthwiseLayer Dtype BlobProto) (w : World)
    (states : list (CuDNNDepthwiseLayer Dtype BlobProto * World)) :
  Reshape_run fw calls l w = Ok states ->
  grow_only calls l w states /\
  (Forall (fun c => forall size, cudaMalloc (call_backend c) size <> None) calls ->
   Sorted Z.le (pool_sizes l states)).
Proof.
  intros Hrun. pose proof (Reshape_run_grow_only fw calls l w states Hrun) as Hg.
  split; [exact Hg|]. intros Hmem. exact (grow_only_sorted calls l w states Hg Hmem).
Qed.

Lemma scratch_pool_grow_only_witness :
  exists states,
    Reshape_run example_framework example_calls example_layer example_world
    = Ok states /\
    pool_sizes example_layer states = [0; 48; 48; 0] /\
    grow_only example_calls example_layer example_world states.
Proof.
  destruct (Reshape_run example_framework example_calls example_layer
              example_world) as [states|f] eqn:Hrun;
    [|vm_compute in Hrun; discriminate].
  exists states. split; [reflexivity|]. split.
  - vm_compute in Hrun. injection Hrun as <-. reflexivity.
  - apply (scratch_pool_grow_only example_framework example_calls
             example_layer example_world states Hrun).
Defined.

(** ** The configuration checks *)

Lemma no_check_Ok {A : Type} (a : A) : no_check (Ok a).
Proof. intros msg. discriminate. Qed.

Lemma no_check_mret {A : Type} (a : A) : no_check (mret a).
Proof. intros msg. discriminate. Qed.

Lemma no_check_bind {A B : Type} (c : Res A) (k : A -> Res B) :
  no_check c -> (forall a, no_check (k a)) -> no_check (c ≫= k).
Proof.
  intros Hc Hk msg. destruct c as [a|f]; [apply Hk|].
  intros E. apply (Hc msg). injection E as ->. reflexivity.
Qed.

Lemma no_check_framework {A : Type} (r : option A) : no_check (framework r).
Proof. intros msg. destruct r; discriminate. Qed.

Lemma no_check_load {A : Type} (p : list A) idx : no_check (load p idx).
Proof.
  intros msg. unfold load. case_decide; [|discriminate].
  destruct (p !! Z.to_nat idx); discriminate.
Qed.

Lemma no_check_store {A : Type} (p : list A) idx v : no_check (store p idx v).
Proof. intros msg. unfold store. case_decide; discriminate. Qed.

Lemma no_check_caffe_set {A : Type} N (alpha : A) (Y : list A) : no_check (caffe_set N alpha Y).
Proof. intros msg. unfold caffe_set. case_decide; discriminate. Qed.

Lemma no_check_for_from {A : Type} (body : Z -> A -> Res A) count i s :
  (forall j t, no_check (body j t)) -> no_check (for_from i count body s).
Proof.
  intros Hbody. revert i s. induction count as [|c IH]; intros i s.
  - apply no_check_Ok.
  - cbn [for_from]. apply no_check_bind; [apply Hbody | intros; apply IH].
Qed.

Lemma no_check_for_loop {A : Type} (body : Z -> A -> Res A) n s :
  (forall j t, no_check (body j t)) -> no_check (for_loop n body s).
Proof. apply no_check_for_from. Qed.

Lemma no_checkM_ret {A : Type} (a : A) : no_checkM (mret a).
Proof. intros w msg. discriminate. Qed.

Lemma no_checkM_lift {A : Type} (r : Res A) : no_check r -> no_checkM (lift r).
Proof.
  intros Hr w msg. unfold lift. destruct r as [a|f]; [discriminate|].
  intros E. apply (Hr msg). congruence.
Qed.

Lemma no_checkM_bind {A B : Type} (c : M A) (k : A -> M B) :
  no_checkM c -> (forall a, no_checkM (k a)) -> no_checkM (c ≫= k).
Proof.
  intros Hc Hk w msg. unfold mbind, M_bind.
  destruct (c w) as [[a w1]|f] eqn:E; [apply Hk|].
  intros E'. apply (Hc w msg). congruence.
Qed.

Lemma no_checkM_for_fromM {A : Type} (body : Z -> A -> M A) count i s :
  (forall j t, no_checkM (body j t)) -> no_checkM (for_fromM i count body s).
Proof.
  intros Hbody. revert i s. induction count as [|c IH]; intros i s.
  - apply no_checkM_ret.
  - cbn [for_fromM]. apply no_checkM_bind; [apply Hbody | intros; apply IH].
Qed.

Lemma no_checkM_for_loopM {A : Type} (body : Z -> A -> M A) n s :
  (forall j t, no_checkM (body j t)) -> no_checkM (for_loopM n body s).
Proof. apply no_checkM_for_fromM. Qed.

Lemma no_checkM_new_array {A : Type} a n (init : A) : no_checkM (new_array a n init).
Proof. intros w msg. discriminate. Qed.

Lemma no_check_int_div a b : no_check (int_div a b).
Proof. intros msg. unfold int_div. case_decide; discriminate. Qed.

Lemma no_check_int_mod a b : no_check (int_mod a b).
Proof. intros msg. unfold int_mod. case_decide; discriminate. Qed.

Lemma no_check_BACKEND_CHECK be call : no_check (BACKEND_CHECK be call).
Proof. intros msg. unfold BACKEND_CHECK. destruct (call_succeeds be call); discriminate. Qed.

Lemma no_check_checked_query call answer : no_check (checked_query call answer).
Proof. intros msg. destruct answer; discriminate. Qed.

Lemma no_checkM_acquire mk : no_checkM (acquire mk).
Proof. intros w msg. discriminate. Qed.

Lemma no_checkM_runtime_release r : no_checkM (runtime_release r).
Proof. intros w msg. discriminate. Qed.

Lemma no_checkM_cudaFree p : no_checkM (cudaFree p).
Proof.
  unfold cudaFree. case_decide; [apply no_checkM_ret | apply no_checkM_runtime_release].
Qed.

Lemma no_checkM_cudaMalloc_call be size : no_checkM (cudaMalloc_call be size).
Proof. intros w msg. unfold cudaMalloc_call. destruct (cudaMalloc be size); discriminate. Qed.

(** Decompose a computation into the steps above. *)
Ltac no_check_steps :=
  repeat first
    [ apply no_checkM_bind; [|intros ?]
    | apply no_check_bind; [|intros ?]
    | apply no_checkM_lift
    | apply no_checkM_for_loopM; intros ? ?
    | apply no_check_for_loop; intros ? ?
    | apply no_check_for_from; intros ? ?
    | apply no_checkM_ret
    | apply no_check_mret
    | apply no_check_Ok
    | apply no_check_framework
    | apply no_check_load
    | apply no_check_store
    | apply no_check_caffe_set
    | apply no_check_int_div
    | apply no_check_int_mod
    | apply no_check_BACKEND_CHECK
    | apply no_check_checked_query
    | apply no_checkM_new_array
    | apply no_checkM_acquire
    | apply no_checkM_runtime_release
    | apply no_checkM_cudaFree
    | apply no_checkM_cudaMalloc_call
    | match goal with
      | |- no_checkM (match ?x with (_, _) => _ end) => destruct x
      | |- no_check (match ?x with (_, _) => _ end) => destruct x
      | |- no_checkM (match ?x with Some _ => _ | None => _ end) => destruct x
      | |- no_checkM (if ?b then _ else _) => destruct b
      | |- no_check (match ?x with [] => _ | _ :: _ => _ end) => destruct x
      end ].

Section ConfigurationChecks.
Context {Dtype BlobProto : Type} `{Scalar Dtype}.
Variables (fw : Framework Dtype BlobProto) (be : Backend).
Local Abbreviation Layer := (CuDNNDepthwiseLayer Dtype BlobProto).

Lemma CHECK_EQ_cases a b msg :
  (a = b /\ CHECK_EQ a b msg = Ok tt) \/
  (a <> b /\ CHECK_EQ a b msg = Fail (CheckFailed msg)).
Proof. unfold CHECK_EQ. case_decide; auto. Qed.

Lemma LayerSetUp_check (l : Layer) bottom top w b :
  DepthwiseLayer_LayerSetUp fw (base l) bottom top = Some b ->
  convolution_param_group (layer_param_ b) <> 0 ->
  (Z.rem (channels_ b) (convolution_param_group (layer_param_ b)) = 0 ->
   no_check (LayerSetUp fw be l bottom top w)) /\
  (Z.rem (channels_ b) (convolution_param_group (layer_param_ b)) <> 0 ->
   LayerSetUp fw be l bottom top w = Fail (CheckFailed DIVISIBLE_MSG)).
Proof.
  intros Hbase Hgroup. unfold LayerSetUp.
  rewrite Hbase. rewrite (M_bind_Ok _ _ w w b) by reflexivity.
  unfold int_mod. rewrite decide_False by exact Hgroup.
  erewrite (M_bind_Ok _ _ w w) by reflexivity.
  destruct (CHECK_EQ_cases 0
              (Z.rem (channels_ b) (convolution_param_group (layer_param_ b)))
              DIVISIBLE_MSG) as [(Heq & Hcheck)|(Hne & Hcheck)]; rewrite Hcheck.
  - split; [|intros Hrem; congruence]. intros _.
    erewrite (M_bind_Ok _ _ w w) by reflexivity.
    revert w. change (no_checkM ?c) with (forall w, no_check (c w)).
    unfold LayerSetUp_defaults, LayerSetUp_stream, LayerSetUp_descs,
      createFilterDesc, createTensor4dDesc, createConvolutionDesc.
    no_check_steps.
  - split; [intros Hrem; congruence|]. intros _. reflexivity.
Qed.

Lemma Reshape_check (l : Layer) bottom top w b top' :
  DepthwiseLayer_Reshape fw (base l) bottom top = Some (b, top') ->
  (num_spatial_axes_ b = 2 -> no_check (Reshape fw be l bottom top w)) /\
  (num_spatial_axes_ b <> 2 ->
   Reshape fw be l bottom top w = Fail (CheckFailed SPATIAL_MSG)).
Proof.
  intros Hbase. unfold Reshape.
  rewrite Hbase. rewrite (M_bind_Ok _ _ w w (b, top')) by reflexivity.
  destruct (CHECK_EQ_cases 2 (num_spatial_axes_ b) SPATIAL_MSG)
    as [(Heq & Hcheck)|(Hne & Hcheck)]; rewrite Hcheck.
  - split; [|intros Hax; congruence]. intros _.
    erewrite (M_bind_Ok _ _ w w) by reflexivity.
    revert w. change (no_checkM ?c) with (forall w, no_check (c w)).
    unfold Reshape_bottom, setTensor4dDesc, setTensor4dDesc_strided,
      setConvolutionDesc, Reshape_workspace, Reshape_max_workspace,
      Reshape_reduce, Reshape_zero_path, Reshape_null_workspaces,
      Reshape_alias_workspaces.
    no_check_steps.
  - split; [intros Hax; congruence|]. intros _. reflexivity.
Qed.

(** C6. Once the base class has done its part, [LayerSetUp] stops at its
    [CHECK_EQ] exactly when the channel count is not divisible by the group
    count, and [Reshape] stops at its [CHECK_EQ] exactly when the number of
    spatial axes is not 2; in both cases no layer is returned.  When the
    channel count is divisible and there are 2 spatial axes, neither function
    ends in a failed check. *)
Theorem configuration_checks (l : Layer) bottom top w :
  (forall b,
     DepthwiseLayer_LayerSetUp fw (base l) bottom top = Some b ->
     convolution_param_group (layer_param_ b) <> 0 ->
     (~ (convolution_param_group (layer_param_ b) | channels_ b) <->
      LayerSetUp fw be l bottom top w = Fail (CheckFailed DIVISIBLE_MSG)) /\
     ((convolution_param_group (layer_param_ b) | channels_ b) ->
      no_check (LayerSetUp fw be l bottom top w))) /\
  (forall b top',
     DepthwiseLayer_Reshape fw (base l) bottom top = Some (b, top') ->
     (num_spatial_axes_ b <> 2 <->
      Reshape fw be l bottom top w = Fail (CheckFailed SPATIAL_MSG)) /\
     (num_spatial_axes_ b = 2 -> no_check (Reshape fw be l bottom top w))).
Proof.
  split.
  - intros b Hbase Hgroup.
    destruct (LayerSetUp_check l bottom top w b Hbase Hgroup) as (Hpass & Hstop).
    pose proof (Z.rem_divide (channels_ b)
                  (convolution_param_group (layer_param_ b)) Hgroup) as Hdiv.
    split; [split|].
    + intros Hnd. apply Hstop. intros Hrem. apply Hnd, Hdiv, Hrem.
    + intros Hfail Hd. apply Hdiv in Hd. exact (Hpass Hd _ Hfail).
    + intros Hd. apply Hpass, Hdiv, Hd.
  - intros b top' Hbase.
    destruct (Reshape_check l bottom top w b top' Hbase) as (Hpass & Hstop).
    split; [split|].
    + exact Hstop.
    + intros Hfail Hax. exact (Hpass Hax _ Hfail).
    + exact Hpass.
Qed.
End ConfigurationChecks.

Lemma configuration_checks_witness :
  LayerSetUp example_framework (backend_with_memory 16) (fresh_layer_with 3 2)
    example_bottom example_top fresh_world = Fail (CheckFailed DIVISIBLE_MSG) /\
  no_check (LayerSetUp example_framework (backend_with_memory 16)
              (fresh_layer_with 2 2) example_bottom example_top fresh_world) /\
  Reshape example_framework (backend_with_memory 16) (fresh_layer_with 1 3)
    example_bottom example_top fresh_world = Fail (CheckFailed SPATIAL_MSG).
Proof.
  split; [|split].
  - destruct (configuration_checks example_framework (backend_with_memory 16)
                (fresh_layer_with 3 2) example_bottom example_top fresh_world)
      as (Hsetup & _).
    destruct (Hsetup _ eq_refl) as ((Hstop & _) & _); [cbn; lia|].
    apply Hstop. intros [q Hq]. cbn in Hq. lia.
  - destruct (configuration_checks example_framework (backend_with_memory 16)
                (fresh_layer_with 2 2) example_bottom example_top fresh_world)
      as (Hsetup & _).
    destruct (Hsetup _ eq_refl) as (_ & Hpass); [cbn; lia|].
    apply Hpass. exists 2. reflexivity.
  - destruct (configuration_checks example_framework (backend_with_memory 16)
                (fresh_layer_with 1 3) example_bottom example_top fresh_world)
      as (_ & Hreshape).
    destruct (Hreshape _ _ eq_refl) as ((Hstop & _) & _).
    apply Hstop. cbn. lia.
Defined.

(** ** Serialisation *)

Section Serialisation.
Context {Dtype BlobProto : Type} `{Scalar Dtype}.
Variable fw : Framework Dtype BlobProto.
Local Abbreviation Layer := (CuDNNDepthwiseLayer Dtype BlobProto).

(** The loop of [ToProto] appends the serialised form of each blob after the
    first, in order. *)
Lemma ToProto_blobs_loop (write_diff : bool) (pre rest : list (Blob Dtype))
    (param : LayerParameter BlobProto) :
  for_from (Z.of_nat (length pre)) (length rest)
    (ToProto_blob fw (pre ++ rest) write_diff) param
  = Ok {| convolution_param_group := convolution_param_group param;
          param_blobs := param_blobs param
                         ++ map (fun b => Blob_ToProto fw b write_diff) rest |}.
Proof.
  revert pre param. induction rest as [|blob rest IH]; intros pre param.
  - cbn. rewrite app_nil_r. now destruct param.
  - cbn [for_from length].
    assert (Hload : load (pre ++ blob :: rest) (Z.of_nat (length pre)) = Ok blob).
    { apply load_Ok_iff. split; [lia|]. rewrite Nat2Z.id.
      now rewrite lookup_app_r, Nat.sub_diag by lia. }
    assert (Hstep : ToProto_blob fw (pre ++ blob :: rest) write_diff
                      (Z.of_nat (length pre)) param
                    = Ok {| convolution_param_group := convolution_param_group param;
                            param_blobs := param_blobs param
                              ++ [Blob_ToProto fw blob write_diff] |}).
    { unfold ToProto_blob. now rewrite Hload. }
    rewrite Hstep, bind_Ok.
    replace (Z.of_nat (length pre) + 1) with (Z.of_nat (length (pre ++ [blob])))
      by (rewrite length_app; cbn; lia).
    replace (pre ++ blob :: rest) with ((pre ++ [blob]) ++ rest)
      by now rewrite <- app_assoc.
    rewrite IH. cbn [convolution_param_group param_blobs map].
    now rewrite <- app_assoc.
Qed.

Lemma CuDNNToCaffe_ignores_mask (l l' : Layer) (m : Blob Dtype) :
  CuDNNToCaffe l = Ok l' -> CuDNNToCaffe (set_mask_ l m) = Ok (set_mask_ l' m).
Proof.
  unfold CuDNNToCaffe. cbn [set_mask_ base caffe_weight_ group_].
  destruct (blobs_ (base l)) as [|blob0 others].
  - now intros [= <-].
  - intros Hrun. apply bind_Ok_inv in Hrun as (cpg & Hcpg & Hrun).
    apply bind_Ok_inv in Hrun as (c & Hloop & Hrun).
    injection Hrun as <-. rewrite Hcpg, bind_Ok, Hloop, bind_Ok. reflexivity.
Qed.

Lemma ToProto_unfold (l l' : Layer) (blob0 : Blob Dtype) others write_diff :
  blobs_ (base l) = blob0 :: others ->
  CuDNNToCaffe l = Ok l' ->
  ToProto fw l write_diff
  = Ok ({| convolution_param_group :=
             convolution_param_group (layer_param_ (base l));
           param_blobs :=
             Blob_ToProto fw (caffe_weight_ l') write_diff
             :: map (fun b => Blob_ToProto fw b write_diff) others |}, l').
Proof.
  intros Hb Hrun. unfold ToProto. rewrite Hb.
  rewrite decide_True by (cbn [length]; lia).
  rewrite Hrun, bind_Ok.
  assert (Hb' : blobs_ (base l') = blob0 :: others).
  { apply CuDNNToCaffe_inv in Hrun as [->|(c & ->)]; exact Hb. }
  rewrite Hb'. cbn [length].
  replace (Z.to_nat (Z.of_nat (S (length others)) - 1)) with (length others)
    by lia.
  change 1 with (Z.of_nat (length [blob0])).
  change (blob0 :: others) with ([blob0] ++ others).
  rewrite ToProto_blobs_loop. reflexivity.
Qed.

(** C7. With bound parameters, [ToProto] first runs [CuDNNToCaffe] and then
    writes, as the weight blob, the compact weight that conversion left, and
    after it the blobs from index 1 on: the output has a blob for each
    parameter blob, the grouped blob [blobs_[0]] is not among them, and the
    output is the same whatever the mask holds. *)
Theorem ToProto_writes_compact (l : Layer) (blob0 : Blob Dtype) others write_diff :
  blobs_ (base l) = blob0 :: others ->
  valid_configuration l -> buffers_fit l ->
  exists l' param,
    ToProto fw l write_diff = Ok (param, l') /\
    CuDNNToCaffe l = Ok l' /\
    param_blobs param
    = Blob_ToProto fw (caffe_weight_ l') write_diff
      :: map (fun b => Blob_ToProto fw b write_diff) others /\
    (forall m, ToProto fw (set_mask_ l m) write_diff = Ok (param, set_mask_ l' m)).
Proof.
  intros Hb Hv Hfit.
  destruct (CuDNNToCaffe_Ok l blob0 others Hb Hv Hfit) as (c & Hrun & _).
  eexists _, _. split; [apply (ToProto_unfold l _ blob0 others _ Hb Hrun)|].
  split; [exact Hrun|]. split; [reflexivity|].
  intros m.
  rewrite (ToProto_unfold (set_mask_ l m) (set_mask_ (write_back_compact l c) m)
             blob0 others write_diff Hb);
    [reflexivity | now apply CuDNNToCaffe_ignores_mask].
Qed.
End Serialisation.

Lemma ToProto_writes_compact_witness :
  exists l' param,
    ToProto example_framework example_layer true = Ok (param, l') /\
    param_blobs param
    = [ data_ (caffe_weight_ l') ++ diff_ (caffe_weight_ l');
        seqZ 300 8 ++ seqZ 400 8 ].
Proof.
  destruct (ToProto_writes_compact example_framework example_layer _ _ true
              eq_refl) as (l' & param & Hrun & _ & Hblobs & _).
  - repeat split; vm_compute; first [reflexivity | discriminate].
  - repeat split; vm_compute; first [reflexivity | discriminate].
  - exists l', param. split; [exact Hrun|]. rewrite Hblobs. reflexivity.
Defined.

(** ** Teardown *)

Lemma not_held_drop (r r' : Resource) (w : World) :
  r ∉ held w -> r ∉ held (drop_resource r' w).
Proof.
  intros Hr Hin. apply Hr. cbn in Hin.
  now apply list_elem_of_filter in Hin as (_ & Hin).
Qed.

Lemma dropped_not_held (r : Resource) (w : World) :
  r ∉ held (drop_resource r w).
Proof.
  intros Hin. cbn in Hin. apply list_elem_of_filter in Hin as (Hne & _).
  now apply Hne.
Qed.

Lemma keeps_released_ret {A} r (a : A) : keeps_released r (mret a).
Proof. intros w b w' [= _ <-]. auto. Qed.

Lemma keeps_released_lift {A} r (c : Res A) : keeps_released r (lift c).
Proof. intros w a w' (_ & ->)%lift_inv. auto. Qed.

Lemma keeps_released_bind {A B} r (c : M A) (k : A -> M B) :
  keeps_released r c -> (forall a, keeps_released r (k a)) ->
  keeps_released r (c ≫= k).
Proof.
  intros Hc Hk w b w' (a & w1 & Hrun & Hrest)%M_bind_inv Hr.
  eapply Hk; [exact Hrest|]. eapply Hc; eauto.
Qed.

Lemma keeps_released_for_fromM {A} r (body : Z -> A -> M A) count i s :
  (forall j t, keeps_released r (body j t)) ->
  keeps_released r (for_fromM i count body s).
Proof.
  intros Hbody. revert i s. induction count as [|c IH]; intros i s.
  - apply keeps_released_ret.
  - cbn [for_fromM]. apply keeps_released_bind; [apply Hbody | intros; apply IH].
Qed.

Lemma keeps_released_for_loopM {A} r (body : Z -> A -> M A) n s :
  (forall j t, keeps_released r (body j t)) ->
  keeps_released r (for_loopM n body s).
Proof. apply keeps_released_for_fromM. Qed.

Lemma keeps_released_runtime_release r r' : keeps_released r (runtime_release r').
Proof. intros w a w' [= _ <-]. apply not_held_drop. Qed.

Lemma keeps_released_delete_array r a : keeps_released r (delete_array a).
Proof.
  intros w u w'. unfold delete_array. case_decide; [|discriminate].
  intros [= _ <-]. apply not_held_drop.
Qed.

Lemma keeps_released_cudaFree r p : keeps_released r (cudaFree p).
Proof.
  unfold cudaFree. case_decide;
    [apply keeps_released_ret | apply keeps_released_runtime_release].
Qed.

Ltac keeps_released_steps :=
  repeat first
    [ apply keeps_released_bind; [|intros ?]
    | apply keeps_released_lift
    | apply keeps_released_ret
    | apply keeps_released_for_loopM; intros ? ?
    | apply keeps_released_runtime_release
    | apply keeps_released_delete_array
    | apply keeps_released_cudaFree
    | match goal with
      | |- keeps_released _ (if ?b then _ else _) => destruct b
      end ].

Lemma releases_bind {A B} r (c : M A) (k : A -> M B) :
  (forall a, releases r (k a)) -> releases r (c ≫= k).
Proof. intros Hk w b w' (a & w1 & _ & Hrest)%M_bind_inv. eapply Hk, Hrest. Qed.

Lemma releases_delete_array a : releases (HostArray a) (delete_array a).
Proof.
  intros w u w'. unfold delete_array. case_decide; [|discriminate].
  intros [= _ <-]. apply dropped_not_held.
Qed.

Lemma needs_bind {A B} r (c : M A) (k : A -> M B) :
  keeps_released r c -> (forall a, needs r (k a)) -> needs r (c ≫= k).
Proof.
  intros Hc Hk w b w' Hr (a & w1 & Hrun & Hrest)%M_bind_inv.
  eapply Hk; [|exact Hrest]. eapply Hc; eauto.
Qed.

Lemma needs_delete_array a : needs (HostArray a) (delete_array a).
Proof.
  intros w u w' Hr. unfold delete_array. now rewrite decide_False by exact Hr.
Qed.

Lemma only_undefined_ret {A} (a : A) : only_undefined (mret a).
Proof. intros w f. discriminate. Qed.

Lemma only_undefined_load {A} (p : list A) idx : only_undefined (lift (load p idx)).
Proof.
  intros w f. unfold lift, load. case_decide.
  - destruct (p !! Z.to_nat idx); [discriminate | now intros [= <-]].
  - now intros [= <-].
Qed.

Lemma only_undefined_bind {A B} (c : M A) (k : A -> M B) :
  only_undefined c -> (forall a, only_undefined (k a)) -> only_undefined (c ≫= k).
Proof.
  intros Hc Hk w f. unfold mbind, M_bind.
  destruct (c w) as [[a w1]|f'] eqn:E.
  - apply Hk.
  - intros [= <-]. eapply Hc, E.
Qed.

Lemma only_undefined_for_fromM {A} (body : Z -> A -> M A) count i s :
  (forall j t, only_undefined (body j t)) ->
  only_undefined (for_fromM i count body s).
Proof.
  intros Hbody. revert i s. induction count as [|c IH]; intros i s.
  - apply only_undefined_ret.
  - cbn [for_fromM]. apply only_undefined_bind; [apply Hbody | intros; apply IH].
Qed.

Lemma only_undefined_for_loopM {A} (body : Z -> A -> M A) n s :
  (forall j t, only_undefined (body j t)) ->
  only_undefined (for_loopM n body s).
Proof. apply only_undefined_for_fromM. Qed.

Lemma only_undefined_runtime_release r : only_undefined (runtime_release r).
Proof. intros w f. discriminate. Qed.

Lemma only_undefined_delete_array a : only_undefined (delete_array a).
Proof.
  intros w f. unfold delete_array. case_decide; [discriminate | now intros [= <-]].
Qed.

Lemma only_undefined_cudaFree p : only_undefined (cudaFree p).
Proof.
  unfold cudaFree. case_decide;
    [apply only_undefined_ret | apply only_undefined_runtime_release].
Qed.

Ltac only_undefined_steps :=
  repeat first
    [ apply only_undefined_bind; [|intros ?]
    | apply only_undefined_load
    | apply only_undefined_ret
    | apply only_undefined_for_loopM; intros ? ?
    | apply only_undefined_runtime_release
    | apply only_undefined_delete_array
    | apply only_undefined_cudaFree
    | match goal with
      | |- only_undefined (if ?b then _ else _) => destruct b
      end ].

Section Teardown.
Context {Dtype BlobProto : Type}.
Local Abbreviation Layer := (CuDNNDepthwiseLayer Dtype BlobProto).

Lemma destructor_not_set_up (l : Layer) (w : World) :
  handles_setup_ l = false -> destructor l w = Ok (tt, w).
Proof. intros Hs. unfold destructor. now rewrite Hs. Qed.

Lemma destructor_releases (l : Layer) :
  handles_setup_ l = true ->
  releases (HostArray arr_workspace_bwd_filter_sizes_) (destructor l).
Proof.
  intros Hs. unfold destructor. rewrite Hs. cbn [negb].
  repeat (apply releases_bind; intros ?). apply releases_delete_array.
Qed.

Lemma destructor_needs (l : Layer) :
  handles_setup_ l = true ->
  needs (HostArray arr_workspace_bwd_filter_sizes_) (destructor l).
Proof.
  intros Hs. unfold destructor, destroy_descs, destroy_stream.
  rewrite Hs. cbn [negb].
  repeat (apply needs_bind; [keeps_released_steps | intros ?]).
  apply needs_delete_array.
Qed.

Lemma destructor_only_undefined (l : Layer) : only_undefined (destructor l).
Proof.
  unfold destructor, destroy_descs, destroy_stream.
  destruct (negb (handles_setup_ l)); only_undefined_steps.
Qed.

(** C9, amended. The destructor does nothing when setup was never completed.
    After a completed setup it releases what the layer holds and assigns no
    member, so a second run right after a first one that returned deletes
    arrays that are no longer held: it is undefined behaviour, not a no-op. *)
Theorem destructor_once (l : Layer) (w : World) :
  (handles_setup_ l = false -> destructor l w = Ok (tt, w)) /\
  (handles_setup_ l = true ->
   forall w', destructor l w = Ok (tt, w') ->
              destructor l w' = Fail UndefinedBehavior).
Proof.
  split; [apply destructor_not_set_up|].
  intros Hs w' Hrun.
  pose proof (destructor_releases l Hs w tt w' Hrun) as Hgone.
  destruct (destructor l w') as [[u w'']|f] eqn:Hagain.
  - exfalso. exact (destructor_needs l Hs w' u w'' Hgone Hagain).
  - f_equal. eapply destructor_only_undefined, Hagain.
Qed.
End Teardown.

Lemma destructor_once_witness :
  destructor fresh_layer fresh_world = Ok (tt, fresh_world) /\
  exists w',
    destructor example_layer example_world = Ok (tt, w') /\
    held w' = [] /\
    destructor example_layer w' = Fail UndefinedBehavior.
Proof.
  split.
  - apply (destructor_once fresh_layer fresh_world). reflexivity.
  - destruct (destructor example_layer example_world) as [[[] w']|f] eqn:Hrun;
      [|vm_compute in Hrun; discriminate].
    exists w'. split; [reflexivity|]. split.
    + vm_compute in Hrun. injection Hrun as <-. reflexivity.
    + apply (destructor_once example_layer example_world);
        [reflexivity | exact Hrun].
Defined.

(** C9 as stated fails on the concrete layer: the first teardown returns, the
    second is undefined behaviour. *)
Lemma destructor_twice_faults :
  exists w',
    destructor example_layer example_world = Ok (tt, w') /\
    destructor example_layer w' = Fail UndefinedBehavior.
Proof. eexists. split; vm_compute; reflexivity. Qed.

(** ** The concrete layer is what [LayerSetUp] makes *)

Example LayerSetUp_example :
  LayerSetUp example_framework (backend_with_memory 16) fresh_layer
    example_bottom example_top fresh_world
  = (l ← CaffeToCuDNN example_layer; Ok (l, example_world)).
Proof. vm_compute. reflexivity. Qed.

(* ===================================================================== *)
(** * Further properties *)
(* ===================================================================== *)

(** ** Buffers are what their entries are *)

Lemma load_ext {A} (p q : list A) :
  (forall idx, load p idx = load q idx) -> p = q.
Proof.
  intros Hpq. apply list_eq. intros i. apply option_eq. intros v.
  assert (E : forall l : list A, l !! i = Some v <-> load l (Z.of_nat i) = Ok v).
  { intros l. rewrite load_Ok_iff, Nat2Z.id. intuition lia. }
  now rewrite !E, Hpq.
Qed.

Lemma load_length {A} (p q : list A) :
  (forall idx, load p idx = load q idx) -> length p = length q.
Proof. now intros ->%load_ext. Qed.

Lemma caffe_set_load_beyond {A} N (alpha : A) (p p' : list A) idx :
  caffe_set N alpha p = Ok p' -> N <= idx -> load p' idx = load p idx.
Proof.
  intros (HN & ->)%caffe_set_inv Hi. unfold load. case_decide; [|reflexivity].
  assert (Hle : (Z.to_nat N <= Z.to_nat idx)%nat) by lia.
  rewrite lookup_app_r by (rewrite length_replicate; exact Hle).
  rewrite length_replicate, lookup_drop.
  replace (Z.to_nat N + (Z.to_nat idx - Z.to_nat N))%nat with (Z.to_nat idx)
    by lia.
  reflexivity.
Qed.

Lemma load_negative {A} (p : list A) idx : idx < 0 -> load p idx = Fail UndefinedBehavior.
Proof. intros Hi. unfold load. now rewrite decide_False by lia. Qed.

(** ** Every position of a layout is the index of one entry *)

Lemma idx_caffe_inj kd i k i' k' :
  0 <= k < kd -> 0 <= k' < kd ->
  idx_caffe kd i k = idx_caffe kd i' k' -> i = i' /\ k = k'.
Proof.
  intros Hk Hk'. unfold idx_caffe. intros E.
  assert (i = i') by nia. subst. split; [reflexivity | lia].
Qed.

Lemma idx_caffe_decompose kd n p :
  0 < kd -> 0 <= p < n * kd ->
  exists i k, 0 <= i < n /\ 0 <= k < kd /\ p = idx_caffe kd i k.
Proof.
  intros Hkd Hp. exists (p / kd), (p mod kd).
  pose proof (Z.mod_pos_bound p kd Hkd) as Hmod.
  pose proof (Z.div_mod p kd ltac:(lia)) as Hdm.
  assert (0 <= p / kd) by (apply Z.div_pos; lia).
  assert (p / kd < n) by (apply Z.div_lt_upper_bound; nia).
  unfold idx_caffe. repeat split; lia.
Qed.

Lemma idx_cudnn_decompose cpg kd n p :
  0 < cpg -> 0 < kd -> 0 <= p < n * cpg * kd ->
  exists i c k,
    0 <= i < n /\ 0 <= c < cpg /\ 0 <= k < kd /\ p = idx_cudnn cpg kd i c k.
Proof.
  intros Hc Hkd Hp.
  destruct (idx_caffe_decompose kd (n * cpg) p Hkd Hp) as (row & k & Hrow & Hk & ->).
  destruct (idx_caffe_decompose cpg n row Hc) as (i & c & Hi & Hci & ->); [lia|].
  exists i, c, k. unfold idx_cudnn, idx_caffe. repeat split; lia.
Qed.

(** A position of the grouped layout either is the backend index of a compact
    entry or is the index of none. *)
Lemma backend_index_or_not multiplier cpg kd n p :
  0 < multiplier -> 0 < cpg -> 0 < kd -> 0 <= p < n * cpg * kd ->
  (exists i k, 0 <= i < n /\ 0 <= k < kd /\ p = backend_index multiplier cpg kd i k) \/
  (forall i k, 0 <= i < n -> 0 <= k < kd -> p <> backend_index multiplier cpg kd i k).
Proof.
  intros Hm Hc Hkd Hp.
  destruct (idx_cudnn_decompose cpg kd n p Hc Hkd Hp)
    as (i & c & k & Hi & Hci & Hk & ->).
  destruct (decide (c = Z.rem (Z.quot i multiplier) cpg)) as [->|Hne].
  - left. exists i, k. auto.
  - right. intros i' k' Hi' Hk' E. unfold backend_index in E.
    apply idx_cudnn_inj in E; try assumption.
    + destruct E as (-> & -> & _). now apply Hne.
    + apply channel_slot_range; lia.
Qed.

(** ** Gathering one buffer out of the grouped layout *)

Section Gather.
Context {A : Type}.
Variables (kd n : Z).
Variables (src : Z -> Z -> Res A) (dst0 : list A).

Local Abbreviation gath := (gathered kd n src dst0).

Lemma gathered_init : gath dst0 0 0.
Proof.
  split; [reflexivity|]. split.
  - intros i' k' Hi' Hk' [L|[-> L]]; lia.
  - reflexivity.
Qed.

Lemma gathered_store dst dst' i k v :
  gath dst i k -> 0 <= i < n -> 0 <= k < kd ->
  src i k = Ok v -> store dst (idx_caffe kd i k) v = Ok dst' ->
  gath dst' i (k + 1).
Proof.
  intros (Hlen & Hdone & Hrest) Hi Hk Hv Hst. split; [|split].
  - rewrite (store_length _ _ _ _ Hst). exact Hlen.
  - intros i' k' Hi' Hk' Hbefore.
    destruct (decide (i' = i /\ k' = k)) as [[-> ->]|Hne].
    + rewrite Hv. eapply load_store_eq, Hst.
    + rewrite (load_store_ne _ _ _ _ _ Hst).
      * apply Hdone; try assumption. unfold visited_before in *. lia.
      * intros E. apply idx_caffe_inj in E; lia.
  - intros p Hp. rewrite (load_store_ne _ _ _ _ _ Hst).
    + apply Hrest. intros i' k' Hi' Hk' Hbefore. apply Hp; try assumption.
      unfold visited_before in *. lia.
    + apply Hp; try assumption. unfold visited_before. lia.
Qed.

Lemma gathered_next_row dst i : gath dst i kd -> gath dst (i + 1) 0.
Proof.
  intros (Hlen & Hdone & Hrest). split; [exact Hlen|]. split.
  - intros i' k' Hi' Hk' Hbefore. apply Hdone; try assumption.
    unfold visited_before in *. lia.
  - intros p Hp. apply Hrest. intros i' k' Hi' Hk' Hbefore.
    apply Hp; try assumption. unfold visited_before in *. lia.
Qed.

Lemma gathered_final_visited dst i k :
  gath dst n 0 -> 0 <= i < n -> 0 <= k < kd ->
  load dst (idx_caffe kd i k) = src i k.
Proof.
  intros (_ & Hdone & _) Hi Hk. apply Hdone; try assumption.
  unfold visited_before. lia.
Qed.

Lemma gathered_final_rest dst p :
  gath dst n 0 -> 0 < kd -> ~ 0 <= p < n * kd -> load dst p = load dst0 p.
Proof.
  intros (_ & _ & Hrest) Hkd Hp. apply Hrest. intros i k Hi Hk _ ->.
  apply Hp. now apply idx_caffe_range.
Qed.

(** Two buffers gathered from the same sources into the same buffer are the
    same buffer. *)
Lemma gathered_unique dst dst' :
  0 < kd -> gath dst n 0 -> gath dst' n 0 -> dst = dst'.
Proof.
  intros Hkd Hd Hd'. apply load_ext. intros p.
  destruct (decide (0 <= p < n * kd)) as [Hp|Hp].
  - destruct (idx_caffe_decompose kd n p Hkd Hp) as (i & k & Hi & Hk & ->).
    now rewrite (gathered_final_visited dst i k Hd Hi Hk),
                (gathered_final_visited dst' i k Hd' Hi Hk).
  - now rewrite (gathered_final_rest dst p Hd Hkd Hp),
                (gathered_final_rest dst' p Hd' Hkd Hp).
Qed.
End Gather.

Section CuDNNToCaffeGather.
Context {Dtype : Type}.
Variables (multiplier cpg kd n : Z).
Hypothesis (Hm : 0 < multiplier) (Hc : 0 < cpg) (Hkd : 0 < kd) (Hn : 0 <= n).
Variables (cudnn_data cudnn_diff : list Dtype) (c0 : CompactBuffers Dtype).
Hypothesis Hcudnn_data : n * cpg * kd <= Z.of_nat (length cudnn_data).
Hypothesis Hcudnn_diff : n * cpg * kd <= Z.of_nat (length cudnn_diff).
Hypothesis Hcaffe_data : n * kd <= Z.of_nat (length (caffe_data c0)).
Hypothesis Hcaffe_diff : n * kd <= Z.of_nat (length (caffe_diff c0)).

Local Abbreviation body :=
  (CuDNNToCaffe_body multiplier cpg kd cudnn_data cudnn_diff).
Local Abbreviation from_data :=
  (fun i k => load cudnn_data (backend_index multiplier cpg kd i k)).
Local Abbreviation from_diff :=
  (fun i k => load cudnn_diff (backend_index multiplier cpg kd i k)).

Lemma CuDNNToCaffe_loops_gather :
  exists c,
    for_loop n (fun i => for_loop kd (fun k => body i k)) c0 = Ok c /\
    gathered kd n from_data (caffe_data c0) (caffe_data c) n 0 /\
    gathered kd n from_diff (caffe_diff c0) (caffe_diff c) n 0.
Proof.
  pose (I := fun (i k : Z) (c : CompactBuffers Dtype) =>
               gathered kd n from_data (caffe_data c0) (caffe_data c) i k /\
               gathered kd n from_diff (caffe_diff c0) (caffe_diff c) i k).
  apply (for_loop_invariant (fun i c => I i 0 c)); [exact Hn | |].
  - split; apply gathered_init.
  - intros i c Hi HI.
    destruct (for_loop_invariant (fun k c => I i k c) (fun k => body i k) kd c)
      as (c' & Hc' & Hd' & Hg'); [lia | exact HI | |].
    + intros k t Hk (Hd & Hg).
      pose proof (idx_caffe_range kd n i k Hi Hk) as Hcr.
      pose proof (backend_index_range multiplier cpg kd n i k Hm Hc Hi Hk) as Hbr.
      destruct (load_in_range cudnn_data (backend_index multiplier cpg kd i k))
        as [v Hv]; [lia|].
      destruct (load_in_range cudnn_diff (backend_index multiplier cpg kd i k))
        as [g Hgv]; [lia|].
      assert (Ld : length (caffe_data t) = length (caffe_data c0)) by apply Hd.
      assert (Lg : length (caffe_diff t) = length (caffe_diff c0)) by apply Hg.
      destruct (store (caffe_data t) (idx_caffe kd i k) v) as [d'|] eqn:Sd;
        [|rewrite store_Ok in Sd by lia; discriminate].
      destruct (store (caffe_diff t) (idx_caffe kd i k) g) as [g'|] eqn:Sg;
        [|rewrite store_Ok in Sg by lia; discriminate].
      exists {| caffe_data := d'; caffe_diff := g' |}. split.
      * unfold CuDNNToCaffe_body. rewrite channel_slot_Ok by lia. rewrite bind_Ok.
        fold (backend_index multiplier cpg kd i k).
        rewrite Hv, bind_Ok, Sd, bind_Ok, Hgv, bind_Ok, Sg, bind_Ok. reflexivity.
      * split; cbn [caffe_data caffe_diff].
        -- eapply (gathered_store kd n from_data); eauto.
        -- eapply (gathered_store kd n from_diff); eauto.
    + exists c'. split; [exact Hc'|]. split; now apply gathered_next_row.
Qed.
End CuDNNToCaffeGather.

(** ** The translators, entry by entry *)

Section TranslatorsPointwise.
Context {Dtype BlobProto : Type} `{Scalar Dtype}.
Local Abbreviation Layer := (CuDNNDepthwiseLayer Dtype BlobProto).
Implicit Types (l : Layer) (others : list (Blob Dtype)).

Lemma is_backend_index_or_not l idx :
  valid_configuration l -> 0 <= idx < grouped_count l ->
  is_backend_index l idx \/ ~ is_backend_index l idx.
Proof.
  intros (Hm & Hc & Hk & Hn) Hidx.
  destruct (backend_index_or_not (multiplier_ (base l)) (channels_per_group l)
              (kernel_dim_ (base l)) (num_output_ (base l)) idx Hm Hc Hk Hidx)
    as [(i & k & Hi & Hki & ->)|Hnot].
  - left. exists i, k. auto.
  - right. intros (i & k & Hi & Hki & ->). now apply (Hnot i k).
Qed.

Lemma is_backend_index_range l idx :
  valid_configuration l -> is_backend_index l idx -> 0 <= idx < grouped_count l.
Proof.
  intros (Hm & Hc & Hk & Hn) (i & k & Hi & Hki & ->).
  now apply backend_index_range.
Qed.

(** A buffer of the grouped layout is determined by what it holds at the
    backend indices, by being zero at the other positions below [N], and by
    what lies from [N] on. *)
Lemma grouped_buffer_unique l (src : Z -> Z -> Res Dtype) (rest d d' : list Dtype) :
  valid_configuration l ->
  (forall i k, 0 <= i < num_output_ (base l) -> 0 <= k < kernel_dim_ (base l) ->
     load d (backend_index_of l i k) = src i k) ->
  (forall idx, 0 <= idx < grouped_count l -> ~ is_backend_index l idx ->
     load d idx = Ok scalar_0) ->
  (forall idx, ~ 0 <= idx < grouped_count l -> load d idx = load rest idx) ->
  (forall i k, 0 <= i < num_output_ (base l) -> 0 <= k < kernel_dim_ (base l) ->
     load d' (backend_index_of l i k) = src i k) ->
  (forall idx, 0 <= idx < grouped_count l -> ~ is_backend_index l idx ->
     load d' idx = Ok scalar_0) ->
  (forall idx, ~ 0 <= idx < grouped_count l -> load d' idx = load rest idx) ->
  d = d'.
Proof.
  intros Hv H1 H2 H3 H1' H2' H3'. apply load_ext. intros idx.
  destruct (decide (0 <= idx < grouped_count l)) as [Hin|Hout].
  - destruct (is_backend_index_or_not l idx Hv Hin)
      as [(i & k & Hi & Hk & ->)|Hnot].
    + now rewrite H1, H1'.
    + now rewrite H2, H2'.
  - now rewrite H3, H3'.
Qed.

(** What [CaffeToCuDNN] leaves in the three buffers, entry by entry. *)
Lemma CaffeToCuDNN_pointwise l (blob0 : Blob Dtype) others :
  blobs_ (base l) = blob0 :: others ->
  valid_configuration l -> buffers_fit l ->
  exists b,
    CaffeToCuDNN l = Ok (write_back_backend l blob0 others b) /\
    (forall i k,
       0 <= i < num_output_ (base l) -> 0 <= k < kernel_dim_ (base l) ->
       load (cudnn_data b) (backend_index_of l i k)
       = load (data_ (caffe_weight_ l)) (idx_caffe (kernel_dim_ (base l)) i k) /\
       load (cudnn_diff b) (backend_index_of l i k)
       = load (diff_ (caffe_weight_ l)) (idx_caffe (kernel_dim_ (base l)) i k) /\
       load (mask_data b) (backend_index_of l i k) = Ok scalar_1) /\
    (forall idx, 0 <= idx < grouped_count l -> ~ is_backend_index l idx ->
       load (cudnn_data b) idx = Ok scalar_0 /\
       load (cudnn_diff b) idx = Ok scalar_0 /\
       load (mask_data b) idx = Ok scalar_0) /\
    (forall idx, ~ 0 <= idx < grouped_count l ->
       load (cudnn_data b) idx = load (data_ blob0) idx /\
       load (cudnn_diff b) idx = load (diff_ blob0) idx /\
       load (mask_data b) idx = load (data_ (mask_ l)) idx) /\
    length (cudnn_data b) = length (data_ blob0) /\
    length (cudnn_diff b) = length (diff_ blob0) /\
    length (mask_data b) = length (data_ (mask_ l)).
Proof.
  intros Hb Hv Hfit.
  destruct (CaffeToCuDNN_Ok l blob0 others Hb Hv Hfit)
    as (b0 & b & Hd0 & Hg0 & Hm0 & Hrun & Hd & Hg & Hmk).
  exists b. split; [exact Hrun|].
  assert (Hfree : forall idx, ~ is_backend_index l idx ->
            forall i k, 0 <= i < num_output_ (base l) ->
                        0 <= k < kernel_dim_ (base l) ->
                        idx <> backend_index_of l i k).
  { intros idx Hnot i k Hi Hk ->. apply Hnot. exists i, k. auto. }
  split; [|split; [|split]].
  - intros i k Hi Hk. split; [|split].
    + apply (scattered_final_visited _ _ _ _ _ _ _ i k Hd Hi Hk).
    + apply (scattered_final_visited _ _ _ _ _ _ _ i k Hg Hi Hk).
    + apply (scattered_final_visited _ _ _ _ _ _ _ i k Hmk Hi Hk).
  - intros idx Hidx Hnot. pose proof (Hfree idx Hnot) as Hp. split; [|split].
    + rewrite (scattered_final_rest _ _ _ _ _ _ _ idx Hd Hp).
      eapply caffe_set_load; eauto.
    + rewrite (scattered_final_rest _ _ _ _ _ _ _ idx Hg Hp).
      eapply caffe_set_load; eauto.
    + rewrite (scattered_final_rest _ _ _ _ _ _ _ idx Hmk Hp).
      eapply caffe_set_load; eauto.
  - intros idx Hout.
    assert (Hnot : ~ is_backend_index l idx).
    { intros Hin. apply Hout. now apply is_backend_index_range. }
    pose proof (Hfree idx Hnot) as Hp.
    assert (Hsame : forall (p p' : list Dtype),
              caffe_set (grouped_count l) scalar_0 p = Ok p' ->
              load p' idx = load p idx).
    { intros p p' Hset. destruct (decide (idx < 0)) as [Hneg|Hpos].
      - now rewrite !load_negative.
      - eapply caffe_set_load_beyond; [exact Hset | lia]. }
    split; [|split].
    + rewrite (scattered_final_rest _ _ _ _ _ _ _ idx Hd Hp). now apply Hsame.
    + rewrite (scattered_final_rest _ _ _ _ _ _ _ idx Hg Hp). now apply Hsame.
    + rewrite (scattered_final_rest _ _ _ _ _ _ _ idx Hmk Hp). now apply Hsame.
  - destruct Hd as (Ld & _), Hg as (Lg & _), Hmk as (Lm & _).
    rewrite Ld, Lg, Lm.
    now rewrite (caffe_set_length _ _ _ _ Hd0), (caffe_set_length _ _ _ _ Hg0),
                (caffe_set_length _ _ _ _ Hm0).
Qed.

(** What [CuDNNToCaffe] leaves in the two compact buffers. *)
Lemma CuDNNToCaffe_gather l (blob0 : Blob Dtype) others :
  blobs_ (base l) = blob0 :: others ->
  valid_configuration l -> buffers_fit l ->
  exists c,
    CuDNNToCaffe l = Ok (write_back_compact l c) /\
    gathered (kernel_dim_ (base l)) (num_output_ (base l))
      (fun i k => load (data_ blob0) (backend_index_of l i k))
      (data_ (caffe_weight_ l)) (caffe_data c) (num_output_ (base l)) 0 /\
    gathered (kernel_dim_ (base l)) (num_output_ (base l))
      (fun i k => load (diff_ blob0) (backend_index_of l i k))
      (diff_ (caffe_weight_ l)) (caffe_diff c) (num_output_ (base l)) 0.
Proof.
  intros Hb Hv Hfit. unfold CuDNNToCaffe, buffers_fit in *. rewrite Hb in *.
  destruct Hfit as (Fd & Fg & _ & Cd & Cg).
  rewrite int_div_channels by assumption. rewrite bind_Ok.
  destruct Hv as (Hm & Hc & Hk & Hn).
  destruct (CuDNNToCaffe_loops_gather (multiplier_ (base l)) (channels_per_group l)
              (kernel_dim_ (base l)) (num_output_ (base l)) Hm Hc Hk Hn
              (data_ blob0) (diff_ blob0)
              {| caffe_data := data_ (caffe_weight_ l);
                 caffe_diff := diff_ (caffe_weight_ l) |})
    as (c & Hloop & Hd & Hg); try assumption.
  exists c. rewrite Hloop. repeat split; first [apply Hd | apply Hg].
Qed.
End TranslatorsPointwise.

(** ** The round trip of the two translators *)

Section RoundTrip.
Context {Dtype BlobProto : Type} `{Scalar Dtype}.
Local Abbreviation Layer := (CuDNNDepthwiseLayer Dtype BlobProto).
Implicit Types (l : Layer).

(** C1. For a valid configuration (positive multiplier, channels per group
    and kernel size), [CaffeToCuDNN] returns, and [CuDNNToCaffe] run on its
    result returns and leaves the compact weight, data buffer and gradient
    buffer, exactly as it was.  The compact weight is recovered from the
    grouped layout, not merely kept: whatever the two compact buffers hold
    when [CuDNNToCaffe] starts (any buffers [c] of the same sizes in their
    place), it returns with the original data and gradient at every
    position below [num_output * kernel_dim], and with [c] untouched from
    there on; so when the buffers have exactly that many entries, the two
    buffers are the original ones. *)
Theorem CaffeToCuDNN_CuDNNToCaffe_roundtrip l :
  valid_configuration l -> buffers_fit l ->
  exists l1,
    CaffeToCuDNN l = Ok l1 /\
    (exists l2,
       CuDNNToCaffe l1 = Ok l2 /\
       data_ (caffe_weight_ l2) = data_ (caffe_weight_ l) /\
       diff_ (caffe_weight_ l2) = diff_ (caffe_weight_ l) /\
       caffe_weight_ l2 = caffe_weight_ l) /\
    (blobs_ (base l) <> [] ->
     forall c : CompactBuffers Dtype,
       length (caffe_data c) = length (data_ (caffe_weight_ l)) ->
       length (caffe_diff c) = length (diff_ (caffe_weight_ l)) ->
       exists l2,
         CuDNNToCaffe (write_back_compact l1 c) = Ok l2 /\
         (forall p, 0 <= p < compact_count l ->
            load (data_ (caffe_weight_ l2)) p = load (data_ (caffe_weight_ l)) p /\
            load (diff_ (caffe_weight_ l2)) p = load (diff_ (caffe_weight_ l)) p) /\
         (forall p, ~ 0 <= p < compact_count l ->
            load (data_ (caffe_weight_ l2)) p = load (caffe_data c) p /\
            load (diff_ (caffe_weight_ l2)) p = load (caffe_diff c) p) /\
         (Z.of_nat (length (data_ (caffe_weight_ l))) = compact_count l ->
          data_ (caffe_weight_ l2) = data_ (caffe_weight_ l)) /\
         (Z.of_nat (length (diff_ (caffe_weight_ l))) = compact_count l ->
          diff_ (caffe_weight_ l2) = diff_ (caffe_weight_ l)) /\
         shape_ (caffe_weight_ l2) = shape_ (caffe_weight_ l)).
Proof.
  intros Hv Hfit.
  destruct (blobs_ (base l)) as [|blob0 others] eqn:Hb.
  { exists l. unfold CaffeToCuDNN, CuDNNToCaffe. rewrite Hb.
    split; [reflexivity|]. split; [|intros Hne; now contradiction Hne].
    exists l. auto. }
  destruct (CaffeToCuDNN_pointwise l blob0 others Hb Hv Hfit)
    as (b & Hrun & Hat & _ & _ & Ld & Lg & Lm).
  pose proof Hfit as Hfit'. unfold buffers_fit in Hfit'. rewrite Hb in Hfit'.
  destruct Hfit' as (Fd & Fg & Fm & Cd & Cg).
  pose proof Hv as (Hm & Hc & Hk & Hn).
  exists (write_back_backend l blob0 others b).
  split; [exact Hrun|]. split.
  - exists (write_back_backend l blob0 others b).
    assert (Hback : CuDNNToCaffe (write_back_backend l blob0 others b)
                    = Ok (write_back_backend l blob0 others b)).
    { unfold CuDNNToCaffe.
      cbn [write_back_backend base set_blobs_ blobs_ channels_ group_ num_output_
           kernel_dim_ multiplier_ data_ diff_ caffe_weight_].
      rewrite int_div_channels by assumption. rewrite bind_Ok.
      rewrite CuDNNToCaffe_loops_fixpoint; try assumption.
      - rewrite bind_Ok. unfold write_back_compact, write_back_backend.
        cbn [write_back_backend base caffe_weight_ caffe_data caffe_diff mask_
             handles_setup_ handle_ stream_ plan descs group_ weight_offset_
             bottom_offset_ top_offset_ pool shape_].
        now destruct (caffe_weight_ l).
      - intros i k Hi Hki. now apply Hat.
      - intros i k Hi Hki. now apply Hat. }
    split; [exact Hback|]. repeat split.
  - intros _ c Lcd Lcg.
    set (l1 := write_back_compact (write_back_backend l blob0 others b) c).
    assert (Hv1 : valid_configuration l1) by exact Hv.
    assert (Hfit1 : buffers_fit l1).
    { unfold buffers_fit, l1.
      cbn [write_back_compact write_back_backend base set_blobs_ blobs_ mask_
           caffe_weight_ data_ diff_].
      change (grouped_count _) with (grouped_count l).
      change (compact_count _) with (compact_count l).
      rewrite Ld, Lg, Lm, Lcd, Lcg. repeat split; assumption. }
    destruct (CuDNNToCaffe_gather l1 _ others eq_refl Hv1 Hfit1)
      as (c' & Hrun1 & Gd & Gg).
    exists (write_back_compact l1 c'). split; [exact Hrun1|].
    cbn [write_back_compact write_back_backend base set_blobs_ blobs_
         caffe_weight_ data_ diff_ shape_ l1
         num_output_ kernel_dim_] in Gd, Gg |- *.
    assert (Hin : forall p, 0 <= p < compact_count l ->
              load (caffe_data c') p = load (data_ (caffe_weight_ l)) p /\
              load (caffe_diff c') p = load (diff_ (caffe_weight_ l)) p).
    { intros p Hp.
      destruct (idx_caffe_decompose (kernel_dim_ (base l)) (num_output_ (base l))
                  p Hk Hp) as (i & k & Hi & Hki & ->).
      rewrite (gathered_final_visited _ _ _ _ _ i k Gd Hi Hki).
      rewrite (gathered_final_visited _ _ _ _ _ i k Gg Hi Hki).
      destruct (Hat i k Hi Hki) as (E1 & E2 & _). split; [exact E1 | exact E2]. }
    assert (Hout : forall p, ~ 0 <= p < compact_count l ->
              load (caffe_data c') p = load (caffe_data c) p /\
              load (caffe_diff c') p = load (caffe_diff c) p).
    { intros p Hp. split.
      - exact (gathered_final_rest _ _ _ _ _ p Gd Hk Hp).
      - exact (gathered_final_rest _ _ _ _ _ p Gg Hk Hp). }
    split; [exact Hin|]. split; [exact Hout|].
    assert (Hbeyond : forall (q q' : list Dtype) p,
              length q = length q' -> Z.of_nat (length q') = compact_count l ->
              ~ 0 <= p < compact_count l -> load q p = load q' p).
    { intros q q' p Lq Lq' Hp. unfold load.
      destruct (decide (0 <= p)) as [Hp0|Hneg]; [|reflexivity].
      rewrite !lookup_ge_None_2 by lia. reflexivity. }
    split; [|split; [|reflexivity]].
    + intros Hlen. apply load_ext. intros p.
      destruct (decide (0 <= p < compact_count l)) as [Hp|Hp].
      * now apply Hin.
      * destruct (Hout p Hp) as (-> & _). now apply Hbeyond.
    + intros Hlen. apply load_ext. intros p.
      destruct (decide (0 <= p < compact_count l)) as [Hp|Hp].
      * now apply Hin.
      * destruct (Hout p Hp) as (_ & ->). now apply Hbeyond.
Qed.
End RoundTrip.

Lemma CaffeToCuDNN_CuDNNToCaffe_roundtrip_witness :
  exists l1 l2,
    CaffeToCuDNN example_layer = Ok l1 /\
    CuDNNToCaffe
      (write_back_compact l1 {| caffe_data := replicate 16 0;
                                caffe_diff := replicate 16 0 |}) = Ok l2 /\
    data_ (caffe_weight_ l2) = seqZ 100 16 /\
    diff_ (caffe_weight_ l2) = seqZ 200 16.
Proof.
  destruct (CaffeToCuDNN_CuDNNToCaffe_roundtrip example_layer)
    as (l1 & Hrun & _ & Hrecover).
  - repeat split; vm_compute; first [reflexivity | discriminate].
  - repeat split; vm_compute; first [reflexivity | discriminate].
  - destruct (Hrecover ltac:(discriminate)
                {| caffe_data := replicate 16 0; caffe_diff := replicate 16 0 |}
                eq_refl eq_refl)
      as (l2 & Hback & _ & _ & Hd & Hg & _).
    exists l1, l2. split; [exact Hrun|]. split; [exact Hback|].
    split; [exact (Hd eq_refl) | exact (Hg eq_refl)].
Defined.

Lemma gathered_src_ext {A : Type} (kd n : Z) (src src' : Z -> Z -> Res A)
    (dst0 dst : list A) (i k : Z) :
  (forall i' k', 0 <= i' < n -> 0 <= k' < kd -> src i' k' = src' i' k') ->
  gathered kd n src dst0 dst i k -> gathered kd n src' dst0 dst i k.
Proof.
  intros Hs (Hl & Hv & Hr). split; [exact Hl|]. split; [|exact Hr].
  intros i' k' Hi Hk Hb. rewrite <- (Hs i' k' Hi Hk). now apply Hv.
Qed.

Lemma elem_of_backend_indices {Dtype BlobProto : Type}
    (l : CuDNNDepthwiseLayer Dtype BlobProto) (idx : Z) :
  idx ∈ backend_indices l <-> is_backend_index l idx.
Proof.
  unfold backend_indices, is_backend_index. rewrite list_elem_of_bind. split.
  - intros (i & Hin & Hi). apply list_elem_of_bind in Hin as (k & Hin & Hk).
    apply list_elem_of_singleton in Hin. apply elem_of_seqZ in Hi, Hk.
    exists i, k. repeat split; first [lia | assumption].
  - intros (i & k & Hi & Hk & ->). exists i. split; [|apply elem_of_seqZ; lia].
    apply list_elem_of_bind. exists k. split; [|apply elem_of_seqZ; lia].
    now apply list_elem_of_singleton.
Qed.

Lemma zero_off_index_spec {Dtype BlobProto : Type} `{Scalar Dtype}
    (l : CuDNNDepthwiseLayer Dtype BlobProto) (grouped : Blob Dtype) :
  zero_off_index l grouped ->
  forall idx, 0 <= idx < grouped_count l -> ~ is_backend_index l idx ->
    load (data_ grouped) idx = Ok scalar_0 /\
    load (diff_ grouped) idx = Ok scalar_0.
Proof.
  unfold zero_off_index, off_index_positions. rewrite Forall_forall.
  intros Hz idx Hidx Hnot. apply Hz. apply list_elem_of_filter. split.
  - now rewrite elem_of_backend_indices.
  - apply elem_of_seqZ. lia.
Qed.

(** ** Further properties of the translators *)

Section TranslatorsFurther.
Context {Dtype BlobProto : Type} `{Scalar Dtype}.
Local Abbreviation Layer := (CuDNNDepthwiseLayer Dtype BlobProto).
Implicit Types (l : Layer) (others : list (Blob Dtype)).

Lemma write_back_backend_valid l (blob0 : Blob Dtype) others b :
  valid_configuration l ->
  valid_configuration (write_back_backend l blob0 others b).
Proof. intros Hv. exact Hv. Qed.

Lemma write_back_compact_valid l c :
  valid_configuration l -> valid_configuration (write_back_compact l c).
Proof. intros Hv. exact Hv. Qed.

(** X1. For a state with bound parameters, [CaffeToCuDNN] returns, and the
    grouped weight it leaves holds, at the backend index of every compact
    entry [(i, k)], the data and the gradient of the compact weight at
    [i * kernel_dim + k]; from position [N] on, the grouped data, the grouped
    gradient and the mask are as before; the shapes and buffer sizes of the
    grouped weight and of the mask, the gradient of the mask, the compact
    weight, the other parameter blobs and every other member are as before. *)
Theorem CaffeToCuDNN_copies_compact l (blob0 : Blob Dtype) others :
  blobs_ (base l) = blob0 :: others ->
  valid_configuration l -> buffers_fit l ->
  exists l1 (grouped : Blob Dtype),
    CaffeToCuDNN l = Ok l1 /\
    base l1 = set_blobs_ (base l) (grouped :: others) /\
    (forall i k,
       0 <= i < num_output_ (base l) -> 0 <= k < kernel_dim_ (base l) ->
       load (data_ grouped) (backend_index_of l i k)
       = load (data_ (caffe_weight_ l)) (idx_caffe (kernel_dim_ (base l)) i k) /\
       load (diff_ grouped) (backend_index_of l i k)
       = load (diff_ (caffe_weight_ l)) (idx_caffe (kernel_dim_ (base l)) i k)) /\
    (forall idx, grouped_count l <= idx ->
       load (data_ grouped) idx = load (data_ blob0) idx /\
       load (diff_ grouped) idx = load (diff_ blob0) idx /\
       load (data_ (mask_ l1)) idx = load (data_ (mask_ l)) idx) /\
    (shape_ grouped = shape_ blob0 /\
     length (data_ grouped) = length (data_ blob0) /\
     length (diff_ grouped) = length (diff_ blob0)) /\
    (shape_ (mask_ l1) = shape_ (mask_ l) /\
     length (data_ (mask_ l1)) = length (data_ (mask_ l)) /\
     diff_ (mask_ l1) = diff_ (mask_ l)) /\
    caffe_weight_ l1 = caffe_weight_ l /\
    (handles_setup_ l1, handle_ l1, stream_ l1, plan l1, descs l1)
    = (handles_setup_ l, handle_ l, stream_ l, plan l, descs l) /\
    (group_ l1, weight_offset_ l1, bottom_offset_ l1, top_offset_ l1, pool l1)
    = (group_ l, weight_offset_ l, bottom_offset_ l, top_offset_ l, pool l).
Proof.
  intros Hb Hv Hfit.
  destruct (CaffeToCuDNN_pointwise l blob0 others Hb Hv Hfit)
    as (b & Hrun & Hidx & _ & Hrest & Ld & Lg & Lm).
  eexists _, _. split; [exact Hrun|]. split; [reflexivity|].
  cbn [write_back_backend base mask_ caffe_weight_ shape_ data_ diff_
       handles_setup_ handle_ stream_ plan descs group_ weight_offset_
       bottom_offset_ top_offset_ pool].
  split; [|split; [|repeat split; assumption]].
  - intros i k Hi Hk. destruct (Hidx i k Hi Hk) as (Hd & Hg & _). now split.
  - intros idx Hidx'. apply Hrest. lia.
Qed.

(** X2. [CaffeToCuDNN] is idempotent: run on the state it has left, it
    returns that state. *)
Theorem CaffeToCuDNN_idempotent l l1 :
  valid_configuration l -> buffers_fit l ->
  CaffeToCuDNN l = Ok l1 -> CaffeToCuDNN l1 = Ok l1.
Proof.
  intros Hv Hfit Hrun.
  destruct (blobs_ (base l)) as [|blob0 others] eqn:Hb.
  { unfold CaffeToCuDNN in Hrun. rewrite Hb in Hrun. injection Hrun as <-.
    unfold CaffeToCuDNN. now rewrite Hb. }
  destruct (CaffeToCuDNN_pointwise l blob0 others Hb Hv Hfit)
    as (b & Hrun' & Hidx & Hzero & Hrest & Ld & Lg & Lm).
  rewrite Hrun' in Hrun. injection Hrun as <-.
  pose proof Hfit as Hfit'. unfold buffers_fit in Hfit'. rewrite Hb in Hfit'.
  destruct Hfit' as (Fd & Fg & Fm & Cd & Cg).
  set (grouped := {| shape_ := shape_ blob0; data_ := cudnn_data b;
                     diff_ := cudnn_diff b |}).
  set (l1 := write_back_backend l blob0 others b).
  assert (Hb1 : blobs_ (base l1) = grouped :: others) by reflexivity.
  assert (Hfit1 : buffers_fit l1).
  { unfold buffers_fit. rewrite Hb1.
    change (grouped_count l1) with (grouped_count l).
    change (compact_count l1) with (compact_count l).
    cbn [l1 grouped write_back_backend mask_ caffe_weight_ data_ diff_].
    rewrite Ld, Lg, Lm. auto. }
  destruct (CaffeToCuDNN_pointwise l1 grouped others Hb1
              (write_back_backend_valid l blob0 others b Hv) Hfit1)
    as (b2 & Hrun2 & Hidx2 & Hzero2 & Hrest2 & _).
  rewrite Hrun2. f_equal.
  assert (Ed : cudnn_data b2 = cudnn_data b).
  { apply (grouped_buffer_unique l
             (fun i k => load (data_ (caffe_weight_ l))
                              (idx_caffe (kernel_dim_ (base l)) i k))
             (cudnn_data b)); try assumption.
    - intros i k Hi Hk. apply (Hidx2 i k Hi Hk).
    - intros idx Hi Hn. apply (Hzero2 idx Hi Hn).
    - intros idx Hi. apply (Hrest2 idx Hi).
    - intros i k Hi Hk. apply (Hidx i k Hi Hk).
    - intros idx Hi Hn. apply (Hzero idx Hi Hn).
    - reflexivity. }
  assert (Eg : cudnn_diff b2 = cudnn_diff b).
  { apply (grouped_buffer_unique l
             (fun i k => load (diff_ (caffe_weight_ l))
                              (idx_caffe (kernel_dim_ (base l)) i k))
             (cudnn_diff b)); try assumption.
    - intros i k Hi Hk. apply (Hidx2 i k Hi Hk).
    - intros idx Hi Hn. apply (Hzero2 idx Hi Hn).
    - intros idx Hi. apply (Hrest2 idx Hi).
    - intros i k Hi Hk. apply (Hidx i k Hi Hk).
    - intros idx Hi Hn. apply (Hzero idx Hi Hn).
    - reflexivity. }
  assert (Em : mask_data b2 = mask_data b).
  { apply (grouped_buffer_unique l (fun _ _ => Ok scalar_1) (mask_data b));
      try assumption.
    - intros i k Hi Hk. apply (Hidx2 i k Hi Hk).
    - intros idx Hi Hn. apply (Hzero2 idx Hi Hn).
    - intros idx Hi. apply (Hrest2 idx Hi).
    - intros i k Hi Hk. apply (Hidx i k Hi Hk).
    - intros idx Hi Hn. apply (Hzero idx Hi Hn).
    - reflexivity. }
  unfold l1, grouped, write_back_backend.
  cbn [base set_blobs_ mask_ caffe_weight_ shape_ data_ diff_ handles_setup_
       handle_ stream_ plan descs group_ weight_offset_ bottom_offset_
       top_offset_ pool layer_param_ blobs_ bias_term_ channels_ num_output_
       multiplier_ kernel_dim_ num_spatial_axes_ channel_axis_ num_ bottom_dim_
       top_dim_ out_spatial_dim_ kernel_shape_ pad_ stride_].
  now rewrite Ed, Eg, Em.
Qed.

(** X3. For a state with bound parameters, [CuDNNToCaffe] returns, and the
    compact weight it leaves holds, at [i * kernel_dim + k], the data and the
    gradient the grouped weight holds at the backend index of [(i, k)], for
    every output channel [i] and kernel position [k]; the entries of the
    compact buffers from [num_output * kernel_dim] on are as before. *)
Theorem CuDNNToCaffe_gathers_backend_entries l (blob0 : Blob Dtype) others :
  blobs_ (base l) = blob0 :: others ->
  valid_configuration l -> buffers_fit l ->
  exists l1,
    CuDNNToCaffe l = Ok l1 /\
    (forall i k,
       0 <= i < num_output_ (base l) -> 0 <= k < kernel_dim_ (base l) ->
       load (data_ (caffe_weight_ l1)) (idx_caffe (kernel_dim_ (base l)) i k)
       = load (data_ blob0) (backend_index_of l i k) /\
       load (diff_ (caffe_weight_ l1)) (idx_caffe (kernel_dim_ (base l)) i k)
       = load (diff_ blob0) (backend_index_of l i k)) /\
    (forall p, compact_count l <= p ->
       load (data_ (caffe_weight_ l1)) p = load (data_ (caffe_weight_ l)) p /\
       load (diff_ (caffe_weight_ l1)) p = load (diff_ (caffe_weight_ l)) p).
Proof.
  intros Hb Hv Hfit.
  destruct (CuDNNToCaffe_gather l blob0 others Hb Hv Hfit) as (c & Hrun & Hd & Hg).
  destruct Hv as (Hm & Hc & Hk & Hn).
  exists (write_back_compact l c). split; [exact Hrun|].
  cbn [write_back_compact caffe_weight_ data_ diff_]. split.
  - intros i k Hi Hki. split.
    + apply (gathered_final_visited _ _ _ _ _ i k Hd Hi Hki).
    + apply (gathered_final_visited _ _ _ _ _ i k Hg Hi Hki).
  - intros p Hp. unfold compact_count in Hp. split.
    + apply (gathered_final_rest _ _ _ _ _ p Hd Hk). lia.
    + apply (gathered_final_rest _ _ _ _ _ p Hg Hk). lia.
Qed.
End TranslatorsFurther.

Section TranslatorsCompose.
Context {Dtype BlobProto : Type} `{Scalar Dtype}.
Local Abbreviation Layer := (CuDNNDepthwiseLayer Dtype BlobProto).
Implicit Types (l : Layer) (others : list (Blob Dtype)).

(** X4. [CuDNNToCaffe] is idempotent: run on the state it has left, it
    returns that state. *)
Theorem CuDNNToCaffe_idempotent l l1 :
  valid_configuration l -> buffers_fit l ->
  CuDNNToCaffe l = Ok l1 -> CuDNNToCaffe l1 = Ok l1.
Proof.
  intros Hv Hfit Hrun.
  destruct (blobs_ (base l)) as [|blob0 others] eqn:Hb.
  { unfold CuDNNToCaffe in Hrun. rewrite Hb in Hrun. injection Hrun as <-.
    unfold CuDNNToCaffe. now rewrite Hb. }
  destruct (CuDNNToCaffe_gather l blob0 others Hb Hv Hfit) as (c & Hrun' & Hd & Hg).
  rewrite Hrun' in Hrun. injection Hrun as <-.
  pose proof Hfit as Hfit'. unfold buffers_fit in Hfit'. rewrite Hb in Hfit'.
  destruct Hfit' as (Fd & Fg & Fm & Cd & Cg).
  pose proof Hv as (Hm & Hc & Hk & Hn).
  unfold CuDNNToCaffe.
  cbn [write_back_compact base caffe_weight_ data_ diff_ group_].
  rewrite Hb. rewrite int_div_channels by assumption. rewrite bind_Ok.
  rewrite CuDNNToCaffe_loops_fixpoint; try assumption.
  - rewrite bind_Ok. unfold write_back_compact.
    cbn [base caffe_weight_ caffe_data caffe_diff mask_ handles_setup_ handle_
         stream_ plan descs group_ weight_offset_ bottom_offset_ top_offset_
         pool shape_].
    reflexivity.
  - cbn [caffe_data]. destruct Hd as (-> & _). exact Cd.
  - cbn [caffe_diff]. destruct Hg as (-> & _). exact Cg.
  - intros i k Hi Hki. symmetry.
    apply (gathered_final_visited _ _ _ _ _ i k Hd Hi Hki).
  - intros i k Hi Hki. symmetry.
    apply (gathered_final_visited _ _ _ _ _ i k Hg Hi Hki).
Qed.

(** X5. The round trip the other way: when the grouped weight is zero at every
    position below [N] that is the backend index of no compact entry, as
    [CaffeToCuDNN] leaves it, then [CuDNNToCaffe] followed by [CaffeToCuDNN]
    returns and leaves the parameter blobs, so the grouped data and gradient,
    exactly as they were. *)
Theorem CuDNNToCaffe_CaffeToCuDNN_roundtrip l (blob0 : Blob Dtype) others :
  blobs_ (base l) = blob0 :: others ->
  valid_configuration l -> buffers_fit l -> zero_off_index l blob0 ->
  exists l1 l2,
    CuDNNToCaffe l = Ok l1 /\ CaffeToCuDNN l1 = Ok l2 /\
    blobs_ (base l2) = blobs_ (base l) /\ base l2 = base l.
Proof.
  intros Hb Hv Hfit Hzero.
  destruct (CuDNNToCaffe_gather l blob0 others Hb Hv Hfit) as (c & Hrun & Hd & Hg).
  pose proof Hfit as Hfit'. unfold buffers_fit in Hfit'. rewrite Hb in Hfit'.
  destruct Hfit' as (Fd & Fg & Fm & Cd & Cg).
  set (l1 := write_back_compact l c).
  assert (Hb1 : blobs_ (base l1) = blob0 :: others) by exact Hb.
  assert (Hfit1 : buffers_fit l1).
  { unfold buffers_fit. rewrite Hb1.
    change (grouped_count l1) with (grouped_count l).
    change (compact_count l1) with (compact_count l).
    cbn [l1 write_back_compact mask_ caffe_weight_ data_ diff_].
    destruct Hd as (Ld & _), Hg as (Lg & _). rewrite Ld, Lg. auto. }
  destruct (CaffeToCuDNN_pointwise l1 blob0 others Hb1
              (write_back_compact_valid l c Hv) Hfit1)
    as (b & Hrun1 & Hidx & Hz & Hrest & _).
  exists l1, (write_back_backend l1 blob0 others b).
  split; [exact Hrun|]. split; [exact Hrun1|].
  assert (Ed : cudnn_data b = data_ blob0).
  { apply (grouped_buffer_unique l
             (fun i k => load (data_ blob0) (backend_index_of l i k))
             (data_ blob0)); try assumption.
    - intros i k Hi Hk. destruct (Hidx i k Hi Hk) as (E & _).
      etransitivity; [exact E|].
      apply (gathered_final_visited _ _ _ _ _ i k Hd Hi Hk).
    - intros idx Hi Hn. apply (Hz idx Hi Hn).
    - intros idx Hi. apply (Hrest idx Hi).
    - reflexivity.
    - intros idx Hi Hn. apply (zero_off_index_spec l blob0 Hzero idx Hi Hn).
    - reflexivity. }
  assert (Eg : cudnn_diff b = diff_ blob0).
  { apply (grouped_buffer_unique l
             (fun i k => load (diff_ blob0) (backend_index_of l i k))
             (diff_ blob0)); try assumption.
    - intros i k Hi Hk. destruct (Hidx i k Hi Hk) as (_ & E & _).
      etransitivity; [exact E|].
      apply (gathered_final_visited _ _ _ _ _ i k Hg Hi Hk).
    - intros idx Hi Hn. apply (Hz idx Hi Hn).
    - intros idx Hi. apply (Hrest idx Hi).
    - reflexivity.
    - intros idx Hi Hn. apply (zero_off_index_spec l blob0 Hzero idx Hi Hn).
    - reflexivity. }
  assert (Eb : blobs_ (base (write_back_backend l1 blob0 others b))
               = blobs_ (base l)).
  { cbn [write_back_backend base set_blobs_ blobs_].
    rewrite Ed, Eg, Hb. now destruct blob0. }
  split; [exact Eb|].
  revert Eb. cbn [write_back_backend base l1 write_back_compact].
  unfold set_blobs_. cbn [blobs_]. intros ->. now destruct (base l).
Qed.

(** X6. [CuDNNToCaffe] reads the grouped weight at the backend indices only:
    two states that differ in the grouped weight alone, and there only away
    from the backend indices, get the same compact weight. *)
Theorem CuDNNToCaffe_reads_backend_indices_only l (blob0 grouped : Blob Dtype)
    others :
  blobs_ (base l) = blob0 :: others ->
  valid_configuration l -> buffers_fit l ->
  grouped_count l <= Z.of_nat (length (data_ grouped)) ->
  grouped_count l <= Z.of_nat (length (diff_ grouped)) ->
  (forall i k,
     0 <= i < num_output_ (base l) -> 0 <= k < kernel_dim_ (base l) ->
     load (data_ grouped) (backend_index_of l i k)
     = load (data_ blob0) (backend_index_of l i k) /\
     load (diff_ grouped) (backend_index_of l i k)
     = load (diff_ blob0) (backend_index_of l i k)) ->
  exists l1 l2,
    CuDNNToCaffe l = Ok l1 /\
    CuDNNToCaffe (set_grouped_ l grouped) = Ok l2 /\
    caffe_weight_ l2 = caffe_weight_ l1.
Proof.
  intros Hb Hv Hfit Gd Gg Hagree.
  destruct (CuDNNToCaffe_gather l blob0 others Hb Hv Hfit) as (c & Hrun & Hd & Hg).
  pose proof Hfit as Hfit'. unfold buffers_fit in Hfit'. rewrite Hb in Hfit'.
  destruct Hfit' as (Fd & Fg & Fm & Cd & Cg).
  set (l' := set_grouped_ l grouped).
  assert (Hb' : blobs_ (base l') = grouped :: others).
  { cbn [l' set_grouped_ base set_blobs_ blobs_]. now rewrite Hb. }
  assert (Hv' : valid_configuration l') by exact Hv.
  assert (Hfit' : buffers_fit l').
  { unfold buffers_fit. rewrite Hb'.
    change (grouped_count l') with (grouped_count l).
    change (compact_count l') with (compact_count l).
    cbn [l' set_grouped_ mask_ caffe_weight_]. auto. }
  destruct (CuDNNToCaffe_gather l' grouped others Hb' Hv' Hfit')
    as (c' & Hrun' & Hd' & Hg').
  exists (write_back_compact l c), (write_back_compact l' c').
  split; [exact Hrun|]. split; [exact Hrun'|].
  destruct Hv as (Hm & Hc & Hk & Hn).
  cbn [write_back_compact caffe_weight_ l' set_grouped_ shape_].
  f_equal.
  - eapply (gathered_unique _ _ _ _ _ _ Hk); [|exact Hd].
    eapply gathered_src_ext; [|exact Hd'].
    intros i k Hi Hki. apply (Hagree i k Hi Hki).
  - eapply (gathered_unique _ _ _ _ _ _ Hk); [|exact Hg].
    eapply gathered_src_ext; [|exact Hg'].
    intros i k Hi Hki. apply (Hagree i k Hi Hki).
Qed.

(** X7. The pure depthwise configuration, one channel per group: the backend
    index of an entry is its compact index, so [CaffeToCuDNN] copies the
    compact data and gradient position by position into the grouped weight
    and sets the mask to 1.0 at every position below
    [N = num_output * kernel_dim]. *)
Theorem CaffeToCuDNN_pure_depthwise l (blob0 : Blob Dtype) others :
  blobs_ (base l) = blob0 :: others ->
  valid_configuration l -> buffers_fit l ->
  channels_per_group l = 1 ->
  grouped_count l = compact_count l /\
  (forall i k, backend_index_of l i k = idx_caffe (kernel_dim_ (base l)) i k) /\
  exists l1 (grouped : Blob Dtype),
    CaffeToCuDNN l = Ok l1 /\
    blobs_ (base l1) = grouped :: others /\
    forall p, 0 <= p < compact_count l ->
      load (data_ grouped) p = load (data_ (caffe_weight_ l)) p /\
      load (diff_ grouped) p = load (diff_ (caffe_weight_ l)) p /\
      load (data_ (mask_ l1)) p = Ok scalar_1.
Proof.
  intros Hb Hv Hfit Hone.
  assert (Hidx : forall i k,
            backend_index_of l i k = idx_caffe (kernel_dim_ (base l)) i k).
  { intros i k. unfold backend_index_of, backend_index, idx_cudnn, idx_caffe.
    rewrite Hone, Z.rem_1_r. f_equal. lia. }
  assert (Hcount : grouped_count l = compact_count l).
  { unfold grouped_count, compact_count. rewrite Hone. lia. }
  split; [exact Hcount|]. split; [exact Hidx|].
  destruct (CaffeToCuDNN_pointwise l blob0 others Hb Hv Hfit)
    as (b & Hrun & Hat & _).
  destruct Hv as (Hm & Hc & Hk & Hn).
  eexists _, _. split; [exact Hrun|]. split; [reflexivity|].
  cbn [write_back_backend mask_ data_ diff_].
  intros p Hp. unfold compact_count in Hp.
  destruct (idx_caffe_decompose (kernel_dim_ (base l)) (num_output_ (base l)) p
              Hk Hp) as (i & k & Hi & Hki & ->).
  pose proof (Hat i k Hi Hki) as Hx. rewrite Hidx in Hx. exact Hx.
Qed.
End TranslatorsCompose.

Lemma CaffeToCuDNN_copies_compact_witness :
  exists l1 (grouped : Blob Z),
    CaffeToCuDNN example_layer = Ok l1 /\
    base l1 = set_blobs_ (base example_layer)
                (grouped :: tail (blobs_ (base example_layer))) /\
    load (data_ grouped) (backend_index_of example_layer 5 1) = Ok 111 /\
    caffe_weight_ l1 = caffe_weight_ example_layer.
Proof.
  destruct (CaffeToCuDNN_copies_compact example_layer _ _ eq_refl)
    as (l1 & grouped & Hrun & Hbase & Hat & _ & _ & _ & Hw & _).
  - repeat split; vm_compute; first [reflexivity | discriminate].
  - repeat split; vm_compute; first [reflexivity | discriminate].
  - exists l1, grouped. split; [exact Hrun|]. split; [exact Hbase|].
    split; [|exact Hw].
    destruct (Hat 5 1) as (Hd & _); [vm_compute; split; congruence ..|].
    exact Hd.
Defined.

Lemma CaffeToCuDNN_idempotent_witness :
  CaffeToCuDNN example_layer = Ok example_grouped_layer /\
  CaffeToCuDNN example_grouped_layer = Ok example_grouped_layer.
Proof.
  assert (Hrun : CaffeToCuDNN example_layer = Ok example_grouped_layer)
    by (vm_compute; reflexivity).
  split; [exact Hrun|].
  apply (CaffeToCuDNN_idempotent example_layer example_grouped_layer).
  - repeat split; vm_compute; first [reflexivity | discriminate].
  - repeat split; vm_compute; first [reflexivity | discriminate].
  - exact Hrun.
Defined.

Lemma CuDNNToCaffe_gathers_backend_entries_witness :
  exists l1,
    CuDNNToCaffe example_grouped_layer = Ok l1 /\
    load (data_ (caffe_weight_ l1)) (idx_caffe 2 5 1) = Ok 111.
Proof.
  destruct (CuDNNToCaffe_gathers_backend_entries example_grouped_layer _ _ eq_refl)
    as (l1 & Hrun & Hat & _).
  - repeat split; vm_compute; first [reflexivity | discriminate].
  - repeat split; vm_compute; first [reflexivity | discriminate].
  - exists l1. split; [exact Hrun|].
    destruct (Hat 5 1) as (Hd & _); [vm_compute; split; congruence ..|].
    exact Hd.
Defined.

Lemma CuDNNToCaffe_idempotent_witness :
  exists l1,
    CuDNNToCaffe example_layer = Ok l1 /\ CuDNNToCaffe l1 = Ok l1 /\
    data_ (caffe_weight_ l1) = replicate 16 7.
Proof.
  eexists. split; [vm_compute; reflexivity|]. split; [|reflexivity].
  apply (CuDNNToCaffe_idempotent example_layer).
  - repeat split; vm_compute; first [reflexivity | discriminate].
  - repeat split; vm_compute; first [reflexivity | discriminate].
  - vm_compute. reflexivity.
Defined.

Lemma CuDNNToCaffe_CaffeToCuDNN_roundtrip_witness :
  exists l1 l2,
    CuDNNToCaffe example_grouped_layer = Ok l1 /\ CaffeToCuDNN l1 = Ok l2 /\
    blobs_ (base l2) = blobs_ (base example_grouped_layer).
Proof.
  destruct (CuDNNToCaffe_CaffeToCuDNN_roundtrip example_grouped_layer _ _ eq_refl)
    as (l1 & l2 & H1 & H2 & Hb & _).
  - repeat split; vm_compute; first [reflexivity | discriminate].
  - repeat split; vm_compute; first [reflexivity | discriminate].
  - vm_compute. repeat constructor.
  - exists l1, l2. auto.
Defined.

Lemma CuDNNToCaffe_reads_backend_indices_only_witness :
  load (data_ example_other_grouped) 2 = Ok 99 /\
  exists l1 l2,
    CuDNNToCaffe example_layer = Ok l1 /\
    CuDNNToCaffe (set_grouped_ example_layer example_other_grouped) = Ok l2 /\
    caffe_weight_ l2 = caffe_weight_ l1.
Proof.
  split; [reflexivity|].
  apply (CuDNNToCaffe_reads_backend_indices_only example_layer _
           example_other_grouped _ eq_refl).
  - repeat split; vm_compute; first [reflexivity | discriminate].
  - repeat split; vm_compute; first [reflexivity | discriminate].
  - vm_compute. discriminate.
  - vm_compute. discriminate.
  - intros i k Hi Hk.
    change (num_output_ (base example_layer)) with 8 in Hi.
    change (kernel_dim_ (base example_layer)) with 2 in Hk.
    assert (Hcases : (i = 0 \/ i = 1 \/ i = 2 \/ i = 3 \/ i = 4 \/ i = 5 \/
                      i = 6 \/ i = 7) /\ (k = 0 \/ k = 1)) by lia.
    destruct Hcases as (Ei & Ek).
    repeat (destruct Ei as [->|Ei]); repeat (destruct Ek as [->|Ek]);
      try subst i; try subst k; vm_compute; split; reflexivity.
Defined.

Lemma CaffeToCuDNN_pure_depthwise_witness :
  exists l1 (grouped : Blob Z),
    CaffeToCuDNN example_depthwise_layer = Ok l1 /\
    blobs_ (base l1) = grouped :: tail (blobs_ (base example_depthwise_layer)) /\
    load (data_ grouped) 11 = Ok 111 /\
    load (data_ (mask_ l1)) 11 = Ok scalar_1.
Proof.
  destruct (CaffeToCuDNN_pure_depthwise example_depthwise_layer _ _ eq_refl)
    as (_ & _ & l1 & grouped & Hrun & Hb & Hat).
  - repeat split; vm_compute; first [reflexivity | discriminate].
  - repeat split; vm_compute; first [reflexivity | discriminate].
  - reflexivity.
  - exists l1, grouped. split; [exact Hrun|]. split; [exact Hb|].
    destruct (Hat 11) as (Hd & _ & Hm); [vm_compute; split; congruence|].
    split; [exact Hd | exact Hm].
Defined.

(** ** Loops that returned *)

Lemma for_from_preserves {St} (I : Z -> St -> Prop) (body : Z -> St -> Res St)
    (count : nat) (i : Z) (s s' : St) :
  for_from i count body s = Ok s' ->
  I i s ->
  (forall j t t', i <= j < i + Z.of_nat count -> body j t = Ok t' -> I j t ->
     I (j + 1) t') ->
  I (i + Z.of_nat count) s'.
Proof.
  revert i s. induction count as [|c IH]; intros i s Hrun Hi Hstep.
  - injection Hrun as <-. now replace (i + Z.of_nat 0) with i by lia.
  - cbn [for_from] in Hrun. apply bind_Ok_inv in Hrun as (t & Ht & Hrun).
    replace (i + Z.of_nat (S c)) with (i + 1 + Z.of_nat c) by lia.
    apply (IH (i + 1) t Hrun).
    + apply (Hstep i s t); [lia | exact Ht | exact Hi].
    + intros j u u' Hj. apply Hstep. lia.
Qed.

Lemma for_loop_preserves {St} (I : Z -> St -> Prop) (body : Z -> St -> Res St)
    (n : nat) (s s' : St) :
  for_loop (Z.of_nat n) body s = Ok s' ->
  I 0 s ->
  (forall j t t', 0 <= j < Z.of_nat n -> body j t = Ok t' -> I j t ->
     I (j + 1) t') ->
  I (Z.of_nat n) s'.
Proof.
  unfold for_loop. rewrite Nat2Z.id. intros Hrun H0 Hstep.
  apply (for_from_preserves I body n 0 s s' Hrun H0).
  intros j t t' Hj. apply Hstep. lia.
Qed.

Lemma int_div_inv a b c : int_div a b = Ok c -> b <> 0 /\ c = Z.quot a b.
Proof. unfold int_div. case_decide; [discriminate|]. now intros [= <-]. Qed.

Lemma checked_query_inv call answer v :
  checked_query call answer = Ok v -> answer = Some v.
Proof. destruct answer; [now intros [= ->] | discriminate]. Qed.

Lemma store_lookup {A} (p p' : list A) idx v :
  store p idx v = Ok p' ->
  0 <= idx /\ (Z.to_nat idx < length p)%nat /\ p' = <[Z.to_nat idx := v]> p.
Proof. intros (Hi & ->)%store_inv. repeat split; lia. Qed.

(** ** [Reshape]: the loop over the bound inputs *)

Section ReshapeBottoms.
Context {Dtype BlobProto : Type}.
Variables (be : Backend) (b : DepthwiseLayer Dtype BlobProto) (group : Z)
  (handle : list nat) (g : ReshapeGeometry).

Lemma Reshape_bottom_inv i d p d' p' :
  Reshape_bottom be b group handle g i (d, p) = Ok (d', p') ->
  group <> 0 /\ 0 <= i /\ is_Some (handle !! 0%nat) /\
  exists bottom_desc top_desc conv_desc fwd fwd_size bwd_filter bwd_filter_size
         bwd_data bwd_data_size,
    bottom_descs_ d !! Z.to_nat i = Some bottom_desc /\
    top_descs_ d !! Z.to_nat i = Some top_desc /\
    conv_descs_ d !! Z.to_nat i = Some conv_desc /\
    d' = {| bottom_descs_ := <[Z.to_nat i := bottom_desc_set b group g bottom_desc]>
                               (bottom_descs_ d);
            top_descs_ := <[Z.to_nat i := top_desc_set b group g top_desc]>
                            (top_descs_ d);
            bias_desc_ := bias_desc_ d; filter_desc_ := filter_desc_ d;
            conv_descs_ := <[Z.to_nat i := conv_desc_set g conv_desc]>
                             (conv_descs_ d) |} /\
    p' = {| fwd_algo_ := <[Z.to_nat i := fwd]> (fwd_algo_ p);
            bwd_filter_algo_ := <[Z.to_nat i := bwd_filter]> (bwd_filter_algo_ p);
            bwd_data_algo_ := <[Z.to_nat i := bwd_data]> (bwd_data_algo_ p);
            workspace_fwd_sizes_ := <[Z.to_nat i := fwd_size]> (workspace_fwd_sizes_ p);
            workspace_bwd_data_sizes_ :=
              <[Z.to_nat i := bwd_data_size]> (workspace_bwd_data_sizes_ p);
            workspace_bwd_filter_sizes_ :=
              <[Z.to_nat i := bwd_filter_size]> (workspace_bwd_filter_sizes_ p) |} /\
    Forall (fun len => (Z.to_nat i < len)%nat) (plan_lengths p) /\
    cudnnGetConvolutionForwardAlgorithm be (bottom_desc_set b group g bottom_desc)
      (filter_desc_ d) (conv_desc_set g conv_desc) (top_desc_set b group g top_desc)
      workspace_limit_bytes = Some fwd /\
    cudnnGetConvolutionForwardWorkspaceSize be (bottom_desc_set b group g bottom_desc)
      (filter_desc_ d) (conv_desc_set g conv_desc) (top_desc_set b group g top_desc)
      fwd = Some fwd_size /\
    cudnnGetConvolutionBackwardFilterAlgorithm be
      (bottom_desc_set b group g bottom_desc) (top_desc_set b group g top_desc)
      (conv_desc_set g conv_desc) (filter_desc_ d) workspace_limit_bytes
    = Some bwd_filter /\
    cudnnGetConvolutionBackwardFilterWorkspaceSize be
      (bottom_desc_set b group g bottom_desc) (top_desc_set b group g top_desc)
      (conv_desc_set g conv_desc) (filter_desc_ d) bwd_filter
    = Some bwd_filter_size /\
    cudnnGetConvolutionBackwardDataAlgorithm be (filter_desc_ d)
      (top_desc_set b group g top_desc) (conv_desc_set g conv_desc)
      (bottom_desc_set b group g bottom_desc) workspace_limit_bytes
    = Some bwd_data /\
    cudnnGetConvolutionBackwardDataWorkspaceSize be (filter_desc_ d)
      (top_desc_set b group g top_desc) (conv_desc_set g conv_desc)
      (bottom_desc_set b group g bottom_desc) bwd_data
    = Some bwd_data_size.
Proof.
  unfold Reshape_bottom, setTensor4dDesc_strided, setConvolutionDesc.
  intros Hrun. repeat ok_step. subst.
  repeat match goal with
  | E : int_div _ _ = Ok _ |- _ => apply int_div_inv in E; destruct E as (? & ?)
  | E : checked_query _ _ = Ok _ |- _ => apply checked_query_inv in E
  | E : store _ _ _ = Ok _ |- _ =>
      apply store_lookup in E; destruct E as (? & ? & ?)
  | E : load _ _ = Ok _ |- _ => apply load_Ok_iff in E; destruct E as (? & ?)
  end.
  subst.
  split; [assumption|]. split; [assumption|]. split; [eexists; eassumption|].
  eexists _, _, _, _, _, _, _, _, _.
  split; [eassumption|]. split; [eassumption|]. split; [eassumption|].
  split; [reflexivity|]. split; [reflexivity|].
  split; [unfold plan_lengths; repeat constructor; assumption|].
  repeat split; assumption.
Qed.

Lemma fmap_insert_same {A B} (f : A -> B) (l : list A) (i : nat) (x y : A) :
  l !! i = Some x -> f y = f x -> map f (<[i := y]> l) = map f l.
Proof.
  intros Hx Hf. change (f <$> <[i := y]> l = f <$> l).
  rewrite list_fmap_insert, Hf. apply list_insert_id.
  now rewrite list_lookup_fmap, Hx.
Qed.

Lemma Reshape_bottoms_inv (n : nat) d0 p0 d p :
  for_loop (Z.of_nat n) (Reshape_bottom be b group handle g) (d0, p0) = Ok (d, p) ->
  Reshape_bottoms_invariant be b group g d0 p0 (Z.of_nat n) (d, p).
Proof.
  intros Hrun.
  apply (for_loop_preserves (Reshape_bottoms_invariant be b group g d0 p0)
           _ n (d0, p0) (d, p) Hrun).
  - unfold Reshape_bottoms_invariant. cbn [fst snd].
    repeat split; try reflexivity; lia.
  - clear Hrun d p. intros i [d1 p1] [d2 p2] Hi Hstep
      (Hids & Hbias & Hfilter & Hlen & Hrest & Hdone).
    cbn [fst snd] in *.
    apply Reshape_bottom_inv in Hstep
      as (_ & _ & _ & bd & td & cd & fwd & fsz & bf & bfsz & bdt & bdsz &
          Hbd & Htd & Hcd & -> & -> & Hin & Q1 & Q2 & Q3 & Q4 & Q5 & Q6).
    unfold plan_lengths in Hin.
    repeat match goal with
           | E : Forall _ (_ :: _) |- _ => apply Forall_cons in E as (? & E)
           end.
    pose proof (lookup_lt_Some _ _ _ Hbd) as Lb.
    pose proof (lookup_lt_Some _ _ _ Htd) as Lt.
    pose proof (lookup_lt_Some _ _ _ Hcd) as Lc.
    unfold Reshape_bottoms_invariant. cbn [fst snd].
    split; [|split; [exact Hbias|split; [exact Hfilter|split; [|split]]]].
    + rewrite <- Hids. unfold descriptor_ids.
      cbn [bottom_descs_ top_descs_ bias_desc_ filter_desc_ conv_descs_].
      rewrite (fmap_insert_same tensor_id _ _ bd) by (assumption || reflexivity).
      rewrite (fmap_insert_same tensor_id _ _ td) by (assumption || reflexivity).
      rewrite (fmap_insert_same conv_id _ _ cd) by (assumption || reflexivity).
      reflexivity.
    + rewrite <- Hlen. unfold plan_lengths.
      cbn [fwd_algo_ bwd_filter_algo_ bwd_data_algo_ workspace_fwd_sizes_
           workspace_bwd_data_sizes_ workspace_bwd_filter_sizes_].
      now rewrite !length_insert.
    + intros j Hj.
      cbn [bottom_descs_ top_descs_ conv_descs_].
      rewrite !list_lookup_insert_ne by lia. apply Hrest. lia.
    + intros j Hj. destruct (decide (j = Z.to_nat i)) as [->|Hne].
      * destruct (Hrest (Z.to_nat i)) as (Rb & Rt & Rc); [lia|].
        split.
        -- unfold described.
           cbn [bottom_descs_ top_descs_ conv_descs_].
           rewrite !list_lookup_insert_eq by assumption.
           rewrite <- Rb, <- Rt, <- Rc, Hbd, Htd, Hcd.
           repeat split; eauto.
        -- unfold planned.
           cbn [bottom_descs_ top_descs_ conv_descs_ filter_desc_ fwd_algo_
                bwd_filter_algo_ bwd_data_algo_ workspace_fwd_sizes_
                workspace_bwd_data_sizes_ workspace_bwd_filter_sizes_].
           rewrite !list_lookup_insert_eq by assumption.
           eexists _, _, _, _, _, _, _, _, _.
           repeat split; try reflexivity;
             first [exact Q1 | exact Q2 | exact Q3 | exact Q4 | exact Q5 | exact Q6].
      * destruct (Hdone j) as (Hdesc & Hplan); [lia|]. split.
        -- unfold described in *.
           cbn [bottom_descs_ top_descs_ conv_descs_].
           rewrite !list_lookup_insert_ne by lia. exact Hdesc.
        -- unfold planned in *.
           cbn [bottom_descs_ top_descs_ conv_descs_ filter_desc_ fwd_algo_
                bwd_filter_algo_ bwd_data_algo_ workspace_fwd_sizes_
                workspace_bwd_data_sizes_ workspace_bwd_filter_sizes_].
           rewrite !list_lookup_insert_ne by lia. exact Hplan.
Qed.
End ReshapeBottoms.

(** ** [Reshape], step by step *)

Lemma framework_inv {A} (r : option A) (a : A) : framework r = Ok a -> r = Some a.
Proof. destruct r; [now intros [= ->] | discriminate]. Qed.

Lemma CHECK_EQ_inv a b msg u : CHECK_EQ a b msg = Ok u -> a = b.
Proof. unfold CHECK_EQ. case_decide; [auto | discriminate]. Qed.

Lemma BACKEND_CHECK_inv be call u :
  BACKEND_CHECK be call = Ok u -> call_succeeds be call = true.
Proof. unfold BACKEND_CHECK. destruct (call_succeeds be call); [auto | discriminate]. Qed.

Section ReshapeSteps.
Context {Dtype BlobProto : Type} `{Scalar Dtype}.
Variables (fw : Framework Dtype BlobProto) (be : Backend).
Local Abbreviation Layer := (CuDNNDepthwiseLayer Dtype BlobProto).

Lemma Reshape_inv_full (l l' : Layer) bottom top w w' :
  Reshape fw be l bottom top w = Ok (l', w') ->
  exists b top' bottom0 top0 g d p1,
    DepthwiseLayer_Reshape fw (base l) bottom top = Some (b, top') /\
    num_spatial_axes_ b = 2 /\ group_ l <> 0 /\
    bottom !! 0%nat = Some bottom0 /\ top' !! 0%nat = Some top0 /\
    Blob_shape fw bottom0 (channel_axis_ b + 1) = Some (height g) /\
    Blob_shape fw bottom0 (channel_axis_ b + 2) = Some (width g) /\
    Blob_shape fw top0 (channel_axis_ b + 1) = Some (height_out g) /\
    Blob_shape fw top0 (channel_axis_ b + 2) = Some (width_out g) /\
    pad_ b !! 0%nat = Some (pad_h g) /\ pad_ b !! 1%nat = Some (pad_w g) /\
    stride_ b !! 0%nat = Some (stride_h g) /\
    stride_ b !! 1%nat = Some (stride_w g) /\
    for_loop (Z.of_nat (length bottom))
      (Reshape_bottom be b (group_ l) (handle_ l) g) (descs l, plan l)
    = Ok (d, p1) /\
    Reshape_workspace be (Z.of_nat (length bottom)) (p1, pool l) w
    = Ok ((plan l', pool l'), w') /\
    (bias_term_ b = true ->
     call_succeeds be "cudnnSetTensor4dDescriptorEx" = true) /\
    l' = {| base := b; handles_setup_ := handles_setup_ l;
            handle_ := handle_ l; stream_ := stream_ l; plan := plan l';
            descs := {| bottom_descs_ := bottom_descs_ d;
                        top_descs_ := top_descs_ d;
                        bias_desc_ :=
                          if bias_term_ b
                          then {| tensor_id := tensor_id (bias_desc_ d);
                                  tensor_nchw := Some (1, num_output_ b, 1, 1);
                                  tensor_strides :=
                                    Some (num_output_ b, 1, 1, 1) |}
                          else bias_desc_ d;
                        filter_desc_ := filter_desc_ d;
                        conv_descs_ := conv_descs_ d |};
            group_ := group_ l; weight_offset_ := weight_offset_ l;
            bottom_offset_ := Z.quot (bottom_dim_ b) (group_ l);
            top_offset_ := Z.quot (top_dim_ b) (group_ l);
            pool := pool l'; caffe_weight_ := caffe_weight_ l;
            mask_ := mask_ l |}.
Proof.
  unfold Reshape. intros Hrun.
  m_next Hrun. destruct a as [b top'].
  do 14 m_next Hrun.
  destruct a12 as [d p1].
  m_step Hrun. destruct a12 as [p2 sp2].
  m_step Hrun.
  repeat match goal with
  | E : int_div _ _ = Ok _ |- _ => apply int_div_inv in E; destruct E as (? & ?)
  | E : framework _ = Ok _ |- _ => apply framework_inv in E
  | E : CHECK_EQ _ _ _ = Ok _ |- _ => apply CHECK_EQ_inv in E
  | E : load _ _ = Ok _ |- _ => apply load_Ok_iff in E; destruct E as (? & ?)
  end.
  assert (Hbias : w1 = w0 /\
            a12 = (if bias_term_ b
                   then {| tensor_id := tensor_id (bias_desc_ d);
                           tensor_nchw := Some (1, num_output_ b, 1, 1);
                           tensor_strides := Some (num_output_ b, 1, 1, 1) |}
                   else bias_desc_ d) /\
            (bias_term_ b = true ->
             call_succeeds be "cudnnSetTensor4dDescriptorEx" = true)).
  { destruct (bias_term_ b).
    - apply lift_inv in Ha15 as (Hset & ->).
      unfold setTensor4dDesc, setTensor4dDesc_strided in Hset.
      apply bind_Ok_inv in Hset as (u & Hu & Hset). injection Hset as <-.
      apply BACKEND_CHECK_inv in Hu. split; [reflexivity|]. split; [|auto].
      cbv zeta. change (1 * 1) with 1. now rewrite !Z.mul_1_r.
    - apply M_ret_inv in Ha15 as (-> & ->). split; [reflexivity|].
      split; [reflexivity | discriminate]. }
  destruct Hbias as (-> & -> & Hcall).
  apply M_ret_inv in Hrun as (-> & ->). subst.
  eexists b, top', a2, a3,
    {| height := a4; width := a5; height_out := a6; width_out := a7;
       pad_h := a8; pad_w := a9; stride_h := a10; stride_w := a11 |}, d, p1.
  cbn [height width height_out width_out pad_h pad_w stride_h stride_w plan pool].
  repeat split; first [assumption | reflexivity | symmetry; assumption].
Qed.
End ReshapeSteps.

(** ** [Reshape]: the scratch pool, from a run that returned *)

Lemma Reshape_zero_path_inv (n : nat) (p p' : AlgorithmPlan) :
  for_loop (Z.of_nat n) Reshape_zero_path p = Ok p' ->
  zero_memory_path n p' /\ plan_lengths p' = plan_lengths p.
Proof.
  intros Hrun.
  pose (I := fun (i : Z) (q : AlgorithmPlan) =>
               zero_memory_path (Z.to_nat i) q /\ plan_lengths q = plan_lengths p).
  destruct (for_loop_preserves I Reshape_zero_path n p p' Hrun) as (Hz & Hl).
  - split; [|reflexivity]. intros i Hi. lia.
  - intros i q q' Hi Hstep (Hz & Hl). unfold Reshape_zero_path in Hstep.
    repeat ok_step. subst.
    repeat match goal with
    | E : store _ _ _ = Ok _ |- _ =>
        apply store_lookup in E; destruct E as (? & ? & ?)
    end.
    subst. split.
    + intros j Hj. cbn.
      destruct (decide (j = Z.to_nat i)) as [->|Hne].
      * rewrite !list_lookup_insert_eq by assumption. tauto.
      * rewrite !list_lookup_insert_ne by lia. apply Hz. lia.
    + rewrite <- Hl. unfold plan_lengths. cbn. now rewrite !length_insert.
  - rewrite Nat2Z.id in Hz. auto.
Qed.

Lemma Reshape_alias_workspaces_inv (data m : Z) (ws ws' : list Z) :
  Reshape_alias_workspaces data m ws = Ok ws' ->
  length ws' = length ws /\ (3 <= length ws)%nat /\
  ws' !! 0%nat = Some (ptr_add data (size_mul 0 m)) /\
  ws' !! 1%nat = Some (ptr_add data (size_mul 1 m)) /\
  ws' !! 2%nat = Some (ptr_add data (size_mul 2 m)).
Proof.
  unfold Reshape_alias_workspaces, for_loop.
  change (Z.to_nat CUDNN_STREAMS_DEPTHWISE) with 3%nat. cbn [for_from].
  intros Hrun. repeat ok_step. subst.
  repeat match goal with
  | E : store _ _ _ = Ok _ |- _ =>
      apply store_lookup in E; destruct E as (? & ? & ?)
  end.
  subst. rewrite !length_insert in *.
  change (Z.to_nat (0 + 1 + 1)) with 2%nat in *.
  change (Z.to_nat (0 + 1)) with 1%nat in *.
  change (Z.to_nat 0) with 0%nat in *.
  split; [reflexivity|]. split; [lia|]. split; [|split].
  - rewrite !list_lookup_insert_ne by lia.
    now rewrite list_lookup_insert_eq by lia.
  - rewrite list_lookup_insert_ne by lia.
    now rewrite list_lookup_insert_eq by (rewrite length_insert; lia).
  - now rewrite list_lookup_insert_eq by (rewrite !length_insert; lia).
Qed.

Lemma Reshape_null_workspaces_inv (ws ws' : list Z) :
  Reshape_null_workspaces ws = Ok ws' -> length ws' = length ws.
Proof.
  unfold Reshape_null_workspaces, for_loop.
  change (Z.to_nat CUDNN_STREAMS_DEPTHWISE) with 3%nat. cbn [for_from].
  intros Hrun. repeat ok_step. subst.
  repeat match goal with
  | E : store _ _ _ = Ok _ |- _ =>
      apply store_lookup in E; destruct E as (? & ? & ?)
  end.
  subst. now rewrite !length_insert.
Qed.

(** The regions [Reshape] leaves when it has reallocated, and the ways it can
    have ended. *)
Lemma Reshape_workspace_inv be (n : nat) p sp w p' sp' w' :
  Reshape_workspace be (Z.of_nat n) (p, sp) w = Ok ((p', sp'), w') ->
  exists m,
    Reshape_max_workspace (Z.of_nat n) p = Ok m /\
    plan_lengths p' = plan_lengths p /\
    length (workspace sp') = length (workspace sp) /\
    ((size_mul m CUDNN_STREAMS_DEPTHWISE <= workspaceSizeInBytes sp /\
      p' = p /\ sp' = sp /\ w' = w) \/
     (workspaceSizeInBytes sp < size_mul m CUDNN_STREAMS_DEPTHWISE /\
      w' = reallocated (workspaceData sp) (size_mul m CUDNN_STREAMS_DEPTHWISE)
             (cudaMalloc be (size_mul m CUDNN_STREAMS_DEPTHWISE)) w /\
      workspace sp' !! 0%nat = Some (ptr_add (workspaceData sp') (size_mul 0 m)) /\
      workspace sp' !! 1%nat = Some (ptr_add (workspaceData sp') (size_mul 1 m)) /\
      workspace sp' !! 2%nat = Some (ptr_add (workspaceData sp') (size_mul 2 m)) /\
      ((exists ptr,
          cudaMalloc be (size_mul m CUDNN_STREAMS_DEPTHWISE) = Some ptr /\
          p' = p /\
          workspaceSizeInBytes sp' = size_mul m CUDNN_STREAMS_DEPTHWISE /\
          workspaceData sp' = ptr) \/
       (cudaMalloc be (size_mul m CUDNN_STREAMS_DEPTHWISE) = None /\
        zero_memory_path n p' /\
        workspaceSizeInBytes sp' = 0 /\ workspaceData sp' = NULL)))).
Proof.
  unfold Reshape_workspace. intros Hrun.
  m_step Hrun. m_lift Ha. exists a. split; [exact Ha|].
  case_decide as Hgrow.
  - rewrite realloc_bind in Hrun.
    set (total := size_mul a CUDNN_STREAMS_DEPTHWISE) in *.
    destruct (cudaMalloc be total) as [ptr|] eqn:Hmalloc.
    + m_step Hrun. apply M_ret_inv in Ha0 as (-> & ->).
      m_step Hrun. m_lift Ha0. apply M_ret_inv in Hrun as ([= -> ->] & ->).
      cbn [workspace workspaceData workspaceSizeInBytes] in *.
      apply Reshape_alias_workspaces_inv in Ha0 as (L & _ & W0 & W1 & W2).
      split; [reflexivity|]. split; [exact L|]. right.
      split; [lia|]. split; [reflexivity|].
      split; [exact W0|]. split; [exact W1|]. split; [exact W2|].
      left. exists ptr. auto.
    + m_step Hrun. m_step Ha0. m_lift Ha1. m_step Ha0. m_lift Ha2.
      apply M_ret_inv in Ha0 as (-> & ->).
      m_step Hrun. m_lift Ha0. apply M_ret_inv in Hrun as ([= -> ->] & ->).
      cbn [workspace workspaceData workspaceSizeInBytes] in *.
      apply Reshape_alias_workspaces_inv in Ha0 as (L & _ & W0 & W1 & W2).
      apply Reshape_null_workspaces_inv in Ha2.
      apply Reshape_zero_path_inv in Ha1 as (Hz & Hl).
      split; [exact Hl|]. split; [congruence|]. right.
      split; [lia|]. split; [reflexivity|].
      split; [exact W0|]. split; [exact W1|]. split; [exact W2|].
      right. auto.
  - apply M_ret_inv in Hrun as ([= -> ->] & ->).
    split; [reflexivity|]. split; [reflexivity|]. left.
    split; [lia|]. auto.
Qed.

Lemma reallocated_next_id old size err w :
  next_id (reallocated old size err w) = next_id w.
Proof. reflexivity. Qed.

Lemma reallocated_held old size err w r :
  (forall ptr, r <> DeviceMemory ptr) ->
  r ∈ held (reallocated old size err w) <-> r ∈ held w.
Proof.
  intros Hr. unfold reallocated. cbn [held].
  assert (Hfreed : r ∈ (if decide (old = NULL) then held w
                        else filter (fun x => x <> DeviceMemory old) (held w))
                   <-> r ∈ held w).
  { case_decide; [reflexivity|]. rewrite list_elem_of_filter.
    split; [tauto|]. intros Hin. split; [apply Hr | exact Hin]. }
  destruct err as [ptr|]; [|exact Hfreed].
  rewrite elem_of_cons, Hfreed. split; [|tauto].
  intros [E|Hin]; [|exact Hin]. exfalso. now apply (Hr ptr).
Qed.

Lemma planned_plan_fits be d p (n : nat) :
  (forall j, (j < n)%nat -> planned be d p j) -> plan_fits n p.
Proof.
  intros Hp. destruct n as [|k].
  - unfold plan_fits. repeat split; lia.
  - destruct (Hp k) as (bd & td & cd & f & fs & bf & bfs & bdt & bds &
                        _ & _ & _ & L1 & L2 & L3 & L4 & L5 & L6 & _); [lia|].
    apply lookup_lt_Some in L1, L2, L3, L4, L5, L6.
    unfold plan_fits. repeat split; lia.
Qed.

Lemma zero_memory_path_perStreamMax (n : nat) (p : AlgorithmPlan) :
  zero_memory_path n p -> perStreamMax n p = 0.
Proof.
  intros Hz. unfold perStreamMax. induction n as [|k IH]; [reflexivity|].
  cbn [max_over_inputs]. rewrite IH by (intros i Hi; apply Hz; lia).
  destruct (Hz k) as (F & BF & BD & _); [lia|].
  unfold input_scratch, size_at. now rewrite F, BF, BD.
Qed.

(** ** [Reshape]: what it leaves, and what it leaves alone *)

Section ReshapeFurther.
Context {Dtype BlobProto : Type} `{Scalar Dtype}.
Variables (fw : Framework Dtype BlobProto) (be : Backend).
Local Abbreviation Layer := (CuDNNDepthwiseLayer Dtype BlobProto).

(** What the later lemmas on the life of a layer use of [Reshape]. *)
Lemma Reshape_members (l l' : Layer) bottom top w w' :
  Reshape fw be l bottom top w = Ok (l', w') ->
  (handles_setup_ l', handle_ l', stream_ l')
  = (handles_setup_ l, handle_ l, stream_ l) /\
  descriptor_ids (descs l') = descriptor_ids (descs l) /\
  (forall r, (forall ptr, r <> DeviceMemory ptr) -> r ∈ held w' <-> r ∈ held w).
Proof.
  intros Hrun.
  apply Reshape_inv_full in Hrun
    as (b & top' & bottom0 & top0 & g & d & p1 & _ & _ & _ & _ & _ & _ & _ & _ &
        _ & _ & _ & _ & _ & Hloop & Hws & _ & Hl').
  apply Reshape_bottoms_inv in Hloop as (Hids & _).
  cbn [fst snd] in *.
  apply Reshape_workspace_inv in Hws as (m & _ & _ & _ & Hcases).
  rewrite Hl'. cbn [handles_setup_ handle_ stream_ descs].
  split; [reflexivity|]. split.
  - rewrite <- Hids. unfold descriptor_ids.
    cbn [bottom_descs_ top_descs_ bias_desc_ filter_desc_ conv_descs_].
    now destruct (bias_term_ b).
  - destruct Hcases as [(_ & _ & _ & ->)|(_ & -> & _)]; [reflexivity|].
    intros r Hr. now apply reallocated_held.
Qed.

(** X8. Whenever [Reshape] returns, it has assigned only the base-class
    state, the two offsets, the plan entries, the values set on the
    descriptors and the pool: the setup flag, the stream and handle arrays,
    the group count, the weight offset, the compact weight and the mask are
    as before; every descriptor is the runtime object it was, and the arrays
    have the sizes they had.  In the runtime it creates no object and touches
    nothing but device memory. *)
Theorem Reshape_frame (l l' : Layer) bottom top w w' :
  Reshape fw be l bottom top w = Ok (l', w') ->
  (handles_setup_ l', handle_ l', stream_ l', group_ l', weight_offset_ l')
  = (handles_setup_ l, handle_ l, stream_ l, group_ l, weight_offset_ l) /\
  caffe_weight_ l' = caffe_weight_ l /\ mask_ l' = mask_ l /\
  descriptor_ids (descs l') = descriptor_ids (descs l) /\
  filter_desc_ (descs l') = filter_desc_ (descs l) /\
  plan_lengths (plan l') = plan_lengths (plan l) /\
  length (workspace (pool l')) = length (workspace (pool l)) /\
  next_id w' = next_id w /\
  (forall r, (forall ptr, r <> DeviceMemory ptr) -> r ∈ held w' <-> r ∈ held w).
Proof.
  intros Hrun.
  apply Reshape_inv_full in Hrun
    as (b & top' & bottom0 & top0 & g & d & p1 & _ & _ & _ & _ & _ & _ & _ & _ &
        _ & _ & _ & _ & _ & Hloop & Hws & _ & Hl').
  apply Reshape_bottoms_inv in Hloop as (Hids & Hbias & Hfilter & Hlen & _).
  cbn [fst snd] in *.
  apply Reshape_workspace_inv in Hws as (m & _ & Hlen' & Hwl & Hcases).
  rewrite Hl'.
  cbn [handles_setup_ handle_ stream_ group_ weight_offset_ caffe_weight_ mask_
       descs plan pool filter_desc_].
  split; [reflexivity|]. split; [reflexivity|]. split; [reflexivity|].
  split; [|split; [exact Hfilter|split; [congruence|split; [exact Hwl|]]]].
  - rewrite <- Hids. unfold descriptor_ids.
    cbn [bottom_descs_ top_descs_ bias_desc_ filter_desc_ conv_descs_].
    now destruct (bias_term_ b).
  - destruct Hcases as [(_ & _ & _ & ->)|(_ & -> & _)].
    + split; [reflexivity|]. reflexivity.
    + split; [apply reallocated_next_id|]. intros r Hr.
      now apply reallocated_held.
Qed.

(** X9. Whenever [Reshape] returns, every bound input has the descriptors
    the runtime gave out for it, with the values of lines 137-146 set on
    them: the per-group channel counts, and the height, width, padding and
    stride read from the first bottom, the first top and the base class, the
    same for every input.  The bias descriptor is set to
    [1 x num_output x 1 x 1] when there is a bias term and is left alone
    otherwise, and the two offsets are the per-group shares of the base-class
    dimensions. *)
Theorem Reshape_describes_inputs (l l' : Layer) bottom top w w' :
  Reshape fw be l bottom top w = Ok (l', w') ->
  exists top' bottom0 top0 g,
    DepthwiseLayer_Reshape fw (base l) bottom top = Some (base l', top') /\
    bottom !! 0%nat = Some bottom0 /\ top' !! 0%nat = Some top0 /\
    Blob_shape fw bottom0 (channel_axis_ (base l') + 1) = Some (height g) /\
    Blob_shape fw bottom0 (channel_axis_ (base l') + 2) = Some (width g) /\
    Blob_shape fw top0 (channel_axis_ (base l') + 1) = Some (height_out g) /\
    Blob_shape fw top0 (channel_axis_ (base l') + 2) = Some (width_out g) /\
    pad_ (base l') !! 0%nat = Some (pad_h g) /\
    pad_ (base l') !! 1%nat = Some (pad_w g) /\
    stride_ (base l') !! 0%nat = Some (stride_h g) /\
    stride_ (base l') !! 1%nat = Some (stride_w g) /\
    (forall i, (i < length bottom)%nat ->
       described (base l') (group_ l) g (descs l) (descs l') i) /\
    (bias_term_ (base l') = true ->
     tensor_nchw (bias_desc_ (descs l')) = Some (1, num_output_ (base l'), 1, 1) /\
     tensor_strides (bias_desc_ (descs l'))
     = Some (num_output_ (base l'), 1, 1, 1)) /\
    (bias_term_ (base l') = false ->
     bias_desc_ (descs l') = bias_desc_ (descs l)) /\
    bottom_offset_ l' = Z.quot (bottom_dim_ (base l')) (group_ l) /\
    top_offset_ l' = Z.quot (top_dim_ (base l')) (group_ l).
Proof.
  intros Hrun.
  apply Reshape_inv_full in Hrun
    as (b & top' & bottom0 & top0 & g & d & p1 & Hfw & _ & _ & Hb0 & Ht0 &
        S1 & S2 & S3 & S4 & P1 & P2 & T1 & T2 & Hloop & _ & _ & Hl').
  apply Reshape_bottoms_inv in Hloop as (_ & Hbias & _ & _ & _ & Hdone).
  cbn [fst snd] in *. rewrite Nat2Z.id in Hdone.
  exists top', bottom0, top0, g. rewrite Hl'.
  cbn [base descs bias_desc_ bottom_offset_ top_offset_].
  repeat (split; [assumption|]).
  split; [|split; [|split; [|split; reflexivity]]].
  - intros i Hi. destruct (Hdone i Hi) as (Hd & _). exact Hd.
  - intros ->. split; reflexivity.
  - intros ->. exact Hbias.
Qed.

(** X10. Whenever [Reshape] returns, the plan is one of two: either every
    bound input has the algorithms the backend chose for its descriptors
    under the workspace limit, with the scratch sizes the backend reported
    for those algorithms; or the allocation was refused, and every input is
    on the zero memory path with the pool empty and its pointer null. *)
Theorem Reshape_plans_inputs (l l' : Layer) bottom top w w' :
  Reshape fw be l bottom top w = Ok (l', w') ->
  (forall i, (i < length bottom)%nat -> planned be (descs l') (plan l') i) \/
  (zero_memory_path (length bottom) (plan l') /\
   workspaceSizeInBytes (pool l') = 0 /\ workspaceData (pool l') = NULL /\
   exists req, malloc_requests w' = req :: malloc_requests w /\
               cudaMalloc be req = None).
Proof.
  intros Hrun.
  apply Reshape_inv_full in Hrun
    as (b & top' & bottom0 & top0 & g & d & p1 & _ & _ & _ & _ & _ & _ & _ & _ &
        _ & _ & _ & _ & _ & Hloop & Hws & _ & Hl').
  apply Reshape_bottoms_inv in Hloop as (_ & _ & _ & _ & _ & Hdone).
  cbn [fst snd] in *. rewrite Nat2Z.id in Hdone.
  assert (Hplanned : forall i, (i < length bottom)%nat ->
            planned be (descs l') p1 i).
  { intros i Hi. destruct (Hdone i Hi) as (_ & Hp). rewrite Hl'. exact Hp. }
  apply Reshape_workspace_inv in Hws as (m & _ & _ & _ & Hcases).
  destruct Hcases as [(_ & -> & _)|(_ & Hw' & _ & _ & _ & Hcases)].
  - left. exact Hplanned.
  - destruct Hcases as [(ptr & _ & -> & _)|(Hnone & Hz & Hs & Hd)].
    + left. exact Hplanned.
    + right. split; [exact Hz|]. split; [exact Hs|]. split; [exact Hd|].
      eexists. split; [|exact Hnone]. rewrite Hw'. reflexivity.
Qed.

(** X11. Whenever [Reshape] returns, the pool covers the plan it leaves: its
    size is at least [CUDNN_STREAMS_DEPTHWISE] times the largest scratch
    size any bound input has in the plan. *)
Theorem Reshape_pool_covers_plan (l l' : Layer) bottom top w w' :
  Reshape fw be l bottom top w = Ok (l', w') ->
  size_mul (perStreamMax (length bottom) (plan l')) CUDNN_STREAMS_DEPTHWISE
  <= workspaceSizeInBytes (pool l').
Proof.
  intros Hrun.
  apply Reshape_inv_full in Hrun
    as (b & top' & bottom0 & top0 & g & d & p1 & _ & _ & _ & _ & _ & _ & _ & _ &
        _ & _ & _ & _ & _ & Hloop & Hws & _ & _).
  apply Reshape_bottoms_inv in Hloop as (_ & _ & _ & _ & _ & Hdone).
  cbn [fst snd] in *. rewrite Nat2Z.id in Hdone.
  assert (Hfit : plan_fits (length bottom) p1).
  { apply (planned_plan_fits be d). intros j Hj. now apply Hdone. }
  apply Reshape_workspace_inv in Hws as (m & Hm & _ & _ & Hcases).
  rewrite (Reshape_max_workspace_spec _ _ Hfit) in Hm. injection Hm as <-.
  destruct Hcases as [(Hle & -> & -> & _)|(_ & _ & _ & _ & _ & Hcases)].
  - exact Hle.
  - destruct Hcases as [(ptr & _ & -> & -> & _)|(_ & Hz & -> & _)].
    + lia.
    + rewrite (zero_memory_path_perStreamMax _ _ Hz). reflexivity.
Qed.

(** X12. What [Reshape] needs: it returns only for at least one bottom, on a
    layer whose group count is not 0, whose base class has two spatial axes,
    whose handle array is not empty, and whose descriptor vectors and plan
    arrays have an entry for every bottom, as [LayerSetUp] for as many
    bottoms leaves them. *)
Theorem Reshape_requires_setup (l l' : Layer) bottom top w w' :
  Reshape fw be l bottom top w = Ok (l', w') ->
  bottom <> [] /\ group_ l <> 0 /\ num_spatial_axes_ (base l') = 2 /\
  is_Some (handle_ l !! 0%nat) /\
  plan_fits (length bottom) (plan l) /\
  (length bottom <= length (bottom_descs_ (descs l)))%nat /\
  (length bottom <= length (top_descs_ (descs l)))%nat /\
  (length bottom <= length (conv_descs_ (descs l)))%nat.
Proof.
  intros Hrun.
  apply Reshape_inv_full in Hrun
    as (b & top' & bottom0 & top0 & g & d & p1 & _ & Hax & Hg & Hb0 & _ & _ & _ &
        _ & _ & _ & _ & _ & _ & Hloop & _ & _ & Hl').
  assert (Hne : bottom <> []) by (intros ->; discriminate).
  split; [exact Hne|]. split; [exact Hg|].
  split; [rewrite Hl'; exact Hax|].
  assert (Hhandle : is_Some (handle_ l !! 0%nat)).
  { unfold for_loop in Hloop. rewrite Nat2Z.id in Hloop.
    destruct bottom as [|x xs]; [contradiction|].
    cbn [length for_from] in Hloop.
    apply bind_Ok_inv in Hloop as ([d1 q1] & Hstep & _).
    now apply Reshape_bottom_inv in Hstep as (_ & _ & Hh & _). }
  split; [exact Hhandle|].
  apply Reshape_bottoms_inv in Hloop as (Hids & _ & _ & Hlen & _ & Hdone).
  cbn [fst snd] in *. rewrite Nat2Z.id in Hdone.
  assert (Hfit : plan_fits (length bottom) p1).
  { apply (planned_plan_fits be d). intros j Hj. now apply Hdone. }
  unfold plan_lengths in Hlen. injection Hlen as L1 L2 L3 L4 L5 L6.
  unfold descriptor_ids in Hids. injection Hids as I1 I2 _ _ I5.
  apply (f_equal length) in I1, I2, I5. rewrite !length_map in I1, I2, I5.
  assert (Hdescs : (length bottom <= length (bottom_descs_ d))%nat /\
                   (length bottom <= length (top_descs_ d))%nat /\
                   (length bottom <= length (conv_descs_ d))%nat).
  { destruct (length bottom) as [|k] eqn:E; [repeat split; lia|].
    destruct (Hdone k) as ((_ & _ & _ & [? Sb] & [? St] & [? Sc]) & _); [lia|].
    apply lookup_lt_Some in Sb, St, Sc. repeat split; lia. }
  unfold plan_fits in *. repeat split; lia.
Qed.
End ReshapeFurther.

(** X13. When the pool has to grow and [cudaMalloc] refuses, lines 210-233
    leave every bound input on the zero memory path, the pool size at 0 and
    the pool pointer null, and then alias the regions all the same: the
    region pointer of stream [g] is [g * max_workspace] from the null
    pointer, so that of stream 0 is null and that of stream 1 is not. *)
Theorem Reshape_workspace_allocation_failure
    (be : Backend) (n : nat) (p : AlgorithmPlan) (sp : ScratchPool) (w : World) :
  plan_fits n p -> length (workspace sp) = 3%nat ->
  0 <= workspaceSizeInBytes sp ->
  perStreamMax n p < SIZE_T_MODULUS ->
  workspaceSizeInBytes sp < size_mul (perStreamMax n p) CUDNN_STREAMS_DEPTHWISE ->
  cudaMalloc be (size_mul (perStreamMax n p) CUDNN_STREAMS_DEPTHWISE) = None ->
  exists p' sp' w',
    Reshape_workspace be (Z.of_nat n) (p, sp) w = Ok ((p', sp'), w') /\
    zero_memory_path n p' /\
    workspaceSizeInBytes sp' = 0 /\ workspaceData sp' = NULL /\
    workspace sp' = [NULL; perStreamMax n p;
                     size_mul 2 (perStreamMax n p)] /\
    perStreamMax n p <> NULL /\
    malloc_requests w'
    = size_mul (perStreamMax n p) CUDNN_STREAMS_DEPTHWISE :: malloc_requests w /\
    (workspaceData sp <> NULL -> DeviceMemory (workspaceData sp) ∉ held w').
Proof.
  intros Hfit Hws Hsize Hmax Hlt Hnone.
  pose proof (perStreamMax_nonneg n p) as Hpos.
  pose proof SIZE_T_MODULUS_pos as Hmod.
  destruct (Reshape_workspace_no_memory be n p sp w Hfit Hws Hlt Hnone)
    as (p' & Hrun & Hz & _).
  eexists _, _, _. split; [exact Hrun|].
  cbn [workspaceSizeInBytes workspaceData workspace].
  split; [exact Hz|]. split; [reflexivity|]. split; [reflexivity|].
  assert (H1 : ptr_add NULL (size_mul 1 (perStreamMax n p)) = perStreamMax n p).
  { unfold ptr_add, size_mul, NULL.
    rewrite Z.mul_1_l, Z.add_0_l, Z.mod_mod by lia. apply Z.mod_small. lia. }
  split; [|split; [|split]].
  - assert (H2 : ptr_add NULL (size_mul 2 (perStreamMax n p))
                 = size_mul 2 (perStreamMax n p)).
    { unfold ptr_add, NULL. rewrite Z.add_0_l. unfold size_mul.
      apply Z.mod_mod. lia. }
    rewrite H1, H2. reflexivity.
  - rewrite <- H1. apply (no_memory_region_not_null (workspaceSizeInBytes sp));
      [exact Hsize | exact Hlt | lia].
  - reflexivity.
  - intros Hold. unfold reallocated. cbn [held].
    rewrite decide_False by exact Hold. rewrite list_elem_of_filter.
    intros (Hne & _). now apply Hne.
Qed.

Lemma Reshape_workspace_allocation_failure_witness :
  exists p' sp' w',
    Reshape_workspace backend_no_memory 1
      ({| fwd_algo_ := [1]; bwd_filter_algo_ := [1]; bwd_data_algo_ := [1];
          workspace_fwd_sizes_ := [16]; workspace_bwd_data_sizes_ := [4];
          workspace_bwd_filter_sizes_ := [8] |},
       {| workspaceSizeInBytes := 12; workspaceData := 4096;
          workspace := [4096; 4100; 4104] |})
      {| held := [DeviceMemory 4096; HostArray arr_workspace]; next_id := 0;
         malloc_requests := [12] |}
    = Ok ((p', sp'), w') /\
    workspace sp' = [NULL; 16; 32] /\ malloc_requests w' = [48; 12] /\
    DeviceMemory 4096 ∉ held w'.
Proof.
  destruct (Reshape_workspace_allocation_failure backend_no_memory 1
              {| fwd_algo_ := [1]; bwd_filter_algo_ := [1]; bwd_data_algo_ := [1];
                 workspace_fwd_sizes_ := [16]; workspace_bwd_data_sizes_ := [4];
                 workspace_bwd_filter_sizes_ := [8] |}
              {| workspaceSizeInBytes := 12; workspaceData := 4096;
                 workspace := [4096; 4100; 4104] |}
              {| held := [DeviceMemory 4096; HostArray arr_workspace];
                 next_id := 0; malloc_requests := [12] |})
    as (p' & sp' & w' & Hrun & _ & _ & _ & Hws & _ & Hreq & Hfree).
  - repeat split; cbn; lia.
  - reflexivity.
  - vm_compute. discriminate.
  - reflexivity.
  - reflexivity.
  - reflexivity.
  - exists p', sp', w'. split; [exact Hrun|]. split; [exact Hws|].
    split; [exact Hreq|]. apply Hfree. discriminate.
Defined.

Lemma Reshape_frame_witness :
  exists l' w',
    Reshape example_framework (backend_with_memory 16) example_layer
      example_bottom example_top example_world = Ok (l', w') /\
    next_id w' = next_id example_world /\
    mask_ l' = mask_ example_layer /\
    descriptor_ids (descs l') = descriptor_ids (descs example_layer) /\
    (HostArray arr_workspace ∈ held w' <-> HostArray arr_workspace ∈ held example_world).
Proof.
  destruct (Reshape example_framework (backend_with_memory 16) example_layer
              example_bottom example_top example_world) as [[l' w']|f] eqn:Hrun;
    [|vm_compute in Hrun; discriminate].
  exists l', w'. split; [reflexivity|].
  destruct (Reshape_frame example_framework (backend_with_memory 16)
              example_layer l' example_bottom example_top example_world w' Hrun)
    as (_ & _ & Hmask & Hids & _ & _ & _ & Hnext & Hheld).
  split; [exact Hnext|]. split; [exact Hmask|]. split; [exact Hids|].
  apply Hheld. discriminate.
Defined.

Lemma Reshape_describes_inputs_witness :
  exists l' w' g,
    Reshape example_framework (backend_with_memory 16) example_layer
      example_bottom example_top example_world = Ok (l', w') /\
    described (base l') (group_ example_layer) g (descs example_layer)
      (descs l') 0 /\
    bottom_offset_ l' = 64.
Proof.
  destruct (Reshape example_framework (backend_with_memory 16) example_layer
              example_bottom example_top example_world) as [[l' w']|f] eqn:Hrun;
    [|vm_compute in Hrun; discriminate].
  destruct (Reshape_describes_inputs example_framework (backend_with_memory 16)
              example_layer l' example_bottom example_top example_world w' Hrun)
    as (top' & bottom0 & top0 & g & _ & _ & _ & _ & _ & _ & _ & _ & _ & _ & _ &
        Hdesc & _ & _ & Hbo & _).
  exists l', w', g. split; [reflexivity|]. split.
  - apply Hdesc. cbn. lia.
  - rewrite Hbo. vm_compute in Hrun. injection Hrun as <- _. reflexivity.
Defined.

Lemma Reshape_plans_inputs_witness :
  exists l' w',
    Reshape example_framework backend_no_memory example_layer
      example_bottom example_top example_world = Ok (l', w') /\
    ((forall i, (i < 1)%nat -> planned backend_no_memory (descs l') (plan l') i) \/
     (zero_memory_path 1 (plan l') /\
      workspaceSizeInBytes (pool l') = 0 /\ workspaceData (pool l') = NULL /\
      exists req, malloc_requests w' = req :: malloc_requests example_world /\
                  cudaMalloc backend_no_memory req = None)).
Proof.
  destruct (Reshape example_framework backend_no_memory example_layer
              example_bottom example_top example_world) as [[l' w']|f] eqn:Hrun;
    [|vm_compute in Hrun; discriminate].
  exists l', w'. split; [reflexivity|].
  exact (Reshape_plans_inputs example_framework backend_no_memory
           example_layer l' example_bottom example_top example_world w' Hrun).
Defined.

Lemma Reshape_pool_covers_plan_witness :
  exists l' w',
    Reshape example_framework (backend_with_memory 16) example_layer
      example_bottom example_top example_world = Ok (l', w') /\
    size_mul (perStreamMax 1 (plan l')) CUDNN_STREAMS_DEPTHWISE
    <= workspaceSizeInBytes (pool l').
Proof.
  destruct (Reshape example_framework (backend_with_memory 16) example_layer
              example_bottom example_top example_world) as [[l' w']|f] eqn:Hrun;
    [|vm_compute in Hrun; discriminate].
  exists l', w'. split; [reflexivity|].
  exact (Reshape_pool_covers_plan example_framework (backend_with_memory 16)
           example_layer l' example_bottom example_top example_world w' Hrun).
Defined.

Lemma Reshape_requires_setup_witness :
  exists l' w',
    Reshape example_framework (backend_with_memory 16) example_layer
      example_bottom example_top example_world = Ok (l', w') /\
    group_ example_layer <> 0 /\ plan_fits 1 (plan example_layer).
Proof.
  destruct (Reshape example_framework (backend_with_memory 16) example_layer
              example_bottom example_top example_world) as [[l' w']|f] eqn:Hrun;
    [|vm_compute in Hrun; discriminate].
  exists l', w'. split; [reflexivity|].
  destruct (Reshape_requires_setup example_framework (backend_with_memory 16)
              example_layer l' example_bottom example_top example_world w' Hrun)
    as (_ & Hg & _ & _ & Hfit & _).
  split; [exact Hg | exact Hfit].
Defined.

(** ** Teardown: what is released *)

Lemma release_all_ext (rs rs' : list Resource) (w : World) :
  (forall r, r ∈ rs <-> r ∈ rs') -> release_all rs w = release_all rs' w.
Proof.
  intros Hrs. unfold release_all. f_equal.
  apply list_filter_iff. intros r. now rewrite Hrs.
Qed.

Lemma release_all_app (rs1 rs2 : list Resource) (w : World) :
  release_all rs2 (release_all rs1 w) = release_all (rs1 ++ rs2) w.
Proof.
  unfold release_all. cbn [held next_id malloc_requests]. f_equal.
  rewrite list_filter_filter. apply list_filter_iff. intros r.
  rewrite elem_of_app. tauto.
Qed.

Lemma release_all_nil (w : World) : release_all [] w = w.
Proof.
  unfold release_all. destruct w as [h n m]. cbn. f_equal.
  induction h as [|r h IH]; [reflexivity|].
  rewrite filter_cons_True by apply not_elem_of_nil. now rewrite IH.
Qed.

Lemma drop_resource_release (r : Resource) (w : World) :
  drop_resource r w = release_all [r] w.
Proof.
  unfold drop_resource, release_all. f_equal.
  apply list_filter_iff. intros x. now rewrite list_elem_of_singleton.
Qed.

Lemma held_release_all (rs : list Resource) (w : World) (r : Resource) :
  r ∈ held (release_all rs w) <-> (r ∉ rs) /\ (r ∈ held w).
Proof.
  unfold release_all. cbn [held].
  apply (list_elem_of_filter (fun x => x ∉ rs)).
Qed.

Lemma runtime_release_released (r : Resource) (rs : list Resource) (w : World) :
  runtime_release r (release_all rs w) = Ok (tt, release_all (rs ++ [r]) w).
Proof.
  unfold runtime_release. now rewrite drop_resource_release, release_all_app.
Qed.

Lemma delete_array_released (a : ArrayMember) (rs : list Resource) (w : World) :
  HostArray a ∈ held w -> HostArray a ∉ rs ->
  delete_array a (release_all rs w)
  = Ok (tt, release_all (rs ++ [HostArray a]) w).
Proof.
  intros Hheld Hrs. unfold delete_array.
  rewrite decide_True by now apply held_release_all.
  now rewrite drop_resource_release, release_all_app.
Qed.

Lemma cudaFree_released (ptr : Z) (rs : list Resource) (w : World) :
  cudaFree ptr (release_all rs w)
  = Ok (tt, release_all (rs ++ (if decide (ptr = NULL) then []
                                else [DeviceMemory ptr])) w).
Proof.
  unfold cudaFree. case_decide.
  - now rewrite app_nil_r.
  - apply runtime_release_released.
Qed.

Lemma destroy_descs_loop (d : Descriptors) (count : nat) :
  forall (i : nat) (rs : list Resource) (w : World),
    (i + count <= length (bottom_descs_ d))%nat ->
    (i + count <= length (top_descs_ d))%nat ->
    (i + count <= length (conv_descs_ d))%nat ->
    for_fromM (Z.of_nat i) count (destroy_descs d) tt (release_all rs w)
    = Ok (tt, release_all (rs ++ (j ← seq i count; input_resources d j)) w).
Proof.
  induction count as [|c IH]; intros i rs w Hb Ht Hc.
  - cbn. now rewrite app_nil_r.
  - destruct (lookup_lt_is_Some_2 (bottom_descs_ d) i) as [bd Hbd]; [lia|].
    destruct (lookup_lt_is_Some_2 (top_descs_ d) i) as [td Htd]; [lia|].
    destruct (lookup_lt_is_Some_2 (conv_descs_ d) i) as [cd Hcd]; [lia|].
    assert (Hstep : destroy_descs d (Z.of_nat i) tt (release_all rs w)
                    = Ok (tt, release_all (rs ++ input_resources d i) w)).
    { unfold destroy_descs, input_resources. rewrite Hbd, Htd, Hcd.
      assert (Lb : load (bottom_descs_ d) (Z.of_nat i) = Ok bd)
        by (apply load_Ok_iff; rewrite Nat2Z.id; split; [lia | exact Hbd]).
      assert (Lt : load (top_descs_ d) (Z.of_nat i) = Ok td)
        by (apply load_Ok_iff; rewrite Nat2Z.id; split; [lia | exact Htd]).
      assert (Lc : load (conv_descs_ d) (Z.of_nat i) = Ok cd)
        by (apply load_Ok_iff; rewrite Nat2Z.id; split; [lia | exact Hcd]).
      rewrite (M_bind_Ok _ _ _ _ bd (lift_Ok _ _ _ Lb)).
      rewrite (M_bind_Ok _ _ _ _ tt (runtime_release_released _ _ _)).
      rewrite (M_bind_Ok _ _ _ _ td (lift_Ok _ _ _ Lt)).
      rewrite (M_bind_Ok _ _ _ _ tt (runtime_release_released _ _ _)).
      rewrite (M_bind_Ok _ _ _ _ cd (lift_Ok _ _ _ Lc)).
      rewrite runtime_release_released. now rewrite <- !app_assoc. }
    cbn [for_fromM]. rewrite (M_bind_Ok _ _ _ _ tt Hstep).
    replace (Z.of_nat i + 1) with (Z.of_nat (S i)) by lia.
    rewrite IH by lia. cbn [seq]. rewrite bind_cons. now rewrite <- app_assoc.
Qed.

Lemma HostArray_not_input (a : ArrayMember) (d : Descriptors) (i count : nat) :
  HostArray a ∉ (j ← seq i count; input_resources d j).
Proof.
  rewrite list_elem_of_bind. intros (j & Hin & _). unfold input_resources in Hin.
  destruct (bottom_descs_ d !! j), (top_descs_ d !! j), (conv_descs_ d !! j);
    rewrite ?elem_of_cons, ?elem_of_nil in Hin;
    repeat destruct Hin as [Hin|Hin]; first [discriminate | contradiction].
Qed.

Lemma HostArray_not_stream {Dtype BlobProto : Type}
    (a : ArrayMember) (l : CuDNNDepthwiseLayer Dtype BlobProto) (count : nat) :
  HostArray a ∉ (g ← seq 0 count; stream_resources l g).
Proof.
  rewrite list_elem_of_bind. intros (j & Hin & _). unfold stream_resources in Hin.
  destruct (stream_ l !! j), (handle_ l !! j);
    rewrite ?elem_of_cons, ?elem_of_nil in Hin;
    repeat destruct Hin as [Hin|Hin]; first [discriminate | contradiction].
Qed.

Lemma HostArray_not_runtime_owned {Dtype BlobProto : Type}
    (a : ArrayMember) (l : CuDNNDepthwiseLayer Dtype BlobProto) :
  HostArray a ∉ runtime_owned l.
Proof.
  unfold runtime_owned. rewrite !elem_of_app.
  intros [Hin|[Hin|[Hin|[Hin|Hin]]]].
  - now apply HostArray_not_input in Hin.
  - destruct (bias_term_ (base l));
      rewrite ?elem_of_cons, ?elem_of_nil in Hin;
      repeat destruct Hin as [Hin|Hin]; first [discriminate | contradiction].
  - rewrite ?elem_of_cons, ?elem_of_nil in Hin.
    repeat destruct Hin as [Hin|Hin]; first [discriminate | contradiction].
  - now apply HostArray_not_stream in Hin.
  - case_decide; rewrite ?elem_of_cons, ?elem_of_nil in Hin;
      repeat destruct Hin as [Hin|Hin]; first [discriminate | contradiction].
Qed.

Lemma for_loopM_nat {St} (n : nat) (body : Z -> St -> M St) (s : St) :
  for_loopM (Z.of_nat n) body s = for_fromM (Z.of_nat 0) n body s.
Proof. unfold for_loopM. now rewrite Nat2Z.id. Qed.

Section TeardownTotal.
Context {Dtype BlobProto : Type}.
Local Abbreviation Layer := (CuDNNDepthwiseLayer Dtype BlobProto).

Lemma destroy_stream_released (l : Layer) (g : nat) (rs : list Resource) w :
  is_Some (stream_ l !! g) -> is_Some (handle_ l !! g) ->
  destroy_stream l (Z.of_nat g) tt (release_all rs w)
  = Ok (tt, release_all (rs ++ stream_resources l g) w).
Proof.
  intros [s Hs] [h Hh]. unfold destroy_stream, stream_resources.
  rewrite Hs, Hh.
  assert (Ls : load (stream_ l) (Z.of_nat g) = Ok s)
    by (apply load_Ok_iff; rewrite Nat2Z.id; split; [lia | exact Hs]).
  assert (Lh : load (handle_ l) (Z.of_nat g) = Ok h)
    by (apply load_Ok_iff; rewrite Nat2Z.id; split; [lia | exact Hh]).
  rewrite (M_bind_Ok _ _ _ _ s (lift_Ok _ _ _ Ls)).
  rewrite (M_bind_Ok _ _ _ _ tt (runtime_release_released _ _ _)).
  rewrite (M_bind_Ok _ _ _ _ h (lift_Ok _ _ _ Lh)).
  rewrite runtime_release_released. now rewrite <- !app_assoc.
Qed.

Lemma destroy_streams_released (l : Layer) (rs : list Resource) w :
  (3 <= length (stream_ l))%nat -> (3 <= length (handle_ l))%nat ->
  for_loopM CUDNN_STREAMS_DEPTHWISE (destroy_stream l) tt (release_all rs w)
  = Ok (tt, release_all
              (rs ++ (g ← seq 0 (Z.to_nat CUDNN_STREAMS_DEPTHWISE);
                      stream_resources l g)) w).
Proof.
  intros Hs Hh. unfold for_loopM.
  change (Z.to_nat CUDNN_STREAMS_DEPTHWISE) with 3%nat. cbn [for_fromM seq].
  rewrite (M_bind_Ok _ _ _ _ tt
             (destroy_stream_released l 0 _ _
                ltac:(apply lookup_lt_is_Some_2; lia)
                ltac:(apply lookup_lt_is_Some_2; lia))).
  rewrite (M_bind_Ok _ _ _ _ tt
             (destroy_stream_released l 1 _ _
                ltac:(apply lookup_lt_is_Some_2; lia)
                ltac:(apply lookup_lt_is_Some_2; lia))).
  rewrite (M_bind_Ok _ _ _ _ tt
             (destroy_stream_released l 2 _ _
                ltac:(apply lookup_lt_is_Some_2; lia)
                ltac:(apply lookup_lt_is_Some_2; lia))).
  rewrite !bind_cons.
  change ([] ≫= stream_resources l) with (@nil Resource).
  rewrite app_nil_r, <- !app_assoc. reflexivity.
Qed.

Lemma delete_arrays_released (rs : list Resource) (w : World) :
  (forall r, r ∈ host_arrays -> r ∈ held w) ->
  (forall a, HostArray a ∉ rs) ->
  (delete_array arr_workspace;;
   delete_array arr_stream_;;
   delete_array arr_handle_;;
   delete_array arr_fwd_algo_;;
   delete_array arr_bwd_filter_algo_;;
   delete_array arr_bwd_data_algo_;;
   delete_array arr_workspace_fwd_sizes_;;
   delete_array arr_workspace_bwd_data_sizes_;;
   delete_array arr_workspace_bwd_filter_sizes_) (release_all rs w)
  = Ok (tt, release_all (rs ++ host_arrays) w).
Proof.
  intros Hheld Hrs.
  assert (Hin : forall a, HostArray a ∈ held w).
  { intros a. apply Hheld. unfold host_arrays.
    destruct a; rewrite !elem_of_cons; tauto. }
  assert (Hfresh : forall a done,
            Forall (fun r => r <> HostArray a) done ->
            HostArray a ∉ rs ++ done).
  { intros a done Hdone [Hx|Hx]%elem_of_app; [exact (Hrs _ Hx)|].
    rewrite Forall_forall in Hdone. now apply (Hdone _ Hx). }
  rewrite <- (app_nil_r rs) at 1.
  repeat
    (erewrite M_bind_Ok;
     [|rewrite <- ?app_assoc; apply delete_array_released;
       [apply Hin | apply Hfresh; repeat constructor; discriminate]]).
  rewrite <- ?app_assoc. rewrite delete_array_released.
  - unfold host_arrays. rewrite <- !app_assoc. reflexivity.
  - apply Hin.
  - apply Hfresh; repeat constructor; discriminate.
Qed.

Lemma destructor_released (l : Layer) (w : World) :
  handles_setup_ l = true ->
  descriptors_aligned (descs l) ->
  (3 <= length (stream_ l))%nat -> (3 <= length (handle_ l))%nat ->
  (forall r, r ∈ host_arrays -> r ∈ held w) ->
  destructor l w = Ok (tt, release_all (owned l) w).
Proof.
  intros Hs (Ht & Hc) Hst Hh Hheld. unfold destructor. rewrite Hs. cbn [negb].
  rewrite <- (release_all_nil w) at 1.
  rewrite for_loopM_nat.
  erewrite M_bind_Ok; [|apply destroy_descs_loop; lia].
  assert (Hbias : forall rs,
            (if bias_term_ (base l)
             then runtime_release
                    (TensorDescriptor (tensor_id (bias_desc_ (descs l))))
             else mret tt) (release_all rs w)
            = Ok (tt, release_all
                        (rs ++ (if bias_term_ (base l)
                                then [TensorDescriptor
                                        (tensor_id (bias_desc_ (descs l)))]
                                else [])) w)).
  { intros rs. destruct (bias_term_ (base l)).
    - apply runtime_release_released.
    - now rewrite app_nil_r. }
  rewrite (M_bind_Ok _ _ _ _ tt (Hbias _)).
  rewrite (M_bind_Ok _ _ _ _ tt (runtime_release_released _ _ _)).
  rewrite (M_bind_Ok _ _ _ _ tt (destroy_streams_released l _ _ Hst Hh)).
  rewrite (M_bind_Ok _ _ _ _ tt (cudaFree_released _ _ _)).
  rewrite delete_arrays_released.
  - f_equal. f_equal. apply release_all_ext. intros r.
    unfold owned, runtime_owned.
    rewrite ?elem_of_app, ?elem_of_cons, ?elem_of_nil. tauto.
  - exact Hheld.
  - intros a Hin. apply (HostArray_not_runtime_owned a l).
    unfold runtime_owned.
    rewrite ?elem_of_app, ?elem_of_cons, ?elem_of_nil in *. tauto.
Qed.
End TeardownTotal.

(** ** [LayerSetUp], step by step *)

Lemma acquire_inv mk w a w' :
  acquire mk w = Ok (a, w') ->
  a = next_id w /\
  w' = {| held := mk (next_id w) :: held w; next_id := S (next_id w);
          malloc_requests := malloc_requests w |}.
Proof. unfold acquire. intros [= <- <-]. auto. Qed.

Lemma new_array_inv {A} a n (init : A) w arr w' :
  new_array a n init w = Ok (arr, w') ->
  arr = replicate n init /\
  w' = {| held := HostArray a :: held w; next_id := next_id w;
          malloc_requests := malloc_requests w |}.
Proof. unfold new_array. intros [= <- <-]. auto. Qed.

(** Invert every step of a run that returned. *)
Ltac m_invert :=
  repeat match goal with
  | H : (let '(_, _) := ?a in _) _ = Ok _ |- _ => destruct a
  | H : mbind _ _ _ = Ok _ |- _ =>
      let a := fresh "a" in
      let w1 := fresh "w" in
      let Ha := fresh "Ha" in
      apply M_bind_inv in H; destruct H as (a & w1 & Ha & H)
  | H : lift _ _ = Ok _ |- _ => apply lift_inv in H; destruct H as (H & ->)
  | H : acquire _ _ = Ok _ |- _ =>
      apply acquire_inv in H; destruct H as (-> & ->);
      cbn [held next_id malloc_requests] in *
  | H : new_array _ _ _ _ = Ok _ |- _ =>
      apply new_array_inv in H; destruct H as (-> & ->);
      cbn [held next_id malloc_requests] in *
  | H : mret _ _ = Ok _ |- _ => apply M_ret_inv in H; destruct H as (? & ?)
  end.

Lemma LayerSetUp_defaults_inv (n : nat) p :
  for_loop (Z.of_nat n) LayerSetUp_defaults (zero_plan n) = Ok p ->
  p = zero_plan n.
Proof.
  intros Hrun.
  apply (for_loop_preserves (fun _ q => q = zero_plan n) _ n _ _ Hrun);
    [reflexivity|].
  intros i q q' Hi Hstep ->. unfold LayerSetUp_defaults, zero_plan in *.
  cbn [fwd_algo_ bwd_filter_algo_ bwd_data_algo_ workspace_fwd_sizes_
       workspace_bwd_data_sizes_ workspace_bwd_filter_sizes_] in Hstep.
  repeat ok_step. subst.
  repeat match goal with
  | E : store _ _ _ = Ok _ |- _ => apply store_inv in E; destruct E as (_ & ->)
  end.
  now rewrite !insert_replicate.
Qed.

Lemma CaffeToCuDNN_inv {Dtype BlobProto : Type} `{Scalar Dtype}
    (l l1 : CuDNNDepthwiseLayer Dtype BlobProto) :
  CaffeToCuDNN l = Ok l1 ->
  l1 = l \/ exists blob0 others b,
              blobs_ (base l) = blob0 :: others /\
              l1 = write_back_backend l blob0 others b.
Proof.
  unfold CaffeToCuDNN. destruct (blobs_ (base l)) as [|blob0 others].
  - intros [= <-]. now left.
  - intros Hrun. repeat ok_step. right. eexists _, _, _.
    split; [reflexivity|]. symmetry. exact Hrun.
Qed.

Section LayerSetUpSteps.
Variable be : Backend.

Lemma LayerSetUp_streams_inv w st w' :
  for_loopM CUDNN_STREAMS_DEPTHWISE (LayerSetUp_stream be)
    (replicate (Z.to_nat CUDNN_STREAMS_DEPTHWISE) 0%nat,
     replicate (Z.to_nat CUDNN_STREAMS_DEPTHWISE) 0%nat,
     replicate (Z.to_nat CUDNN_STREAMS_DEPTHWISE) NULL) w = Ok (st, w') ->
  st = ([next_id w; 2 + next_id w; 4 + next_id w]%nat,
        [1 + next_id w; 3 + next_id w; 5 + next_id w]%nat,
        [NULL; NULL; NULL]) /\
  w' = {| held := CudnnHandle (5 + next_id w) :: CudaStream (4 + next_id w)
                  :: CudnnHandle (3 + next_id w) :: CudaStream (2 + next_id w)
                  :: CudnnHandle (1 + next_id w) :: CudaStream (next_id w)
                  :: held w;
          next_id := 6 + next_id w;
          malloc_requests := malloc_requests w |}.
Proof.
  unfold for_loopM. change (Z.to_nat CUDNN_STREAMS_DEPTHWISE) with 3%nat.
  cbn [for_fromM replicate]. unfold LayerSetUp_stream. intros Hrun.
  m_invert.
  repeat match goal with
  | E : store _ _ _ = Ok _ |- _ =>
      apply store_inv in E; destruct E as (_ & ->)
  | E : (_, _) = (_, _) |- _ => injection E as ? ? ?
  end.
  subst. cbn. split; reflexivity.
Qed.

Lemma LayerSetUp_descs_step i d w d1 w1 :
  LayerSetUp_descs be i d w = Ok (d1, w1) ->
  d1 = {| bottom_descs_ := bottom_descs_ d ++ [fresh_tensor (next_id w)];
          top_descs_ := top_descs_ d ++ [fresh_tensor (1 + next_id w)];
          bias_desc_ := bias_desc_ d; filter_desc_ := filter_desc_ d;
          conv_descs_ :=
            conv_descs_ d ++ [{| conv_id := 2 + next_id w;
                                 conv_pad_stride := None |}] |} /\
  w1 = {| held := ConvolutionDescriptor (2 + next_id w)
                  :: TensorDescriptor (1 + next_id w)
                  :: TensorDescriptor (next_id w) :: held w;
          next_id := 3 + next_id w;
          malloc_requests := malloc_requests w |}.
Proof.
  unfold LayerSetUp_descs, createTensor4dDesc, createConvolutionDesc.
  intros Hrun. m_invert. subst. split; reflexivity.
Qed.

Lemma LayerSetUp_descs_inv (count : nat) :
  forall i d w d' w',
    for_fromM i count (LayerSetUp_descs be) d w = Ok (d', w') ->
    exists nb nt nc,
      bottom_descs_ d' = bottom_descs_ d ++ nb /\
      top_descs_ d' = top_descs_ d ++ nt /\
      conv_descs_ d' = conv_descs_ d ++ nc /\
      bias_desc_ d' = bias_desc_ d /\ filter_desc_ d' = filter_desc_ d /\
      length nb = count /\ length nt = count /\ length nc = count /\
      next_id w' = (3 * count + next_id w)%nat /\
      malloc_requests w' = malloc_requests w /\
      exists rs,
        held w' = rs ++ held w /\
        forall r, r ∈ rs <-> r ∈ descriptor_resources nb nt nc.
Proof.
  induction count as [|c IH]; intros i d w d' w' Hrun.
  - cbn in Hrun. injection Hrun as <- <-.
    exists [], [], []. rewrite !app_nil_r.
    repeat split; try reflexivity. exists []. split; reflexivity.
  - cbn [for_fromM] in Hrun. m_step Hrun.
    apply LayerSetUp_descs_step in Ha as (-> & ->).
    apply IH in Hrun
      as (nb & nt & nc & Eb & Et & Ec & Ebias & Efilter &
          Lb & Lt & Lc & Hnext & Hmalloc & rs & Hheld & Hrs).
    cbn [bottom_descs_ top_descs_ conv_descs_ bias_desc_ filter_desc_
         held next_id malloc_requests] in *.
    eexists (_ :: nb), (_ :: nt), (_ :: nc).
    rewrite Eb, Et, Ec, <- !app_assoc. cbn [app length].
    split; [reflexivity|]. split; [reflexivity|]. split; [reflexivity|].
    split; [exact Ebias|]. split; [exact Efilter|].
    split; [lia|]. split; [lia|]. split; [lia|].
    split; [lia|]. split; [exact Hmalloc|].
    exists (rs ++ [ConvolutionDescriptor (2 + next_id w);
                   TensorDescriptor (1 + next_id w);
                   TensorDescriptor (next_id w)]).
    split; [rewrite Hheld, <- app_assoc; reflexivity|].
    intros r. unfold descriptor_resources in *. cbn [map fresh_tensor tensor_id conv_id].
    rewrite !elem_of_app, !elem_of_cons, elem_of_nil, Hrs, !elem_of_app.
    cbn [tensor_id conv_id]. tauto.
Qed.
End LayerSetUpSteps.

Lemma CaffeToCuDNN_members {Dtype BlobProto : Type} `{Scalar Dtype}
    (l l1 : CuDNNDepthwiseLayer Dtype BlobProto) :
  CaffeToCuDNN l = Ok l1 ->
  (handles_setup_ l1, handle_ l1, stream_ l1, plan l1, descs l1)
  = (handles_setup_ l, handle_ l, stream_ l, plan l, descs l) /\
  (group_ l1, weight_offset_ l1, bottom_offset_ l1, top_offset_ l1, pool l1)
  = (group_ l, weight_offset_ l, bottom_offset_ l, top_offset_ l, pool l) /\
  caffe_weight_ l1 = caffe_weight_ l /\
  bias_term_ (base l1) = bias_term_ (base l) /\
  tail (blobs_ (base l1)) = tail (blobs_ (base l)) /\
  length (blobs_ (base l1)) = length (blobs_ (base l)).
Proof.
  intros [->|(blob0 & others & b & Hb & ->)]%CaffeToCuDNN_inv.
  - repeat split.
  - cbn. rewrite Hb. repeat split.
Qed.

Section LayerSetUpInversion.
Context {Dtype BlobProto : Type} `{Scalar Dtype}.
Variables (fw : Framework Dtype BlobProto) (be : Backend).
Local Abbreviation Layer := (CuDNNDepthwiseLayer Dtype BlobProto).

Lemma LayerSetUp_inv_full (l l' : Layer) bottom top w w' :
  LayerSetUp fw be l bottom top w = Ok (l', w') ->
  exists b kernel_h kernel_w nb nt nc blob0 copied cw grouped0 mask0 l1 rs,
    DepthwiseLayer_LayerSetUp fw (base l) bottom top = Some b /\
    convolution_param_group (layer_param_ b) <> 0 /\
    Z.rem (channels_ b) (convolution_param_group (layer_param_ b)) = 0 /\
    kernel_shape_ b !! 0%nat = Some kernel_h /\
    kernel_shape_ b !! 1%nat = Some kernel_w /\
    blobs_ b !! 0%nat = Some blob0 /\
    Blob_CopyFrom fw (caffe_weight_ l) blob0 false true = Some copied /\
    Blob_CopyFrom fw copied blob0 true false = Some cw /\
    Blob_Reshape fw blob0
      [num_output_ b;
       Z.quot (channels_ b) (convolution_param_group (layer_param_ b));
       kernel_h; kernel_w] = Some grouped0 /\
    Blob_Reshape fw (mask_ l)
      [num_output_ b;
       Z.quot (channels_ b) (convolution_param_group (layer_param_ b));
       kernel_h; kernel_w] = Some mask0 /\
    length nb = length bottom /\ length nt = length bottom /\
    length nc = length bottom /\
    CaffeToCuDNN
      {| base := set_blobs_ b (grouped0 :: tail (blobs_ b));
         handles_setup_ := handles_setup_ l;
         handle_ := [1 + next_id w; 3 + next_id w; 5 + next_id w]%nat;
         stream_ := [next_id w; 2 + next_id w; 4 + next_id w]%nat;
         plan := zero_plan (length bottom);
         descs :=
           {| bottom_descs_ := bottom_descs_ (descs l) ++ nb;
              top_descs_ := top_descs_ (descs l) ++ nt;
              bias_desc_ :=
                if bias_term_ b
                then fresh_tensor (3 * length bottom + (7 + next_id w))
                else bias_desc_ (descs l);
              filter_desc_ :=
                {| filter_id := 6 + next_id w;
                   filter_kchw :=
                     Some (Z.quot (num_output_ b)
                             (convolution_param_group (layer_param_ b)),
                           Z.quot (channels_ b)
                             (convolution_param_group (layer_param_ b)),
                           kernel_h, kernel_w) |};
              conv_descs_ := conv_descs_ (descs l) ++ nc |};
         group_ := convolution_param_group (layer_param_ b);
         weight_offset_ :=
           Z.quot (num_output_ b) (convolution_param_group (layer_param_ b))
           * Z.quot (channels_ b) (convolution_param_group (layer_param_ b))
           * kernel_h * kernel_w;
         bottom_offset_ := bottom_offset_ l; top_offset_ := top_offset_ l;
         pool := empty_pool; caffe_weight_ := cw; mask_ := mask0 |}
    = Ok l1 /\
    l' = set_handles_setup_ l1 /\
    next_id w'
    = ((if bias_term_ b then 1 else 0) + (3 * length bottom + (7 + next_id w)))%nat /\
    malloc_requests w' = malloc_requests w /\
    held w'
    = (if bias_term_ b
       then [TensorDescriptor (3 * length bottom + (7 + next_id w))] else [])
      ++ rs ++ setup_resources (next_id w) ++ held w /\
    (forall r, r ∈ rs <-> r ∈ descriptor_resources nb nt nc).
Proof.
  unfold LayerSetUp, createFilterDesc. intros Hrun.
  m_invert.
  repeat match goal with
  | E : for_loopM CUDNN_STREAMS_DEPTHWISE _ _ _ = Ok _ |- _ =>
      apply LayerSetUp_streams_inv in E; destruct E as (E & ->);
      injection E as -> -> ->; cbn [held next_id malloc_requests] in *
  | E : for_loop _ LayerSetUp_defaults _ = Ok _ |- _ =>
      apply (LayerSetUp_defaults_inv (length bottom)) in E
  | E : int_div _ _ = Ok _ |- _ => apply int_div_inv in E; destruct E as (? & ?)
  | E : framework _ = Ok _ |- _ => apply framework_inv in E
  | E : CHECK_EQ _ _ _ = Ok _ |- _ => apply CHECK_EQ_inv in E
  | E : BACKEND_CHECK _ _ = Ok _ |- _ => apply BACKEND_CHECK_inv in E
  | E : load _ _ = Ok _ |- _ => apply load_Ok_iff in E; destruct E as (_ & E)
  end.
  subst.
  match goal with
  | E : for_loopM (Z.of_nat _) (LayerSetUp_descs _) _ _ = Ok _ |- _ =>
      rewrite for_loopM_nat in E; apply LayerSetUp_descs_inv in E;
      destruct E as (nb & nt & nc & Eb & Et & Ec & Ebias & Efilter &
                     Lb & Lt & Lc & Hnext & Hmalloc & rs & Hheld & Hrs)
  end.
  cbn [bottom_descs_ top_descs_ conv_descs_ bias_desc_ filter_desc_
       held next_id malloc_requests] in *.
  destruct a17 as [bottoms tops bias filter convs].
  cbn [bottom_descs_ top_descs_ conv_descs_ bias_desc_ filter_desc_] in *.
  subst bottoms tops bias filter convs.
  assert (Hrem : Z.rem (channels_ a) (convolution_param_group (layer_param_ a)) = 0).
  { unfold int_mod in Ha0. case_decide; [discriminate|]. now injection Ha0. }
  assert (Hbias :
    a18 = (if bias_term_ a
           then fresh_tensor (3 * length bottom + (7 + next_id w))
           else bias_desc_ (descs l)) /\
    next_id w20
    = ((if bias_term_ a then 1 else 0)
       + (3 * length bottom + (7 + next_id w)))%nat /\
    malloc_requests w20 = malloc_requests w /\
    held w20
    = (if bias_term_ a
       then [TensorDescriptor (3 * length bottom + (7 + next_id w))] else [])
      ++ rs ++ setup_resources (next_id w) ++ held w).
  { destruct (bias_term_ a).
    - unfold createTensor4dDesc in Ha19. m_invert. subst.
      cbn [held next_id malloc_requests]. rewrite Hnext, Hheld, Hmalloc.
      repeat split; reflexivity.
    - apply M_ret_inv in Ha19 as (-> & ->). rewrite Hnext, Hheld, Hmalloc.
      repeat split; reflexivity. }
  destruct Hbias as (-> & Hnext' & Hmalloc' & Hheld').
  exists a, a2, a3, nb, nt, nc, a19, a20, a21, a22, a23, a24, rs.
  repeat (split; [first [assumption | reflexivity]|]).
  exact Hrs.
Qed.
End LayerSetUpInversion.

(** ** What a layer owns *)

Lemma elem_of_map {A B} (f : A -> B) (l : list A) (y : B) :
  y ∈ map f l <-> exists x, y = f x /\ x ∈ l.
Proof. apply (list_elem_of_fmap f l y). Qed.

Lemma input_resources_descriptors (d : Descriptors) :
  descriptors_aligned d ->
  forall r,
    r ∈ (i ← seq 0 (length (bottom_descs_ d)); input_resources d i) <->
    r ∈ descriptor_resources (bottom_descs_ d) (top_descs_ d) (conv_descs_ d).
Proof.
  intros (Lt & Lc) r. unfold descriptor_resources.
  rewrite list_elem_of_bind, !elem_of_app, !elem_of_map. split.
  - intros (i & Hin & _). unfold input_resources in Hin.
    destruct (bottom_descs_ d !! i) as [bd|] eqn:Eb;
      [|now apply elem_of_nil in Hin].
    destruct (top_descs_ d !! i) as [td|] eqn:Et;
      [|now apply elem_of_nil in Hin].
    destruct (conv_descs_ d !! i) as [cd|] eqn:Ec;
      [|now apply elem_of_nil in Hin].
    rewrite !elem_of_cons, elem_of_nil in Hin.
    destruct Hin as [->|[->|[->|[]]]].
    + left. exists bd. split; [reflexivity|]. eapply list_elem_of_lookup_2, Eb.
    + right. left. exists td. split; [reflexivity|].
      eapply list_elem_of_lookup_2, Et.
    + right. right. exists cd. split; [reflexivity|].
      eapply list_elem_of_lookup_2, Ec.
  - assert (Hat : forall i, (i < length (bottom_descs_ d))%nat ->
              exists bd td cd,
                bottom_descs_ d !! i = Some bd /\ top_descs_ d !! i = Some td /\
                conv_descs_ d !! i = Some cd).
    { intros i Hi.
      destruct (lookup_lt_is_Some_2 (bottom_descs_ d) i) as [bd Hbd]; [lia|].
      destruct (lookup_lt_is_Some_2 (top_descs_ d) i) as [td Htd]; [lia|].
      destruct (lookup_lt_is_Some_2 (conv_descs_ d) i) as [cd Hcd]; [lia|].
      eauto 10. }
    intros [(x & -> & Hx)|[(x & -> & Hx)|(x & -> & Hx)]];
      apply list_elem_of_lookup_1 in Hx as (i & Hi);
      pose proof (lookup_lt_Some _ _ _ Hi) as Hlt;
      destruct (Hat i) as (bd & td & cd & Eb & Et & Ec); try lia;
      exists i; (split; [|apply elem_of_seq; lia]);
      unfold input_resources; rewrite Eb, Et, Ec;
      rewrite !elem_of_cons; rewrite Hi in *.
    + left. congruence.
    + right. left. congruence.
    + right. right. left. congruence.
Qed.

Section LayerSetUpResources.
Context {Dtype BlobProto : Type} `{Scalar Dtype}.
Variables (fw : Framework Dtype BlobProto) (be : Backend).
Local Abbreviation Layer := (CuDNNDepthwiseLayer Dtype BlobProto).

Lemma LayerSetUp_resources (l l' : Layer) bottom top w w' :
  descriptors_aligned (descs l) ->
  LayerSetUp fw be l bottom top w = Ok (l', w') ->
  handles_setup_ l' = true /\ descriptors_aligned (descs l') /\
  length (stream_ l') = 3%nat /\ length (handle_ l') = 3%nat /\
  (forall r, r ∈ host_arrays -> r ∈ held w') /\
  (forall r, r ∈ held w -> r ∈ held w') /\
  (forall r, r ∈ held w' -> r ∈ held w \/ r ∈ owned l').
Proof.
  intros (Lt0 & Lc0) Hrun.
  apply LayerSetUp_inv_full in Hrun
    as (b & kh & kw & nb & nt & nc & blob0 & copied & cw & grouped0 & mask0 &
        l1 & rs & _ & _ & _ & _ & _ & _ & _ & _ & _ & _ & Lb & Lt & Lc &
        Hconv & -> & _ & _ & Hheld & Hrs).
  apply CaffeToCuDNN_members in Hconv as (M1 & M2 & _ & Mbias & _).
  cbn [handles_setup_ handle_ stream_ plan descs group_ weight_offset_
       bottom_offset_ top_offset_ pool base set_blobs_ bias_term_] in M1, M2, Mbias.
  injection M1 as _ Mhandle Mstream _ Mdescs.
  injection M2 as _ _ _ _ Mpool.
  assert (Haligned : descriptors_aligned (descs l1)).
  { rewrite Mdescs. unfold descriptors_aligned.
    cbn [bottom_descs_ top_descs_ conv_descs_]. rewrite !length_app. lia. }
  split; [reflexivity|].
  cbn [set_handles_setup_ descs stream_ handle_].
  split; [exact Haligned|].
  split; [now rewrite Mstream|]. split; [now rewrite Mhandle|].
  split; [|split].
  - intros r Hr. rewrite Hheld, !elem_of_app. right. right. left.
    unfold host_arrays, setup_resources in *.
    rewrite !elem_of_cons, elem_of_nil in *. tauto.
  - intros r Hr. rewrite Hheld, !elem_of_app. tauto.
  - intros r. rewrite Hheld, !elem_of_app.
    intros [Hr|[Hr|[Hr|Hr]]]; [| | |now left]; right;
      unfold owned, runtime_owned;
      cbn [set_handles_setup_ descs base pool stream_ handle_];
      rewrite !elem_of_app.
    + left. right. left. rewrite Mbias, Mdescs. cbn [bias_desc_].
      destruct (bias_term_ b); [|now apply elem_of_nil in Hr].
      exact Hr.
    + left. left. apply (input_resources_descriptors _ Haligned).
      rewrite Mdescs. cbn [bottom_descs_ top_descs_ conv_descs_].
      apply Hrs in Hr. unfold descriptor_resources in *.
      rewrite !map_app, !elem_of_app. rewrite !elem_of_app in Hr. tauto.
    + unfold setup_resources in Hr. rewrite !elem_of_cons, elem_of_nil in Hr.
      assert (Hstreams :
        (g ← seq 0 (Z.to_nat CUDNN_STREAMS_DEPTHWISE);
         stream_resources (set_handles_setup_ l1) g)
        = [CudaStream (next_id w); CudnnHandle (1 + next_id w);
           CudaStream (2 + next_id w); CudnnHandle (3 + next_id w);
           CudaStream (4 + next_id w); CudnnHandle (5 + next_id w)]).
      { change (Z.to_nat CUDNN_STREAMS_DEPTHWISE) with 3%nat.
        unfold stream_resources. cbn [set_handles_setup_ stream_ handle_].
        rewrite Mstream, Mhandle. reflexivity. }
      rewrite Hstreams, Mdescs. cbn [filter_desc_ filter_id].
      unfold host_arrays. rewrite !elem_of_cons, !elem_of_nil. tauto.
Qed.
End LayerSetUpResources.

Lemma needs_bind_here {A B} r (c : M A) (k : A -> M B) :
  needs r c -> needs r (c ≫= k).
Proof.
  intros Hc w b w' Hr (a & w1 & Hrun & _)%M_bind_inv.
  exact (Hc w a w1 Hr Hrun).
Qed.

Section TeardownFurther.
Context {Dtype BlobProto : Type}.
Local Abbreviation Layer := (CuDNNDepthwiseLayer Dtype BlobProto).

Lemma destructor_needs_array (l : Layer) (a : ArrayMember) :
  handles_setup_ l = true -> needs (HostArray a) (destructor l).
Proof.
  intros Hs. unfold destructor, destroy_descs, destroy_stream.
  rewrite Hs. cbn [negb].
  destruct a;
    repeat first
      [ apply needs_delete_array
      | apply needs_bind_here; apply needs_delete_array
      | apply needs_bind; [keeps_released_steps | intros ?] ].
Qed.

(** X14. The destructor of a layer that was set up, whose descriptor vectors
    have an entry per bound input and whose stream and handle arrays have
    three: when the nine arrays of [LayerSetUp] are held it returns, and the
    runtime then holds what it held before without anything the layer owns
    (the descriptors of every input, the bias and filter descriptors, the
    streams and handles, the pool, the arrays); no object is created.  When
    one of the nine arrays is not held, it is undefined behaviour. *)
Theorem destructor_releases_owned (l : Layer) (w : World) :
  handles_setup_ l = true ->
  descriptors_aligned (descs l) ->
  (3 <= length (stream_ l))%nat -> (3 <= length (handle_ l))%nat ->
  ((forall r, r ∈ host_arrays -> r ∈ held w) ->
   exists w',
     destructor l w = Ok (tt, w') /\
     next_id w' = next_id w /\ malloc_requests w' = malloc_requests w /\
     forall r, r ∈ held w' <-> (r ∉ owned l) /\ (r ∈ held w)) /\
  (forall a, HostArray a ∉ held w -> destructor l w = Fail UndefinedBehavior).
Proof.
  intros Hs Ha Hst Hh. split.
  - intros Hheld. exists (release_all (owned l) w).
    split; [now apply destructor_released|].
    split; [reflexivity|]. split; [reflexivity|].
    intros r. apply held_release_all.
  - intros a Hnot.
    destruct (destructor l w) as [[u w']|f] eqn:Hrun.
    + exfalso. exact (destructor_needs_array l a Hs w u w' Hnot Hrun).
    + f_equal. eapply destructor_only_undefined, Hrun.
Qed.
End TeardownFurther.

Lemma destructor_releases_owned_witness :
  exists w',
    destructor example_layer example_world = Ok (tt, w') /\
    (forall r, r ∈ held w' <-> (r ∉ owned example_layer) /\ (r ∈ held example_world)) /\
    destructor example_layer fresh_world = Fail UndefinedBehavior.
Proof.
  destruct (destructor_releases_owned example_layer example_world)
    as (Hrel & _); [reflexivity | split; reflexivity | cbn; lia | cbn; lia |].
  destruct Hrel as (w' & Hrun & _ & _ & Hheld).
  { intros r Hr. unfold host_arrays in Hr. cbn [example_world held].
    rewrite !elem_of_cons, elem_of_nil in *. tauto. }
  exists w'. split; [exact Hrun|]. split; [exact Hheld|].
  destruct (destructor_releases_owned example_layer fresh_world)
    as (_ & Hneeds); [reflexivity | split; reflexivity | cbn; lia | cbn; lia |].
  apply (Hneeds arr_workspace). cbn. apply not_elem_of_nil.
Defined.

(** ** [LayerSetUp]: what it establishes *)

Section LayerSetUpFurther.
Context {Dtype BlobProto : Type} `{Scalar Dtype}.
Variables (fw : Framework Dtype BlobProto) (be : Backend).
Local Abbreviation Layer := (CuDNNDepthwiseLayer Dtype BlobProto).

(** X15. Whenever [LayerSetUp] returns, the setup flag is raised; the group
    count is that of the layer parameter, it is not 0 and divides the input
    channels; the weight offset and the filter descriptor have the per-group
    counts and the kernel height and width; every bound input has the
    default algorithms and scratch size 0; the pool is empty with a null
    pointer and three null regions; there are three streams and three
    handles; each descriptor vector has grown by one entry per bottom; the
    two offsets and the parameter blobs after the first are untouched. *)
Theorem LayerSetUp_establishes (l l' : Layer) bottom top w w' :
  LayerSetUp fw be l bottom top w = Ok (l', w') ->
  exists b kernel_h kernel_w,
    DepthwiseLayer_LayerSetUp fw (base l) bottom top = Some b /\
    kernel_shape_ b !! 0%nat = Some kernel_h /\
    kernel_shape_ b !! 1%nat = Some kernel_w /\
    handles_setup_ l' = true /\
    group_ l' = convolution_param_group (layer_param_ b) /\
    group_ l' <> 0 /\ Z.rem (channels_ b) (group_ l') = 0 /\
    weight_offset_ l'
    = Z.quot (num_output_ b) (group_ l') * Z.quot (channels_ b) (group_ l')
      * kernel_h * kernel_w /\
    filter_kchw (filter_desc_ (descs l'))
    = Some (Z.quot (num_output_ b) (group_ l'), Z.quot (channels_ b) (group_ l'),
            kernel_h, kernel_w) /\
    plan l' = zero_plan (length bottom) /\ pool l' = empty_pool /\
    length (stream_ l') = 3%nat /\ length (handle_ l') = 3%nat /\
    length (bottom_descs_ (descs l'))
    = (length (bottom_descs_ (descs l)) + length bottom)%nat /\
    length (top_descs_ (descs l'))
    = (length (top_descs_ (descs l)) + length bottom)%nat /\
    length (conv_descs_ (descs l'))
    = (length (conv_descs_ (descs l)) + length bottom)%nat /\
    (bottom_offset_ l', top_offset_ l') = (bottom_offset_ l, top_offset_ l) /\
    blobs_ b <> [] /\
    tail (blobs_ (base l')) = tail (blobs_ b).
Proof.
  intros Hrun.
  apply LayerSetUp_inv_full in Hrun
    as (b & kh & kw & nb & nt & nc & blob0 & copied & cw & grouped0 & mask0 &
        l1 & rs & Hfw & Hg & Hrem & Hkh & Hkw & Hblob0 & _ & _ & _ & _ &
        Lb & Lt & Lc & Hconv & -> & _).
  apply CaffeToCuDNN_members in Hconv as (M1 & M2 & _ & _ & Mtail & _).
  cbn [handles_setup_ handle_ stream_ plan descs group_ weight_offset_
       bottom_offset_ top_offset_ pool base set_blobs_ blobs_ tail] in M1, M2, Mtail.
  injection M1 as _ Mhandle Mstream Mplan Mdescs.
  injection M2 as Mgroup Mweight Mbottom Mtop Mpool.
  exists b, kh, kw.
  cbn [set_handles_setup_ handles_setup_ group_ weight_offset_ descs plan pool
       stream_ handle_ bottom_offset_ top_offset_ base].
  rewrite Mgroup, Mweight, Mdescs, Mplan, Mpool, Mstream, Mhandle, Mbottom,
    Mtop, Mtail.
  cbn [filter_desc_ filter_kchw bottom_descs_ top_descs_ conv_descs_ length].
  rewrite !length_app, Lb, Lt, Lc.
  repeat (split; [first [assumption | reflexivity]|]).
  split; [|reflexivity].
  intros E. rewrite E in Hblob0. discriminate.
Qed.

(** X16. Whenever [LayerSetUp] returns, it has created [7 + 3 * n] runtime
    objects, one more with a bias term, for [n] bottoms, and made no
    allocation request; the nine arrays are held; whatever was held before
    is still held; and, for descriptor vectors that were aligned, whatever
    is held now was held before or is owned by the layer. *)
Theorem LayerSetUp_acquires (l l' : Layer) bottom top w w' :
  descriptors_aligned (descs l) ->
  LayerSetUp fw be l bottom top w = Ok (l', w') ->
  next_id w'
  = ((if bias_term_ (base l') then 1 else 0)
     + (3 * length bottom + (7 + next_id w)))%nat /\
  malloc_requests w' = malloc_requests w /\
  (forall r, r ∈ host_arrays -> r ∈ held w') /\
  (forall r, r ∈ held w -> r ∈ held w') /\
  (forall r, r ∈ held w' -> r ∈ held w \/ r ∈ owned l').
Proof.
  intros Ha Hrun.
  destruct (LayerSetUp_resources fw be l l' bottom top w w' Ha Hrun)
    as (_ & _ & _ & _ & Harrays & Hkeep & Hnew).
  apply LayerSetUp_inv_full in Hrun
    as (b & kh & kw & nb & nt & nc & blob0 & copied & cw & grouped0 & mask0 &
        l1 & rs & _ & _ & _ & _ & _ & _ & _ & _ & _ & _ & _ & _ & _ &
        Hconv & -> & Hnext & Hmalloc & _).
  apply CaffeToCuDNN_members in Hconv as (_ & _ & _ & Mbias & _).
  cbn [set_handles_setup_ base]. rewrite Mbias. cbn [base set_blobs_ bias_term_].
  auto.
Qed.

(** X17. Setup, then teardown: after a [LayerSetUp] that returned, on a
    layer whose descriptor vectors were aligned, the destructor returns, and
    the runtime then holds nothing that was not held before the setup. *)
Theorem LayerSetUp_then_destructor (l l' : Layer) bottom top w w' :
  descriptors_aligned (descs l) ->
  LayerSetUp fw be l bottom top w = Ok (l', w') ->
  exists w'',
    destructor l' w' = Ok (tt, w'') /\
    (forall r, r ∈ held w'' -> r ∈ held w) /\
    (forall r, r ∈ held w -> r ∉ owned l' -> r ∈ held w'') /\
    (held w = [] -> held w'' = []).
Proof.
  intros Ha Hrun.
  destruct (LayerSetUp_resources fw be l l' bottom top w w' Ha Hrun)
    as (Hs & Ha' & Hst & Hh & Harrays & Hkeep & Hnew).
  exists (release_all (owned l') w').
  split; [apply destructor_released; try assumption; lia|].
  assert (Hleft : forall r, r ∈ held (release_all (owned l') w') -> r ∈ held w).
  { intros r (Hnot & Hin)%held_release_all.
    destruct (Hnew r Hin) as [Hw|Ho]; [exact Hw | contradiction]. }
  split; [exact Hleft|]. split.
  - intros r Hin Hnot. apply held_release_all. split; [exact Hnot|].
    now apply Hkeep.
  - intros Hempty.
    destruct (held (release_all (owned l') w')) as [|r rest] eqn:E;
      [reflexivity|].
    exfalso. apply (not_elem_of_nil r). rewrite <- Hempty.
    apply (Hleft r), elem_of_cons. now left.
Qed.
End LayerSetUpFurther.

(** ** What [CaffeToCuDNN] needs *)

Section CaffeToCuDNNNeeds.
Context {Dtype : Type} `{Scalar Dtype}.
Variables (multiplier cpg kd : Z) (caffe_data caffe_diff : list Dtype).

Lemma CaffeToCuDNN_body_needs i k b b' :
  CaffeToCuDNN_body multiplier cpg kd caffe_data caffe_diff i k b = Ok b' ->
  idx_caffe kd i k < Z.of_nat (length caffe_data) /\
  idx_caffe kd i k < Z.of_nat (length caffe_diff).
Proof.
  unfold CaffeToCuDNN_body. intros Hrun. repeat ok_step.
  repeat match goal with
  | E : load _ _ = Ok _ |- _ =>
      apply load_Ok_iff in E; destruct E as (? & E);
      apply lookup_lt_Some in E
  end.
  split; lia.
Qed.

Lemma CaffeToCuDNN_loops_need (n : nat) b0 b :
  0 < kd ->
  for_loop (Z.of_nat n) (fun i =>
    for_loop kd (fun k =>
      CaffeToCuDNN_body multiplier cpg kd caffe_data caffe_diff i k)) b0 = Ok b ->
  Z.of_nat n * kd <= Z.of_nat (length caffe_data) /\
  Z.of_nat n * kd <= Z.of_nat (length caffe_diff).
Proof.
  intros Hkd Hrun.
  apply (for_loop_preserves
           (fun i _ => i * kd <= Z.of_nat (length caffe_data) /\
                       i * kd <= Z.of_nat (length caffe_diff))
           _ n b0 b Hrun); [lia|].
  intros i t t' Hi Hinner HI.
  replace kd with (Z.of_nat (Z.to_nat kd)) in Hinner at 1 by lia.
  replace ((i + 1) * kd) with (i * kd + Z.of_nat (Z.to_nat kd)) by lia.
  apply (for_loop_preserves
           (fun k _ => i * kd + k <= Z.of_nat (length caffe_data) /\
                       i * kd + k <= Z.of_nat (length caffe_diff))
           _ (Z.to_nat kd) t t' Hinner); [lia|].
  intros k u u' Hk Hbody _.
  apply CaffeToCuDNN_body_needs in Hbody. unfold idx_caffe in Hbody. lia.
Qed.
End CaffeToCuDNNNeeds.

Section ConvertAndSerialise.
Context {Dtype BlobProto : Type} `{Scalar Dtype}.
Local Abbreviation Layer := (CuDNNDepthwiseLayer Dtype BlobProto).
Implicit Types (l : Layer).

Lemma CaffeToCuDNN_needs_fit l l1 :
  valid_configuration l -> CaffeToCuDNN l = Ok l1 -> buffers_fit l.
Proof.
  intros Hv Hrun. unfold buffers_fit.
  destruct (blobs_ (base l)) as [|blob0 others] eqn:Hb; [exact I|].
  unfold CaffeToCuDNN in Hrun. rewrite Hb in Hrun.
  rewrite int_div_channels in Hrun by assumption. rewrite bind_Ok in Hrun.
  repeat ok_step. clear Hrun.
  destruct Hv as (Hm & Hc & Hk & Hn).
  repeat match goal with
  | E : caffe_set _ _ _ = Ok _ |- _ => apply caffe_set_inv in E; destruct E as (? & _)
  end.
  replace (num_output_ (base l)) with (Z.of_nat (Z.to_nat (num_output_ (base l))))
    in Ha2 at 1 by lia.
  apply CaffeToCuDNN_loops_need in Ha2; [|exact Hk].
  unfold grouped_count, compact_count. repeat split; lia.
Qed.

Lemma CaffeToCuDNN_then_CuDNNToCaffe l l1 :
  valid_configuration l -> CaffeToCuDNN l = Ok l1 -> CuDNNToCaffe l1 = Ok l1.
Proof.
  intros Hv Hrun. pose proof (CaffeToCuDNN_needs_fit l l1 Hv Hrun) as Hfit.
  destruct (blobs_ (base l)) as [|blob0 others] eqn:Hb.
  { unfold CaffeToCuDNN in Hrun. rewrite Hb in Hrun. injection Hrun as <-.
    unfold CuDNNToCaffe. now rewrite Hb. }
  destruct (CaffeToCuDNN_Ok l blob0 others Hb Hv Hfit)
    as (b0 & b & Hd0 & Hg0 & Hm0 & Hrun' & Hd & Hg & Hmk).
  rewrite Hrun' in Hrun. injection Hrun as <-.
  pose proof Hfit as Hfit'. unfold buffers_fit in Hfit'. rewrite Hb in Hfit'.
  destruct Hfit' as (Fd & Fg & Fm & Cd & Cg).
  pose proof Hv as (Hm & Hc & Hk & Hn).
  unfold CuDNNToCaffe.
  cbn [write_back_backend base set_blobs_ blobs_ channels_ group_ num_output_
       kernel_dim_ multiplier_ data_ diff_ caffe_weight_].
  rewrite int_div_channels by assumption. rewrite bind_Ok.
  rewrite CuDNNToCaffe_loops_fixpoint; try assumption.
  - rewrite bind_Ok. unfold write_back_compact, write_back_backend.
    cbn [write_back_backend base caffe_weight_ caffe_data caffe_diff mask_
         handles_setup_ handle_ stream_ plan descs group_ weight_offset_
         bottom_offset_ top_offset_ pool shape_].
    now destruct (caffe_weight_ l).
  - intros i k Hi Hki.
    apply (scattered_final_visited _ _ _ _ _ _ _ i k Hd Hi Hki).
  - intros i k Hi Hki.
    apply (scattered_final_visited _ _ _ _ _ _ _ i k Hg Hi Hki).
Qed.

Lemma CuDNNToCaffe_ignores_flag l l2 :
  CuDNNToCaffe l = Ok l2 ->
  CuDNNToCaffe (set_handles_setup_ l) = Ok (set_handles_setup_ l2).
Proof.
  unfold CuDNNToCaffe. cbn [set_handles_setup_ base caffe_weight_ group_].
  destruct (blobs_ (base l)) as [|blob0 others].
  - now intros [= <-].
  - intros Hrun. apply bind_Ok_inv in Hrun as (cpg & Hcpg & Hrun).
    apply bind_Ok_inv in Hrun as (c & Hloop & Hrun).
    injection Hrun as <-. rewrite Hcpg, bind_Ok, Hloop, bind_Ok. reflexivity.
Qed.

End ConvertAndSerialise.

Lemma undefined_only_Ok {A} (a : A) : undefined_only (Ok a).
Proof. intros f. discriminate. Qed.

Lemma undefined_only_mret {A} (a : A) : undefined_only (mret a).
Proof. intros f. discriminate. Qed.

Lemma undefined_only_bind {A B} (c : Res A) (k : A -> Res B) :
  undefined_only c -> (forall a, undefined_only (k a)) -> undefined_only (c ≫= k).
Proof.
  intros Hc Hk f. destruct c as [a|g]; cbn.
  - apply Hk.
  - intros [= <-]. now apply Hc.
Qed.

Lemma undefined_only_load {A} (p : list A) idx : undefined_only (load p idx).
Proof.
  intros f. unfold load. case_decide; [destruct (p !! Z.to_nat idx)|];
    now intros [= <-].
Qed.

Lemma undefined_only_store {A} (p : list A) idx v :
  undefined_only (store p idx v).
Proof. intros f. unfold store. case_decide; now intros [= <-]. Qed.

Lemma undefined_only_caffe_set {A} N (alpha : A) Y :
  undefined_only (caffe_set N alpha Y).
Proof. intros f. unfold caffe_set. case_decide; now intros [= <-]. Qed.

Lemma undefined_only_int_div a b : undefined_only (int_div a b).
Proof. intros f. unfold int_div. case_decide; now intros [= <-]. Qed.

Lemma undefined_only_int_mod a b : undefined_only (int_mod a b).
Proof. intros f. unfold int_mod. case_decide; now intros [= <-]. Qed.

Lemma undefined_only_for_from {St} (body : Z -> St -> Res St) count i s :
  (forall j t, undefined_only (body j t)) ->
  undefined_only (for_from i count body s).
Proof.
  intros Hbody. revert i s. induction count as [|c IH]; intros i s.
  - apply undefined_only_Ok.
  - cbn [for_from]. apply undefined_only_bind; [apply Hbody | intros a; apply IH].
Qed.

Lemma undefined_only_for_loop {St} (body : Z -> St -> Res St) n s :
  (forall j t, undefined_only (body j t)) ->
  undefined_only (for_loop n body s).
Proof. apply undefined_only_for_from. Qed.

Ltac undefined_only_steps :=
  repeat first
    [ apply undefined_only_bind; [|intros ?]
    | apply undefined_only_Ok
    | apply undefined_only_mret
    | apply undefined_only_load
    | apply undefined_only_store
    | apply undefined_only_caffe_set
    | apply undefined_only_int_div
    | apply undefined_only_int_mod
    | apply undefined_only_for_loop; intros ? ? ].

Section ConvertFurther.
Context {Dtype BlobProto : Type} `{Scalar Dtype}.
Local Abbreviation Layer := (CuDNNDepthwiseLayer Dtype BlobProto).
Implicit Types (l : Layer).

Lemma CaffeToCuDNN_undefined_only l : undefined_only (CaffeToCuDNN l).
Proof.
  unfold CaffeToCuDNN, CaffeToCuDNN_body, channel_slot.
  destruct (blobs_ (base l)); undefined_only_steps.
Qed.

Lemma CuDNNToCaffe_undefined_only l : undefined_only (CuDNNToCaffe l).
Proof.
  unfold CuDNNToCaffe, CuDNNToCaffe_body, channel_slot.
  destruct (blobs_ (base l)); undefined_only_steps.
Qed.

(** X18. Under a valid configuration, [CaffeToCuDNN] returns exactly when
    the buffers behind its five pointers are large enough: the grouped data,
    the grouped gradient and the mask for [N] entries, the compact data and
    gradient for [num_output * kernel_dim].  With a buffer too small it is
    undefined behaviour. *)
Theorem CaffeToCuDNN_returns_iff_buffers_fit l :
  valid_configuration l ->
  ((exists l1, CaffeToCuDNN l = Ok l1) <-> buffers_fit l) /\
  (~ buffers_fit l -> CaffeToCuDNN l = Fail UndefinedBehavior).
Proof.
  intros Hv.
  assert (Hiff : (exists l1, CaffeToCuDNN l = Ok l1) <-> buffers_fit l).
  { split.
    - intros (l1 & Hrun). exact (CaffeToCuDNN_needs_fit l l1 Hv Hrun).
    - intros Hfit. destruct (blobs_ (base l)) as [|blob0 others] eqn:Hb.
      + exists l. unfold CaffeToCuDNN. now rewrite Hb.
      + destruct (CaffeToCuDNN_Ok l blob0 others Hb Hv Hfit)
          as (b0 & b & _ & _ & _ & Hrun & _).
        eauto. }
  split; [exact Hiff|].
  intros Hnot. destruct (CaffeToCuDNN l) as [l1|f] eqn:Hrun.
  - exfalso. apply Hnot, Hiff. eauto.
  - f_equal. exact (CaffeToCuDNN_undefined_only l f Hrun).
Qed.
End ConvertFurther.

(** ** Serialising a converted layer *)

Section SerialiseFurther.
Context {Dtype BlobProto : Type} `{Scalar Dtype}.
Variable fw : Framework Dtype BlobProto.
Local Abbreviation Layer := (CuDNNDepthwiseLayer Dtype BlobProto).
Implicit Types (l : Layer).

Lemma ToProto_converted l l1 write_diff :
  valid_configuration l -> CaffeToCuDNN l = Ok l1 ->
  ToProto fw l1 write_diff
  = Ok ({| convolution_param_group :=
             convolution_param_group (layer_param_ (base l));
           param_blobs :=
             match blobs_ (base l) with
             | [] => []
             | _ :: others =>
                 Blob_ToProto fw (caffe_weight_ l) write_diff
                 :: map (fun b => Blob_ToProto fw b write_diff) others
             end |}, l1).
Proof.
  intros Hv Hrun.
  pose proof (CaffeToCuDNN_then_CuDNNToCaffe l l1 Hv Hrun) as Hback.
  destruct (CaffeToCuDNN_inv l l1 Hrun) as [->|(blob0 & others & b & Hb & ->)].
  - destruct (blobs_ (base l)) as [|blob0 others] eqn:Hb.
    + unfold ToProto. rewrite Hb. cbn [length].
      rewrite decide_False by lia. reflexivity.
    + now rewrite (ToProto_unfold fw l l blob0 others write_diff Hb Hback).
  - rewrite Hb.
    rewrite (ToProto_unfold fw (write_back_backend l blob0 others b)
               (write_back_backend l blob0 others b)
               {| shape_ := shape_ blob0; data_ := cudnn_data b;
                  diff_ := cudnn_diff b |} others write_diff eq_refl Hback).
    reflexivity.
Qed.

(** X19. Serialising a converted layer: under a valid configuration, after
    [CaffeToCuDNN] has returned, [ToProto] returns, leaves the layer as it
    is, and writes the layer parameter with, as the weight blob, the compact
    weight the conversion started from, followed by the other parameter
    blobs; with no parameter blobs it writes none. *)
Theorem ToProto_after_CaffeToCuDNN l l1 write_diff :
  valid_configuration l -> CaffeToCuDNN l = Ok l1 ->
  exists param,
    ToProto fw l1 write_diff = Ok (param, l1) /\
    convolution_param_group param
    = convolution_param_group (layer_param_ (base l)) /\
    length (param_blobs param) = length (blobs_ (base l)) /\
    param_blobs param
    = match blobs_ (base l) with
      | [] => []
      | _ :: others =>
          Blob_ToProto fw (caffe_weight_ l) write_diff
          :: map (fun b => Blob_ToProto fw b write_diff) others
      end.
Proof.
  intros Hv Hrun. eexists.
  split; [exact (ToProto_converted l l1 write_diff Hv Hrun)|].
  cbn [convolution_param_group param_blobs].
  split; [reflexivity|]. split; [|reflexivity].
  destruct (blobs_ (base l)); [reflexivity|]. cbn [length].
  now rewrite length_map.
Qed.

(** X20. Setup, then serialisation: after a [LayerSetUp] that returned and
    left a valid configuration, [ToProto] returns, leaves the layer as it
    is, and writes as the weight blob the copy the framework made of the
    first parameter blob (its data, then its gradient) before that blob was
    reshaped and converted, followed by the other parameter blobs. *)
Theorem LayerSetUp_then_ToProto be l l' bottom top w w' write_diff :
  LayerSetUp fw be l bottom top w = Ok (l', w') ->
  valid_configuration l' ->
  exists b blob0 copied param,
    DepthwiseLayer_LayerSetUp fw (base l) bottom top = Some b /\
    blobs_ b !! 0%nat = Some blob0 /\
    Blob_CopyFrom fw (caffe_weight_ l) blob0 false true = Some copied /\
    Blob_CopyFrom fw copied blob0 true false = Some (caffe_weight_ l') /\
    ToProto fw l' write_diff = Ok (param, l') /\
    param_blobs param
    = Blob_ToProto fw (caffe_weight_ l') write_diff
      :: map (fun x => Blob_ToProto fw x write_diff) (tail (blobs_ b)).
Proof.
  intros Hrun Hv.
  apply LayerSetUp_inv_full in Hrun
    as (b & kh & kw & nb & nt & nc & blob0 & copied & cw & grouped0 & mask0 &
        l1 & rs & Hfw & _ & _ & _ & _ & Hblob0 & Hc1 & Hc2 & _ & _ & _ & _ & _ &
        Hconv & -> & _).
  pose proof (CaffeToCuDNN_members _ _ Hconv) as (_ & _ & Mcw & _ & Mtail & Mlen).
  cbn [caffe_weight_ base set_blobs_ blobs_ tail length] in Mcw, Mtail, Mlen.
  assert (Hv0 : valid_configuration
                  {| base := set_blobs_ b (grouped0 :: tail (blobs_ b));
                     handles_setup_ := handles_setup_ l;
                     handle_ := [1 + next_id w; 3 + next_id w; 5 + next_id w]%nat;
                     stream_ := [next_id w; 2 + next_id w; 4 + next_id w]%nat;
                     plan := zero_plan (length bottom);
                     descs := descs l1;
                     group_ := convolution_param_group (layer_param_ b);
                     weight_offset_ := weight_offset_ l1;
                     bottom_offset_ := bottom_offset_ l;
                     top_offset_ := top_offset_ l;
                     pool := empty_pool; caffe_weight_ := cw; mask_ := mask0 |}).
  { destruct (CaffeToCuDNN_inv _ _ Hconv) as [E|(g0 & others & bb & _ & E)];
      rewrite E in Hv; exact Hv. }
  assert (Hback : CuDNNToCaffe l1 = Ok l1).
  { eapply CaffeToCuDNN_then_CuDNNToCaffe; [|exact Hconv]. exact Hv0. }
  apply CuDNNToCaffe_ignores_flag in Hback.
  destruct (blobs_ (base l1)) as [|g others] eqn:Hb1; [discriminate|].
  cbn [tail] in Mtail. subst others.
  exists b, blob0, copied. eexists.
  split; [exact Hfw|]. split; [exact Hblob0|]. split; [exact Hc1|].
  cbn [set_handles_setup_ caffe_weight_]. rewrite Mcw.
  split; [exact Hc2|].
  rewrite (ToProto_unfold fw (set_handles_setup_ l1) (set_handles_setup_ l1)
             g (tail (blobs_ b)) write_diff Hb1 Hback).
  cbn [set_handles_setup_ caffe_weight_ param_blobs]. rewrite Mcw.
  split; reflexivity.
Qed.
End SerialiseFurther.

Lemma LayerSetUp_establishes_witness :
  exists l' w',
    LayerSetUp example_framework (backend_with_memory 16) fresh_layer
      example_bottom example_top fresh_world = Ok (l', w') /\
    handles_setup_ l' = true /\ group_ l' = 1 /\
    plan l' = zero_plan 1 /\ pool l' = empty_pool.
Proof.
  destruct (LayerSetUp example_framework (backend_with_memory 16) fresh_layer
              example_bottom example_top fresh_world) as [[l' w']|f] eqn:Hrun;
    [|vm_compute in Hrun; discriminate].
  exists l', w'. split; [reflexivity|].
  destruct (LayerSetUp_establishes example_framework (backend_with_memory 16)
              fresh_layer l' example_bottom example_top fresh_world w' Hrun)
    as (b & kh & kw & Hfw & _ & _ & Hs & Hg & _ & _ & _ & _ & Hplan & Hpool & _).
  injection Hfw as <-.
  split; [exact Hs|]. split; [exact Hg|]. split; [exact Hplan | exact Hpool].
Defined.

Lemma LayerSetUp_acquires_witness :
  exists l' w',
    LayerSetUp example_framework (backend_with_memory 16) fresh_layer
      example_bottom example_top fresh_world = Ok (l', w') /\
    malloc_requests w' = [] /\
    (forall r, r ∈ held w' -> r ∈ owned l').
Proof.
  destruct (LayerSetUp example_framework (backend_with_memory 16) fresh_layer
              example_bottom example_top fresh_world) as [[l' w']|f] eqn:Hrun;
    [|vm_compute in Hrun; discriminate].
  exists l', w'. split; [reflexivity|].
  destruct (LayerSetUp_acquires example_framework (backend_with_memory 16)
              fresh_layer l' example_bottom example_top fresh_world w')
    as (_ & Hmalloc & _ & _ & Hnew); [split; reflexivity | exact Hrun |].
  split; [exact Hmalloc|].
  intros r Hr. destruct (Hnew r Hr) as [Hold|Ho]; [|exact Ho].
  now apply elem_of_nil in Hold.
Defined.

Lemma LayerSetUp_then_destructor_witness :
  exists l' w' w'',
    LayerSetUp example_framework (backend_with_memory 16) fresh_layer
      example_bottom example_top fresh_world = Ok (l', w') /\
    destructor l' w' = Ok (tt, w'') /\ held w'' = [].
Proof.
  destruct (LayerSetUp example_framework (backend_with_memory 16) fresh_layer
              example_bottom example_top fresh_world) as [[l' w']|f] eqn:Hrun;
    [|vm_compute in Hrun; discriminate].
  destruct (LayerSetUp_then_destructor example_framework
              (backend_with_memory 16) fresh_layer l' example_bottom
              example_top fresh_world w')
    as (w'' & Hdown & _ & _ & Hempty); [split; reflexivity | exact Hrun |].
  exists l', w', w''. split; [reflexivity|]. split; [exact Hdown|].
  apply Hempty. reflexivity.
Defined.

Lemma CaffeToCuDNN_returns_iff_buffers_fit_witness :
  (exists l1, CaffeToCuDNN example_layer = Ok l1) /\
  CaffeToCuDNN
    (set_grouped_ example_layer {| shape_ := []; data_ := []; diff_ := [] |})
  = Fail UndefinedBehavior.
Proof.
  split.
  - destruct (CaffeToCuDNN_returns_iff_buffers_fit example_layer) as (Hiff & _).
    + repeat split; vm_compute; first [reflexivity | discriminate].
    + apply Hiff. repeat split; vm_compute; first [reflexivity | discriminate].
  - destruct (CaffeToCuDNN_returns_iff_buffers_fit
                (set_grouped_ example_layer
                   {| shape_ := []; data_ := []; diff_ := [] |}))
      as (_ & Hfail).
    + repeat split; vm_compute; first [reflexivity | discriminate].
    + apply Hfail. intros (Hd & _). vm_compute in Hd. now apply Hd.
Defined.

Lemma ToProto_after_CaffeToCuDNN_witness :
  exists param,
    ToProto example_framework example_grouped_layer true
    = Ok (param, example_grouped_layer) /\
    param_blobs param
    = [seqZ 100 16 ++ seqZ 200 16; seqZ 300 8 ++ seqZ 400 8].
Proof.
  destruct (ToProto_after_CaffeToCuDNN example_framework example_layer
              example_grouped_layer true)
    as (param & Hrun & _ & _ & Hblobs).
  - repeat split; vm_compute; first [reflexivity | discriminate].
  - vm_compute. reflexivity.
  - exists param. split; [exact Hrun|]. rewrite Hblobs. reflexivity.
Defined.

Lemma LayerSetUp_then_ToProto_witness :
  exists l' w' param,
    LayerSetUp example_framework (backend_with_memory 16) fresh_layer
      example_bottom example_top fresh_world = Ok (l', w') /\
    ToProto example_framework l' true = Ok (param, l').
Proof.
  destruct (LayerSetUp example_framework (backend_with_memory 16) fresh_layer
              example_bottom example_top fresh_world) as [[l' w']|f] eqn:Hrun;
    [|vm_compute in Hrun; discriminate].
  destruct (LayerSetUp_then_ToProto example_framework (backend_with_memory 16)
              fresh_layer l' example_bottom example_top fresh_world w' true Hrun)
    as (b & blob0 & copied & param & _ & _ & _ & _ & Hto & _).
  - vm_compute in Hrun. injection Hrun as <- _.
    repeat split; vm_compute; first [reflexivity | discriminate].
  - exists l', w', param. split; [reflexivity | exact Hto].
Defined.

(** ** The life of a layer: setup, reshapes, teardown *)

Lemma lookup_map {A B} (f : A -> B) (l : list A) (i : nat) :
  map f l !! i = f <$> l !! i.
Proof. apply (list_lookup_fmap f l i). Qed.

Lemma input_resources_ids (d d' : Descriptors) (i : nat) :
  descriptor_ids d' = descriptor_ids d ->
  input_resources d' i = input_resources d i.
Proof.
  unfold descriptor_ids. intros [= Eb Et _ _ Ec].
  apply (f_equal (fun x => x !! i)) in Eb, Et, Ec.
  rewrite !lookup_map in Eb. rewrite !lookup_map in Et.
  rewrite !lookup_map in Ec.
  unfold input_resources.
  destruct (bottom_descs_ d' !! i), (bottom_descs_ d !! i); try discriminate;
    destruct (top_descs_ d' !! i), (top_descs_ d !! i); try discriminate;
    destruct (conv_descs_ d' !! i), (conv_descs_ d !! i); try discriminate;
    try reflexivity.
  cbn in Eb, Et, Ec. congruence.
Qed.

Lemma descriptor_ids_lengths (d d' : Descriptors) :
  descriptor_ids d' = descriptor_ids d ->
  length (bottom_descs_ d') = length (bottom_descs_ d) /\
  length (top_descs_ d') = length (top_descs_ d) /\
  length (conv_descs_ d') = length (conv_descs_ d).
Proof.
  unfold descriptor_ids. intros [= Eb Et _ _ Ec].
  apply (f_equal length) in Eb, Et, Ec. rewrite !length_map in Eb, Et, Ec.
  auto.
Qed.

Lemma inputs_owned_ids (d d' : Descriptors) :
  descriptor_ids d' = descriptor_ids d ->
  (i ← seq 0 (length (bottom_descs_ d')); input_resources d' i)
  = (i ← seq 0 (length (bottom_descs_ d)); input_resources d i).
Proof.
  intros Hids. destruct (descriptor_ids_lengths d d' Hids) as (-> & _).
  induction (seq 0 (length (bottom_descs_ d))) as [|i rest IH]; [reflexivity|].
  rewrite !bind_cons, IH. f_equal. now apply input_resources_ids.
Qed.

Lemma DeviceMemory_not_input (p : Z) (d : Descriptors) (i count : nat) :
  DeviceMemory p ∉ (j ← seq i count; input_resources d j).
Proof.
  rewrite list_elem_of_bind. intros (j & Hin & _). unfold input_resources in Hin.
  destruct (bottom_descs_ d !! j), (top_descs_ d !! j), (conv_descs_ d !! j);
    rewrite ?elem_of_cons, ?elem_of_nil in Hin;
    repeat destruct Hin as [Hin|Hin]; first [discriminate | contradiction].
Qed.

Lemma DeviceMemory_not_stream {Dtype BlobProto : Type}
    (p : Z) (l : CuDNNDepthwiseLayer Dtype BlobProto) (count : nat) :
  DeviceMemory p ∉ (g ← seq 0 count; stream_resources l g).
Proof.
  rewrite list_elem_of_bind. intros (j & Hin & _). unfold stream_resources in Hin.
  destruct (stream_ l !! j), (handle_ l !! j);
    rewrite ?elem_of_cons, ?elem_of_nil in Hin;
    repeat destruct Hin as [Hin|Hin]; first [discriminate | contradiction].
Qed.

Section Lifecycle.
Context {Dtype BlobProto : Type} `{Scalar Dtype}.
Variable fw : Framework Dtype BlobProto.
Local Abbreviation Layer := (CuDNNDepthwiseLayer Dtype BlobProto).

(** What the layer owns after [Reshape] is what it owned before, but for the
    pool. *)
Lemma Reshape_owned be (l l' : Layer) bottom top w w' :
  keeps_bias_term fw ->
  Reshape fw be l bottom top w = Ok (l', w') ->
  exists fixed : list Resource,
    (forall p, DeviceMemory p ∉ fixed) /\
    (forall r, r ∈ runtime_owned l <->
       r ∈ fixed \/ (workspaceData (pool l) <> NULL /\
                     r = DeviceMemory (workspaceData (pool l)))) /\
    (forall r, r ∈ runtime_owned l' <->
       r ∈ fixed \/ (workspaceData (pool l') <> NULL /\
                     r = DeviceMemory (workspaceData (pool l')))).
Proof.
  intros Hbias Hrun.
  destruct (Reshape_members fw be l l' bottom top w w' Hrun)
    as (Hm & Hids & _).
  injection Hm as _ Hhandle Hstream.
  apply Reshape_inv_full in Hrun
    as (b & top' & bottom0 & top0 & g & d & p1 & Hfw & _ & _ & _ & _ & _ & _ & _ &
        _ & _ & _ & _ & _ & _ & _ & _ & Hl').
  assert (Hb : bias_term_ (base l') = bias_term_ (base l)).
  { rewrite Hl'. cbn [base]. exact (Hbias _ _ _ _ _ Hfw). }
  exists ((i ← seq 0 (length (bottom_descs_ (descs l))); input_resources (descs l) i)
          ++ (if bias_term_ (base l)
              then [TensorDescriptor (tensor_id (bias_desc_ (descs l)))] else [])
          ++ [FilterDescriptor (filter_id (filter_desc_ (descs l)))]
          ++ (g ← seq 0 (Z.to_nat CUDNN_STREAMS_DEPTHWISE); stream_resources l g)).
  split; [|split].
  - intros p. rewrite !elem_of_app. intros [Hin|[Hin|[Hin|Hin]]].
    + now apply DeviceMemory_not_input in Hin.
    + destruct (bias_term_ (base l));
        rewrite ?elem_of_cons, ?elem_of_nil in Hin;
        repeat destruct Hin as [Hin|Hin]; first [discriminate | contradiction].
    + rewrite ?elem_of_cons, ?elem_of_nil in Hin.
      repeat destruct Hin as [Hin|Hin]; first [discriminate | contradiction].
    + now apply DeviceMemory_not_stream in Hin.
  - intros r. unfold runtime_owned. rewrite !elem_of_app.
    case_decide; rewrite ?elem_of_cons, ?elem_of_nil; tauto.
  - intros r. unfold runtime_owned. rewrite (inputs_owned_ids _ _ Hids), Hb.
    assert (Estream : forall g0, stream_resources l' g0 = stream_resources l g0).
    { intros g0. unfold stream_resources. now rewrite Hhandle, Hstream. }
    assert (Ebind : (g0 ← seq 0 (Z.to_nat CUDNN_STREAMS_DEPTHWISE);
                     stream_resources l' g0)
                    = (g0 ← seq 0 (Z.to_nat CUDNN_STREAMS_DEPTHWISE);
                       stream_resources l g0)).
    { induction (seq 0 (Z.to_nat CUDNN_STREAMS_DEPTHWISE)) as [|g0 rest IH];
        [reflexivity|]. now rewrite !bind_cons, IH, Estream. }
    rewrite Ebind.
    unfold descriptor_ids in Hids. injection Hids as _ _ Ebias Efilter _.
    rewrite Ebias, Efilter. rewrite !elem_of_app.
    case_decide; rewrite ?elem_of_cons, ?elem_of_nil; tauto.
Qed.

Lemma Reshape_preserves be (l l' : Layer) bottom top w0 w w' :
  keeps_bias_term fw -> malloc_not_null be ->
  Reshape fw be l bottom top w = Ok (l', w') ->
  teardown_ready l w -> nothing_leaked w0 l w ->
  teardown_ready l' w' /\ nothing_leaked w0 l' w'.
Proof.
  intros Hbias Hmalloc Hrun (Hs & (Lt & Lc) & Hst & Hh & Harrays) Hleak.
  destruct (Reshape_owned be l l' bottom top w w' Hbias Hrun)
    as (fixed & Hfixed & Hown & Hown').
  destruct (Reshape_members fw be l l' bottom top w w' Hrun)
    as (Hm & Hids & Hheld).
  injection Hm as Hsetup Hhandle Hstream.
  destruct (descriptor_ids_lengths _ _ Hids) as (Eb & Et & Ec).
  split.
  - unfold teardown_ready, descriptors_aligned.
    rewrite Hsetup, Hhandle, Hstream, Eb, Et, Ec.
    split; [exact Hs|]. split; [split; assumption|].
    split; [exact Hst|]. split; [exact Hh|].
    intros r Hr. apply Hheld; [|now apply Harrays].
    intros ptr ->. unfold host_arrays in Hr.
    rewrite !elem_of_cons, elem_of_nil in Hr.
    repeat destruct Hr as [Hr|Hr]; first [discriminate | contradiction].
  - apply Reshape_inv_full in Hrun
      as (b & top' & bottom0 & top0 & g & d & p1 & _ & _ & _ & _ & _ & _ & _ & _ &
          _ & _ & _ & _ & _ & _ & Hws & _ & _).
    apply Reshape_workspace_inv in Hws as (m & _ & _ & _ & Hcases).
    intros r Hr. unfold owned in *. 
    destruct Hcases as [(_ & _ & Hpool & ->)|(_ & -> & _ & _ & _ & Hcases)].
    + destruct (Hleak r Hr) as [Hold|Ho]; [now left|]. right.
      unfold owned in Ho. rewrite elem_of_app in Ho. rewrite elem_of_app.
      destruct Ho as [Ho|Ho]; [|now right]. left.
      apply Hown'. apply Hown in Ho. rewrite Hpool. exact Ho.
    + assert (Hfreed : forall x,
                x ∈ (if decide (workspaceData (pool l) = NULL) then held w
                     else filter (fun y => y <> DeviceMemory (workspaceData (pool l)))
                            (held w)) ->
                x ∈ held w0 \/ x ∈ fixed \/ x ∈ host_arrays).
      { intros x Hx.
        assert (Hxw : x ∈ held w /\
                      (workspaceData (pool l) <> NULL ->
                       x <> DeviceMemory (workspaceData (pool l)))).
        { case_decide as Hnull; [split; [exact Hx | contradiction]|].
          apply list_elem_of_filter in Hx as (Hne & Hx). auto. }
        destruct Hxw as (Hxw & Hne).
        destruct (Hleak x Hxw) as [Hold|Ho]; [now left|]. right.
        unfold owned in Ho. rewrite elem_of_app in Ho.
        destruct Ho as [Ho|Ho]; [|now right]. left.
        apply Hown in Ho as [Ho|(Hnn & ->)]; [exact Ho|].
        now exfalso; apply (Hne Hnn). }
      unfold reallocated in Hr. cbn [held] in Hr.
      destruct Hcases as [(ptr & Hsome & _ & _ & Hdata)|(Hnone & _ & _ & Hdata)].
      * rewrite Hsome in Hr. apply elem_of_cons in Hr as [->|Hr].
        -- right. rewrite elem_of_app. left. apply Hown'. right.
           rewrite Hdata. split; [|reflexivity].
           intros ->. exact (Hmalloc _ Hsome).
        -- destruct (Hfreed r Hr) as [Hold|[Hf|Ha]]; [now left| |];
             right; rewrite elem_of_app; [left|now right].
           apply Hown'. now left.
      * rewrite Hnone in Hr.
        destruct (Hfreed r Hr) as [Hold|[Hf|Ha]]; [now left| |];
          right; rewrite elem_of_app; [left|now right].
        apply Hown'. now left.
Qed.
End Lifecycle.

Section LifecycleRuns.
Context {Dtype BlobProto : Type} `{Scalar Dtype}.
Variable fw : Framework Dtype BlobProto.
Local Abbreviation Layer := (CuDNNDepthwiseLayer Dtype BlobProto).

Lemma final_state_cons (l : Layer) w s states :
  final_state l w (s :: states) = final_state (fst s) (snd s) states.
Proof.
  unfold final_state. rewrite last_cons. destruct s as [l1 w1].
  now destruct (last states).
Qed.

Lemma Reshape_run_preserves w0 calls :
  keeps_bias_term fw ->
  Forall (fun c => malloc_not_null (call_backend c)) calls ->
  forall (l : Layer) w states,
    Reshape_run fw calls l w = Ok states ->
    teardown_ready l w -> nothing_leaked w0 l w ->
    teardown_ready (fst (final_state l w states)) (snd (final_state l w states)) /\
    nothing_leaked w0 (fst (final_state l w states))
      (snd (final_state l w states)).
Proof.
  intros Hbias Hmalloc. induction Hmalloc as [|c calls Hc _ IH];
    intros l w states Hrun Hready Hleak.
  - injection Hrun as <-. auto.
  - cbn [Reshape_run] in Hrun.
    apply bind_Ok_inv in Hrun as ([l1 w1] & Hcall & Hrun).
    apply bind_Ok_inv in Hrun as (rest & Hrest & Hrun).
    injection Hrun as <-. rewrite final_state_cons. cbn [fst snd].
    destruct (Reshape_preserves fw (call_backend c) l l1 _ _ w0 w w1
                Hbias Hc Hcall Hready Hleak) as (Hready1 & Hleak1).
    exact (IH l1 w1 rest Hrest Hready1 Hleak1).
Qed.

(** X21. The life of a layer: after a [LayerSetUp] that returned, on a layer
    whose descriptor vectors were aligned, and any run of [Reshape] calls
    that returned, the destructor returns and the runtime then holds nothing
    that was not held before the setup; whether allocations succeeded or
    were refused along the way makes no difference.  The base class is taken
    to keep the bias term, and a successful [cudaMalloc] not to answer the
    null pointer. *)
Theorem lifecycle_leaves_nothing_held be (l l' : Layer) bottom top w w'
    calls states :
  keeps_bias_term fw ->
  Forall (fun c => malloc_not_null (call_backend c)) calls ->
  descriptors_aligned (descs l) ->
  LayerSetUp fw be l bottom top w = Ok (l', w') ->
  Reshape_run fw calls l' w' = Ok states ->
  exists w'',
    destructor (fst (final_state l' w' states)) (snd (final_state l' w' states))
    = Ok (tt, w'') /\
    (forall r, r ∈ held w'' -> r ∈ held w) /\
    (held w = [] -> held w'' = []).
Proof.
  intros Hbias Hmalloc Ha Hsetup Hrun.
  destruct (LayerSetUp_resources fw be l l' bottom top w w' Ha Hsetup)
    as (Hs & Ha' & Hst & Hh & Harrays & _ & Hnew).
  destruct (Reshape_run_preserves w calls Hbias Hmalloc l' w' states Hrun)
    as ((Hs1 & Ha1 & Hst1 & Hh1 & Harrays1) & Hleak).
  { repeat split; assumption || apply Ha'. }
  { exact Hnew. }
  set (lf := fst (final_state l' w' states)) in *.
  set (wf := snd (final_state l' w' states)) in *.
  exists (release_all (owned lf) wf).
  split; [apply destructor_released; try assumption; lia|].
  assert (Hleft : forall r, r ∈ held (release_all (owned lf) wf) -> r ∈ held w).
  { intros r (Hnot & Hin)%held_release_all.
    destruct (Hleak r Hin) as [Hw|Ho]; [exact Hw | contradiction]. }
  split; [exact Hleft|].
  intros Hempty.
  destruct (held (release_all (owned lf) wf)) as [|r rest] eqn:E; [reflexivity|].
  exfalso. apply (not_elem_of_nil r). rewrite <- Hempty.
  apply (Hleft r), elem_of_cons. now left.
Qed.
End LifecycleRuns.

Lemma lifecycle_leaves_nothing_held_witness :
  exists l' w' states w'',
    LayerSetUp example_framework (backend_with_memory 16) fresh_layer
      example_bottom example_top fresh_world = Ok (l', w') /\
    Reshape_run example_framework example_calls l' w' = Ok states /\
    length states = 3%nat /\
    destructor (fst (final_state l' w' states)) (snd (final_state l' w' states))
    = Ok (tt, w'') /\
    held w'' = [].
Proof.
  destruct (LayerSetUp example_framework (backend_with_memory 16) fresh_layer
              example_bottom example_top fresh_world) as [[l' w']|f] eqn:Hsetup;
    [|vm_compute in Hsetup; discriminate].
  destruct (Reshape_run example_framework example_calls l' w')
    as [states|f] eqn:Hrun.
  2: { vm_compute in Hsetup. injection Hsetup as <- <-.
       vm_compute in Hrun. discriminate. }
  destruct (lifecycle_leaves_nothing_held example_framework
              (backend_with_memory 16) fresh_layer l' example_bottom
              example_top fresh_world w' example_calls states)
    as (w'' & Hdown & _ & Hempty).
  - intros b bottom top b' top' [= <- _]. reflexivity.
  - repeat constructor; intros size; vm_compute; discriminate.
  - split; reflexivity.
  - exact Hsetup.
  - exact Hrun.
  - exists l', w', states, w''. split; [reflexivity|]. split; [exact Hrun|].
    split; [|split; [exact Hdown | apply Hempty; reflexivity]].
    vm_compute in Hsetup. injection Hsetup as <- <-.
    vm_compute in Hrun. injection Hrun as <-. reflexivity.
Defined.

(** ** [Reshape] on a layer it has just reshaped *)

Section ReshapeAgain.
Context {Dtype BlobProto : Type}.
Variables (be : Backend) (b : DepthwiseLayer Dtype BlobProto) (group : Z)
  (handle : list nat) (g : ReshapeGeometry).

Lemma Reshape_bottom_checked i d p d' p' :
  Reshape_bottom be b group handle g i (d, p) = Ok (d', p') ->
  call_succeeds be "cudnnSetTensor4dDescriptorEx" = true /\
  call_succeeds be "cudnnSetConvolution2dDescriptor" = true.
Proof.
  unfold Reshape_bottom, setTensor4dDesc_strided, setConvolutionDesc.
  intros Hrun. repeat ok_step.
  repeat match goal with
  | E : BACKEND_CHECK _ _ = Ok _ |- _ => apply BACKEND_CHECK_inv in E
  end.
  split; assumption.
Qed.

Lemma load_lookup {A} (p : list A) (i : nat) (v : A) :
  p !! i = Some v -> load p (Z.of_nat i) = Ok v.
Proof. intros Hv. apply load_Ok_iff. rewrite Nat2Z.id. split; [lia | exact Hv]. Qed.

Lemma BACKEND_CHECK_Ok call :
  call_succeeds be call = true -> BACKEND_CHECK be call = Ok tt.
Proof. intros Hc. unfold BACKEND_CHECK. now rewrite Hc. Qed.

Lemma set_bottom_desc_again x :
  call_succeeds be "cudnnSetTensor4dDescriptorEx" = true ->
  setTensor4dDesc_strided be (bottom_desc_set b group g x)
    (num_ b) (Z.quot (channels_ b) group) (height g) (width g)
    (channels_ b * height g * width g) (height g * width g) (width g) 1
  = Ok (bottom_desc_set b group g x).
Proof.
  intros Hc. unfold setTensor4dDesc_strided. now rewrite (BACKEND_CHECK_Ok _ Hc).
Qed.

Lemma set_top_desc_again y :
  call_succeeds be "cudnnSetTensor4dDescriptorEx" = true ->
  setTensor4dDesc_strided be (top_desc_set b group g y)
    (num_ b) (Z.quot (num_output_ b) group) (height_out g) (width_out g)
    (num_output_ b * out_spatial_dim_ b) (out_spatial_dim_ b) (width_out g) 1
  = Ok (top_desc_set b group g y).
Proof.
  intros Hc. unfold setTensor4dDesc_strided. now rewrite (BACKEND_CHECK_Ok _ Hc).
Qed.

Lemma set_conv_desc_again z :
  call_succeeds be "cudnnSetConvolution2dDescriptor" = true ->
  setConvolutionDesc be (conv_desc_set g z)
    (pad_h g) (pad_w g) (stride_h g) (stride_w g)
  = Ok (conv_desc_set g z).
Proof.
  intros Hc. unfold setConvolutionDesc. now rewrite (BACKEND_CHECK_Ok _ Hc).
Qed.

(** An input whose descriptors are set and whose plan entry is the backend's
    answer is left as it is by another pass of lines 137-178. *)
Lemma Reshape_bottom_fixpoint (i : nat) d0 d p :
  group <> 0 -> is_Some (handle !! 0%nat) ->
  call_succeeds be "cudnnSetTensor4dDescriptorEx" = true ->
  call_succeeds be "cudnnSetConvolution2dDescriptor" = true ->
  described b group g d0 d i -> planned be d p i ->
  Reshape_bottom be b group handle g (Z.of_nat i) (d, p) = Ok (d, p).
Proof.
  intros Hg [h Hh] Ct Cc (Db & Dt & Dc & _) Hp.
  destruct Hp as (bd & td & cd & fwd & fsz & bf & bfsz & bdt & bdsz &
                  Hbd & Htd & Hcd & A1 & A2 & A3 & S1 & S2 & S3 &
                  Q1 & Q2 & Q3 & Q4 & Q5 & Q6).
  rewrite Hbd in Db. rewrite Htd in Dt. rewrite Hcd in Dc.
  destruct (bottom_descs_ d0 !! i) as [x|]; [|discriminate].
  destruct (top_descs_ d0 !! i) as [y|]; [|discriminate].
  destruct (conv_descs_ d0 !! i) as [z|]; [|discriminate].
  cbn in Db, Dt, Dc. injection Db as ->. injection Dt as ->. injection Dc as ->.
  unfold Reshape_bottom.
  unfold int_div. rewrite !decide_False by exact Hg. rewrite !bind_Ok.
  rewrite (load_lookup _ _ _ Hbd), bind_Ok.
  rewrite (set_bottom_desc_again _ Ct), bind_Ok.
  rewrite (load_lookup _ _ _ Htd), bind_Ok.
  rewrite (set_top_desc_again _ Ct), bind_Ok.
  rewrite (load_lookup _ _ _ Hcd), bind_Ok.
  rewrite (set_conv_desc_again _ Cc), bind_Ok.
  rewrite (store_same _ _ _ (load_lookup _ _ _ Hbd)), bind_Ok.
  rewrite (store_same _ _ _ (load_lookup _ _ _ Htd)), bind_Ok.
  rewrite (store_same _ _ _ (load_lookup _ _ _ Hcd)), bind_Ok.
  change 0 with (Z.of_nat 0) at 1. rewrite (load_lookup handle 0 h Hh), bind_Ok.
  rewrite Q1. cbn [checked_query]. rewrite bind_Ok.
  rewrite (store_same _ _ _ (load_lookup _ _ _ A1)), bind_Ok.
  rewrite Q2. cbn [checked_query]. rewrite bind_Ok.
  rewrite (store_same _ _ _ (load_lookup _ _ _ S1)), bind_Ok.
  rewrite Q3. cbn [checked_query]. rewrite bind_Ok.
  rewrite (store_same _ _ _ (load_lookup _ _ _ A2)), bind_Ok.
  rewrite Q4. cbn [checked_query]. rewrite bind_Ok.
  rewrite (store_same _ _ _ (load_lookup _ _ _ S2)), bind_Ok.
  rewrite Q5. cbn [checked_query]. rewrite bind_Ok.
  rewrite (store_same _ _ _ (load_lookup _ _ _ A3)), bind_Ok.
  rewrite Q6. cbn [checked_query]. rewrite bind_Ok.
  rewrite (store_same _ _ _ (load_lookup _ _ _ S3)), bind_Ok.
  now destruct d, p.
Qed.
End ReshapeAgain.

Lemma for_loop_fixpoint {St} (body : Z -> St -> Res St) (n : nat) (s : St) :
  (forall i : nat, (i < n)%nat -> body (Z.of_nat i) s = Ok s) ->
  for_loop (Z.of_nat n) body s = Ok s.
Proof.
  intros Hfix.
  destruct (for_loop_invariant (fun _ t => t = s) body (Z.of_nat n) s)
    as (s' & Hs & ->); [lia | reflexivity | | exact Hs].
  intros j t Hj ->. exists s. split; [|reflexivity].
  rewrite <- (Z2Nat.id j) by lia. apply Hfix. lia.
Qed.

Section ReshapeTwice.
Context {Dtype BlobProto : Type} `{Scalar Dtype}.
Variables (fw : Framework Dtype BlobProto) (be : Backend).
Local Abbreviation Layer := (CuDNNDepthwiseLayer Dtype BlobProto).

(** X22. [Reshape] on the layer it has just left, for the same blobs, changes
    nothing: when the base class answers the second call as it answered the
    first and the plan is the one the backend chose (the allocation was not
    refused), the second call returns the same layer and the same world, so
    it neither frees nor requests device memory. *)
Theorem Reshape_again_changes_nothing (l l1 : Layer) bottom top w w1 :
  Reshape fw be l bottom top w = Ok (l1, w1) ->
  (forall top',
     DepthwiseLayer_Reshape fw (base l) bottom top = Some (base l1, top') ->
     DepthwiseLayer_Reshape fw (base l1) bottom top = Some (base l1, top')) ->
  (forall i, (i < length bottom)%nat -> planned be (descs l1) (plan l1) i) ->
  Reshape fw be l1 bottom top w1 = Ok (l1, w1).
Proof.
  intros Hrun Hstable Hplanned.
  apply Reshape_inv_full in Hrun
    as (b & top' & bottom0 & top0 & g & d & p1 & Hbase & Hax & Hg & Hb0 & Ht0 &
        Hh & Hw & Hho & Hwo & Hph & Hpw & Hsh & Hsw & Hloop & Hws & Hbias & Hl').
  destruct l1 as [b1 hs1 hd1 st1 pl1 d1 g1 wo1 bo1 to1 sp1 cw1 m1].
  cbn [base plan pool descs] in *.
  injection Hl' as -> -> -> -> -> -> -> -> -> -> ->.
  specialize (Hstable top' Hbase).
  assert (Hfirst : is_Some (handle_ l !! 0%nat) /\
            call_succeeds be "cudnnSetTensor4dDescriptorEx" = true /\
            call_succeeds be "cudnnSetConvolution2dDescriptor" = true).
  { pose proof Hloop as Hl. unfold for_loop in Hl. rewrite Nat2Z.id in Hl.
    destruct bottom as [|x xs]; [discriminate|].
    cbn [length for_from] in Hl.
    apply bind_Ok_inv in Hl as ([d2 q2] & Hstep & _).
    split; [now apply Reshape_bottom_inv in Hstep as (_ & _ & Hh0 & _)|].
    exact (Reshape_bottom_checked _ _ _ _ _ _ _ _ _ _ Hstep). }
  destruct Hfirst as (Hhandle & Ct & Cc).
  apply Reshape_bottoms_inv in Hloop as (_ & _ & _ & _ & _ & Hdone).
  cbn [fst snd] in Hdone. rewrite Nat2Z.id in Hdone.
  assert (Hcover : size_mul (perStreamMax (length bottom) pl1)
                     CUDNN_STREAMS_DEPTHWISE <= workspaceSizeInBytes sp1).
  { assert (Hfit : plan_fits (length bottom) p1).
    { apply (planned_plan_fits be d). intros j Hj. now apply Hdone. }
    apply Reshape_workspace_inv in Hws as (m & Hm & _ & _ & Hcases).
    rewrite (Reshape_max_workspace_spec _ _ Hfit) in Hm. injection Hm as <-.
    destruct Hcases as [(Hle & -> & -> & _)|(_ & _ & _ & _ & _ & Hcases)].
    - exact Hle.
    - destruct Hcases as [(ptr & _ & -> & -> & _)|(_ & Hz & -> & _)].
      + lia.
      + rewrite (zero_memory_path_perStreamMax _ _ Hz). reflexivity. }
  assert (Hfit1 : plan_fits (length bottom) pl1)
    by exact (planned_plan_fits be _ _ _ Hplanned).
  destruct g as [gh gw gho gwo gph gpw gsh gsw].
  cbn [height width height_out width_out pad_h pad_w stride_h stride_w] in *.
  unfold Reshape.
  cbn [base group_ handle_ stream_ handles_setup_ plan descs pool weight_offset_
       caffe_weight_ mask_].
  rewrite Hstable. rewrite (M_bind_Ok _ _ w1 w1 (b, top')) by reflexivity.
  rewrite (M_bind_Ok _ _ w1 w1 tt)
    by (apply lift_Ok; unfold CHECK_EQ; now rewrite decide_True by (now symmetry)).
  rewrite (M_bind_Ok _ _ w1 w1 (Z.quot (bottom_dim_ b) (group_ l)))
    by (apply lift_Ok; unfold int_div; now rewrite decide_False by exact Hg).
  rewrite (M_bind_Ok _ _ w1 w1 (Z.quot (top_dim_ b) (group_ l)))
    by (apply lift_Ok; unfold int_div; now rewrite decide_False by exact Hg).
  rewrite (M_bind_Ok _ _ w1 w1 bottom0)
    by (apply lift_Ok; exact (load_lookup bottom 0 _ Hb0)).
  rewrite (M_bind_Ok _ _ w1 w1 top0)
    by (apply lift_Ok; exact (load_lookup top' 0 _ Ht0)).
  rewrite (M_bind_Ok _ _ w1 w1 gh) by (apply lift_Ok; now rewrite Hh).
  rewrite (M_bind_Ok _ _ w1 w1 gw) by (apply lift_Ok; now rewrite Hw).
  rewrite (M_bind_Ok _ _ w1 w1 gho) by (apply lift_Ok; now rewrite Hho).
  rewrite (M_bind_Ok _ _ w1 w1 gwo) by (apply lift_Ok; now rewrite Hwo).
  rewrite (M_bind_Ok _ _ w1 w1 gph)
    by (apply lift_Ok; exact (load_lookup (pad_ b) 0 _ Hph)).
  rewrite (M_bind_Ok _ _ w1 w1 gpw)
    by (apply lift_Ok; exact (load_lookup (pad_ b) 1 _ Hpw)).
  rewrite (M_bind_Ok _ _ w1 w1 gsh)
    by (apply lift_Ok; exact (load_lookup (stride_ b) 0 _ Hsh)).
  rewrite (M_bind_Ok _ _ w1 w1 gsw)
    by (apply lift_Ok; exact (load_lookup (stride_ b) 1 _ Hsw)).
  cbv zeta.
  erewrite (M_bind_Ok _ _ w1 w1).
  2:{ apply lift_Ok, for_loop_fixpoint. intros i Hi.
      apply (Reshape_bottom_fixpoint be b (group_ l) (handle_ l) _ i (descs l));
        try assumption.
      - destruct (Hdone i Hi) as (Hd & _). exact Hd.
      - now apply Hplanned. }
  cbv beta iota.
  rewrite (M_bind_Ok _ _ w1 w1 (pl1, sp1))
    by (now apply Reshape_workspace_keep).
  cbv beta iota.
  cbn [bottom_descs_ top_descs_ bias_desc_ filter_desc_ conv_descs_].
  destruct (bias_term_ b) eqn:Eb.
  - rewrite (M_bind_Ok _ _ w1 w1
               {| tensor_id := tensor_id (bias_desc_ d);
                  tensor_nchw := Some (1, num_output_ b, 1, 1);
                  tensor_strides := Some (num_output_ b, 1, 1, 1) |}).
    + reflexivity.
    + apply lift_Ok. unfold setTensor4dDesc, setTensor4dDesc_strided.
      rewrite (BACKEND_CHECK_Ok be _ (Hbias eq_refl)), bind_Ok.
      cbv zeta. cbn [tensor_id]. change (1 * 1) with 1. now rewrite !Z.mul_1_r.
  - rewrite (M_bind_Ok _ _ w1 w1 (bias_desc_ d)) by reflexivity.
    reflexivity.
Qed.
End ReshapeTwice.

Lemma Reshape_again_changes_nothing_witness :
  exists l1 w1,
    Reshape example_framework (backend_with_memory 16) example_layer
      example_bottom example_top example_world = Ok (l1, w1) /\
    Reshape example_framework (backend_with_memory 16) l1
      example_bottom example_top w1 = Ok (l1, w1).
Proof.
  destruct (Reshape example_framework (backend_with_memory 16) example_layer
              example_bottom example_top example_world) as [[l1 w1]|f] eqn:Hrun;
    [|vm_compute in Hrun; discriminate].
  exists l1, w1. split; [reflexivity|].
  apply (Reshape_again_changes_nothing example_framework (backend_with_memory 16)
           example_layer l1 example_bottom example_top example_world w1 Hrun).
  - intros top' Hbase. cbn in Hbase |- *. now injection Hbase as _ <-.
  - vm_compute in Hrun. injection Hrun as <- _.
    intros [|i] Hi; [|cbn in Hi; lia].
    unfold planned. do 9 eexists. vm_compute. repeat split.
Defined.

(** ** The index arithmetic of the translators stays within [int] *)

(** X23. No [int] of the translators overflows: when the count of the grouped
    blob, [n * channels_per_group * kernel_dim], fits in an [int], so does
    every intermediate value of [idx_cudnn], of [idx_caffe] and of the slot
    [j = i / multiplier_ % channels_per_group], at every pair [(i, k)] the
    loops visit. *)
Theorem translator_indices_fit_int multiplier cpg kd n i k :
  0 < multiplier -> 0 < cpg -> 0 <= i < n -> 0 <= k < kd ->
  n * cpg * kd <= INT_MAX ->
  0 <= Z.quot i multiplier <= INT_MAX /\
  0 <= Z.rem (Z.quot i multiplier) cpg <= INT_MAX /\
  0 <= i * cpg <= INT_MAX /\
  0 <= i * cpg + Z.rem (Z.quot i multiplier) cpg <= INT_MAX /\
  0 <= (i * cpg + Z.rem (Z.quot i multiplier) cpg) * kd <= INT_MAX /\
  0 <= backend_index multiplier cpg kd i k <= INT_MAX /\
  0 <= i * kd <= INT_MAX /\
  0 <= idx_caffe kd i k <= INT_MAX.
Proof.
  intros Hm Hc Hi Hk Hmax. unfold backend_index.
  exact (translator_ints_in_range multiplier cpg kd n i k Hm Hc Hi Hk Hmax).
Qed.

Lemma translator_indices_fit_int_witness :
  0 <= backend_index 2 4 9 5 3 <= INT_MAX /\ 0 <= idx_caffe 9 5 3 <= INT_MAX.
Proof.
  destruct (translator_indices_fit_int 2 4 9 8 5 3)
    as (_ & _ & _ & _ & _ & Hb & _ & Hc);
    first [lia | (vm_compute; discriminate) | (split; assumption)].
Defined.
